(** * CollabSpec backend: authentication and authorization

    A shallow embedding of the authentication subsystem of the CollabSpec
    backend and the properties it is specified to have:

    - [middleware/auth.ts]: [extractToken], [authenticate],
      [optionalAuthenticate], [requireRole], [requireOwnershipOrRole],
      [authRateLimit], [validateTimezone], [validateSession];
    - [services/AuthService.ts]: the constructor, [register], [login],
      [refreshToken], [verifyAccessToken], [generateTokens], [hasPermission],
      [canAccessResource];
    - [routes/auth.ts]: the handlers of [POST /register], [POST /login],
      [POST /refresh] and [POST /logout] with their error mapping, and the
      routes as the router runs them, behind the limiter of [router.use]
      and the middleware of each route;
    - [repositories/UserRepository.ts] and [BaseRepository.ts]:
      [findByEmail], [findById], [create], [updateById], [updateLastSeen],
      [emailExists], [deactivateUser], [reactivateUser], over the [users]
      table of the initial schema, with what PostgreSQL raises and what
      the entity schema refuses; [buildWhereClause], [buildOrderClause]
      and the query text and pagination metadata of [findMany];
    - [services/UserService.ts]: the availability test of
      [getAvailableNow] and the paging of [searchUsers].

    JavaScript numbers that hold integers (millisecond clocks, counters,
    NumericDate claims) are [Z]; strings are [string]; thrown exceptions are
    the left summand of a result. *)

From Stdlib Require Import ZArith Lia Bool Ascii String List DecimalString.
From stdpp Require Import base option gmap strings list fin_maps.

Open Scope string_scope.
Open Scope list_scope.
Open Scope Z_scope.

(* ===================================================================== *)
(** * Part I.  The model                                                  *)
(* ===================================================================== *)

(* --------------------------------------------------------------------- *)
(** ** JavaScript values, exceptions and string primitives               *)
(* --------------------------------------------------------------------- *)

Module Js.

(** Values thrown in the modelled code.  [TokenExpiredError],
    [JsonWebTokenError] and [NotBeforeError] are the three exception
    classes of [jsonwebtoken]; [ZodError] is what a failed [parse] throws;
    [Error msg] is [new Error(msg)]. *)
Inductive JsError : Type :=
| TokenExpiredError
| JsonWebTokenError (msg : string)
| NotBeforeError
| ZodError (issues : list string)
| Error (msg : string).

(** [r : Result A] is a computation that either threw or returned. *)
Definition Result (A : Type) : Type := JsError + A.

Definition throw {A} (e : JsError) : Result A := inl e.
Definition ret {A} (a : A) : Result A := inr a.
Definition bind {A B} (r : Result A) (k : A -> Result B) : Result B :=
  match r with
  | inl e => inl e
  | inr a => k a
  end.

(** [try { body } catch (error) { handler(error) }] *)
Definition try_catch {A} (body : Result A) (handler : JsError -> Result A)
  : Result A :=
  match body with
  | inl e => handler e
  | inr a => inr a
  end.

(** [error instanceof z.ZodError] *)
Definition is_ZodError (e : JsError) : bool :=
  match e with ZodError _ => true | _ => false end.

(** [error instanceof Error]: every exception class above extends
    [Error]. *)
Definition instanceof_Error (e : JsError) : bool := true.

(** [error.message] *)
Definition message (e : JsError) : string :=
  match e with
  | TokenExpiredError => "jwt expired"
  | JsonWebTokenError m => m
  | NotBeforeError => "jwt not active"
  | ZodError issues => String.concat ", " issues
  | Error m => m
  end.

(** An optional string in boolean position: [undefined] and [""] are
    falsy. *)
Definition truthy (s : option string) : bool :=
  match s with
  | Some s => negb (String.eqb s "")
  | None => false
  end.

(** [a || b] on optional strings. *)
Definition or (a b : option string) : option string :=
  if truthy a then a else b.

(** [s.startsWith(p)] *)
Definition startsWith (p s : string) : bool := String.prefix p s.

(** [s.substring(n)] for [0 <= n] *)
Fixpoint substring_from (n : nat) (s : string) : string :=
  match n, s with
  | O, _ => s
  | S n', String _ s' => substring_from n' s'
  | S _, EmptyString => EmptyString
  end.

(** [hay.includes(needle)] *)
Fixpoint includes (needle hay : string) : bool :=
  String.prefix needle hay
  || match hay with
     | EmptyString => false
     | String _ hay' => includes needle hay'
     end.

(** [Math.ceil(a / b)] for integers [a] and [0 < b]: the quotient of two
    integers below 2^53 is rounded to a double that is an integer only
    when the exact quotient is one, so the ceiling is the exact one. *)
Definition ceil_div (a b : Z) : Z := - ((- a) / b).

(** [Math.floor(a / b)] for integers [a] and [0 < b]. *)
Definition floor_div (a b : Z) : Z := a / b.

End Js.

Import Js.

Declare Scope js_scope.
Delimit Scope js_scope with js.
Notation "'let*' x ':=' r 'in' k" := (bind r (fun x => k))
  (at level 10, x pattern, r at level 100, k at level 200) : js_scope.

(* --------------------------------------------------------------------- *)
(** ** The HTTP layer as the middleware sees it                           *)
(* --------------------------------------------------------------------- *)

(** User roles, [packages/shared/src/types/user.ts]. *)
Inductive UserRole : Type :=
| developer
| designer
| product_manager
| stakeholder.

Module Http.

(** What [authenticate] stores in [req.user]. *)
Record ReqUser : Type := mkReqUser {
  ru_id : string;
  ru_email : string;
  ru_role : UserRole;
  ru_timezone : string;
  ru_sessionId : string
}.

(** The parts of an Express request the middleware reads:
    [req.headers.authorization], [req.ip],
    [req.connection.remoteAddress] and [req.user]. *)
Record Request : Type := mkRequest {
  authorization : option string;
  ip : option string;
  remoteAddress : option string;
  user : option ReqUser
}.

(** The body [{ error: { code, message, timestamp, ... } }].  The
    timestamp is the [Date] whose [toISOString()] goes on the wire. *)
Record ErrorBody : Type := mkErrorBody {
  code : string;
  message : string;
  timestamp : Z;
  retryAfter : option Z
}.

(** What a middleware does with a request: call [next()] (possibly after
    updating the request) or send [res.status(status).json(body)]. *)
Inductive Outcome : Type :=
| Next (req : Request)
| Respond (status : Z) (body : ErrorBody).

End Http.

Import Http.

(* --------------------------------------------------------------------- *)
(** ** [authRateLimit] (middleware/auth.ts)                               *)
(* --------------------------------------------------------------------- *)

Module RateLimit.

(** A value of the [attempts] map: [{ count, resetTime }]. *)
Record Entry : Type := mkEntry {
  count : Z;
  resetTime : Z
}.

(** [req.ip || req.connection.remoteAddress || 'unknown'] *)
Definition clientId (req : Request) : string :=
  match Js.or (Js.or (ip req) (remoteAddress req)) (Some "unknown") with
  | Some s => s
  | None => "unknown"
  end.

(** The clean-up loop: every entry with [now > value.resetTime] is
    deleted. *)
Definition sweep (now : Z) (attempts : gmap string Entry) : gmap string Entry :=
  filter (fun kv => now <= resetTime kv.2) attempts.

Definition too_many (now : Z) (e : Entry) : ErrorBody :=
  {| code := "RATE_LIMIT_EXCEEDED";
     message := "Too many authentication attempts. Please try again later.";
     timestamp := now;
     retryAfter := Some (ceil_div (resetTime e - now) 1000) |}.

(** One call of the middleware returned by
    [authRateLimit(maxAttempts, windowMs)], at clock reading [now], on the
    closure's [attempts] map.  [clientAttempts.count++] updates the object
    held by the map, hence the re-insertion. *)
Definition authRateLimit (maxAttempts windowMs : Z) (req : Request) (now : Z)
    (attempts : gmap string Entry) : gmap string Entry * Outcome :=
  let id := clientId req in
  let attempts := sweep now attempts in
  match attempts !! id with
  | None =>
      (<[id := {| count := 1; resetTime := now + windowMs |}]> attempts, Next req)
  | Some clientAttempts =>
      if now >? resetTime clientAttempts then
        (<[id := {| count := 1; resetTime := now + windowMs |}]> attempts, Next req)
      else if count clientAttempts >=? maxAttempts then
        (attempts, Respond 429 (too_many now clientAttempts))
      else
        (<[id := {| count := count clientAttempts + 1;
                    resetTime := resetTime clientAttempts |}]> attempts,
         Next req)
  end.

(** The defaults of [authRateLimit]. *)
Definition default_maxAttempts : Z := 5.
Definition default_windowMs : Z := 15 * 60 * 1000.

(** A run of the middleware over a sequence of requests, each with the
    clock reading of its call; the final map is returned. *)
Fixpoint run (maxAttempts windowMs : Z) (calls : list (Request * Z))
    (attempts : gmap string Entry) : gmap string Entry :=
  match calls with
  | [] => attempts
  | (req, now) :: calls' =>
      run maxAttempts windowMs calls'
        (authRateLimit maxAttempts windowMs req now attempts).1
  end.

(** How many of [calls] come from client [id]. *)
Definition calls_of (id : string) (calls : list (Request * Z)) : Z :=
  Z.of_nat (length (filter (fun c => clientId c.1 = id) calls)).

End RateLimit.

(* --------------------------------------------------------------------- *)
(** ** JSON objects                                                       *)
(* --------------------------------------------------------------------- *)

Module Json.

(** The JSON values that occur in token payloads and request bodies.
    Numbers are the integral ones (counters and NumericDate claims);
    arrays and nested objects, which no check made here accepts, are not
    represented. *)
Inductive JVal : Type :=
| JStr (s : string)
| JNum (n : Z)
| JBool (b : bool)
| JNull.

(** An object, as its list of properties in insertion order. *)
Definition JObj : Type := list (string * JVal).

(** [o[k]]; [None] is [undefined]. *)
Fixpoint get (k : string) (o : JObj) : option JVal :=
  match o with
  | [] => None
  | (k', v) :: o' => if String.eqb k k' then Some v else get k o'
  end.

(** [Object.keys(o)] *)
Definition keys (o : JObj) : list string := map fst o.

(** A value in boolean position: [""], [0], [false] and [null] are
    falsy. *)
Definition truthy_value (v : JVal) : bool :=
  match v with
  | JStr s => negb (String.eqb s "")
  | JNum n => negb (n =? 0)
  | JBool b => b
  | JNull => false
  end.

End Json.

Import Json.

(* --------------------------------------------------------------------- *)
(** ** Third-party libraries                                              *)
(* --------------------------------------------------------------------- *)

(** What PostgreSQL raises in the statements modelled here, by error
    class. *)
Inductive SqlError : Type :=
| unique_violation (constraint : string)
| string_data_right_truncation (n : nat)
| invalid_text (value : string)
| invalid_uuid (value : string).

(** The operations of the JavaScript runtime, of [zod], [ms], [bcryptjs],
    [crypto], of the JWS layer of [jsonwebtoken] and of PostgreSQL that the
    code calls and whose inner workings are not part of this code base. *)
Class Libraries : Type := {
  (** [z.string().email()] and [z.string().uuid()] *)
  is_email : string -> bool;
  is_uuid : string -> bool;
  (** [s.length], the number of UTF-16 code units of [s], which is what
      zod's [min] and [max] count, and [s.toLowerCase()] *)
  utf16_length : string -> nat;
  toLowerCase : string -> string;
  (** whether [Intl.DateTimeFormat(undefined, { timeZone: v })] returns;
      it throws a [RangeError] otherwise *)
  timeZone_supported : JVal -> bool;
  (** PostgreSQL: whether a string is a legal text value (valid in the
      encoding of the database, without a NUL), the number of characters
      [VARCHAR(n)] counts, the input function of the type [UUID] composed
      with its output function (the canonical text of the value, [None]
      when the text is not of UUID syntax), and the message of an error *)
  pg_text : string -> bool;
  char_length : string -> nat;
  uuid_in : string -> option string;
  sqlerrm : SqlError -> string;
  (** [ms(span)], the time-span parser behind [expiresIn], in whole
      milliseconds; [None] when [span] is not a time span *)
  ms : string -> option Z;
  (** [parseInt(s)]; [None] is [NaN] *)
  parseInt : string -> option Z;
  (** [bcrypt.hash(password, rounds)] with the salt it draws, and
      [bcrypt.compare(password, hash)] *)
  bcrypt_hash : string -> option Z -> string -> Result string;
  bcrypt_compare : string -> string -> bool;
  (** HMAC-SHA256 of the signing input of a token with payload [p] under
      key [k] *)
  hmac : string -> JObj -> string;
  (** the compact serialization [header.payload.signature] and its
      parser; [None] for a string that is not a compact JWS *)
  jws_encode : JObj -> string -> string;
  jws_decode : string -> option (JObj * string)
}.

(** What is assumed of them: a serialized token parses back to what was
    serialized and the empty string is no token. *)
Class LibrariesOk `{Libraries} : Prop := {
  jws_decode_encode : forall p sg, jws_decode (jws_encode p sg) = Some (p, sg);
  jws_decode_empty : jws_decode "" = None
}.

(** What is assumed of PostgreSQL and of zod's [email()] where the store
    is the [users] table: the canonical text of a UUID reads back as
    itself, and an address that zod accepts, which holds ASCII characters
    only, is in lower case a legal text value. *)
Class StoreOk `{Libraries} : Prop := {
  uuid_in_canonical : forall s c, uuid_in s = Some c -> uuid_in c = Some c;
  is_email_text : forall s, is_email s = true -> pg_text (toLowerCase s) = true
}.

(* --------------------------------------------------------------------- *)
(** ** [jsonwebtoken]: [sign], [verify], [decode] with HS256              *)
(* --------------------------------------------------------------------- *)

Module Jwt.
Section WithLibraries.
Context `{Libraries}.

(** The registered claims [sign] adds: [iat], the clock in seconds,
    and [exp], [iat] plus the time span. *)
Definition with_dates (payload : JObj) (timestamp span : Z) : JObj :=
  payload ++ [("iat", JNum timestamp);
              ("exp", JNum (timestamp + floor_div span 1000))].

(** [jwt.sign(payload, secretOrPrivateKey, { expiresIn })] at clock
    reading [now] (milliseconds). *)
Definition sign (payload : JObj) (secretOrPrivateKey : string)
    (expiresIn : string) (now : Z) : Result string :=
  if String.eqb secretOrPrivateKey "" then
    throw (Error "secretOrPrivateKey must have a value")
  else
    let timestamp := floor_div now 1000 in
    match ms expiresIn with
    | None =>
        throw (Error "expiresIn should be a number of seconds or string representing a timespan")
    | Some span =>
        let payload' := with_dates payload timestamp span in
        ret (jws_encode payload' (hmac secretOrPrivateKey payload'))
    end.

(** [jwt.decode(token)]: the payload, without any check. *)
Definition decode (token : string) : option JObj :=
  fst <$> jws_decode token.

(** The [nbf] check of [verify]. *)
Definition check_nbf (payload : JObj) (clockTimestamp : Z) : Result unit :=
  match get "nbf" payload with
  | None => ret tt
  | Some (JNum nbf) =>
      if nbf >? clockTimestamp then throw NotBeforeError else ret tt
  | Some _ => throw (JsonWebTokenError "invalid nbf value")
  end.

(** The [exp] check of [verify]: no tolerance, a token is expired from
    the second [exp] on. *)
Definition check_exp (payload : JObj) (clockTimestamp : Z) : Result unit :=
  match get "exp" payload with
  | None => ret tt
  | Some (JNum exp) =>
      if clockTimestamp >=? exp then throw TokenExpiredError else ret tt
  | Some _ => throw (JsonWebTokenError "invalid exp value")
  end.

(** [jwt.verify(token, secretOrPublicKey)] at clock reading [now]: the
    token must parse, a secret must be given, the signature must be the
    MAC of the payload under the secret, then the dates are checked. *)
Definition verify (token : string) (secretOrPublicKey : string) (now : Z)
  : Result JObj :=
  match jws_decode token with
  | None => throw (JsonWebTokenError "jwt malformed")
  | Some (payload, signature) =>
      if String.eqb secretOrPublicKey "" then
        throw (JsonWebTokenError "secret or public key must be provided")
      else if negb (String.eqb signature (hmac secretOrPublicKey payload)) then
        throw (JsonWebTokenError "invalid signature")
      else
        let clockTimestamp := floor_div now 1000 in
        (let* _ := check_nbf payload clockTimestamp in
         let* _ := check_exp payload clockTimestamp in
         ret payload)%js
  end.

End WithLibraries.
End Jwt.

(* --------------------------------------------------------------------- *)
(** ** The zod schemas of AuthService.ts                                  *)
(* --------------------------------------------------------------------- *)

(** The string values of the role enum. *)
Definition role_name (r : UserRole) : string :=
  match r with
  | developer => "developer"
  | designer => "designer"
  | product_manager => "product-manager"
  | stakeholder => "stakeholder"
  end.

Definition role_of_name (s : string) : option UserRole :=
  if String.eqb s "developer" then Some developer
  else if String.eqb s "designer" then Some designer
  else if String.eqb s "product-manager" then Some product_manager
  else if String.eqb s "stakeholder" then Some stakeholder
  else None.

(** [z.infer<typeof JWTPayloadSchema>] *)
Module JWTPayload.
Record t : Type := mk {
  userId : string;
  email : string;
  role : UserRole;
  timezone : string;
  sessionId : string;
  iat : Z;
  exp : Z
}.
End JWTPayload.

(** [z.infer<typeof RefreshTokenPayloadSchema>] *)
Module RefreshTokenPayload.
Record t : Type := mk {
  userId : string;
  sessionId : string;
  tokenVersion : Z;
  iat : Z;
  exp : Z
}.
End RefreshTokenPayload.

(** [LoginRequest] *)
Module LoginRequest.
Record t : Type := mk {
  email : string;
  password : string;
  timezone : option string;
  rememberMe : bool
}.
End LoginRequest.

(** [RegisterRequest] *)
Module RegisterRequest.
Record t : Type := mk {
  name : string;
  email : string;
  password : string;
  role : UserRole;
  timezone : string
}.
End RegisterRequest.

(** [RefreshTokenRequest] *)
Module RefreshTokenRequest.
Record t : Type := mk {
  refreshToken : string
}.
End RefreshTokenRequest.

Module Zod.
Section WithLibraries.
Context `{Libraries}.

(** A property that must be a string accepted by [ok]. *)
Definition string_at (ok : string -> bool) (k : string) (o : JObj)
  : option string :=
  match get k o with
  | Some (JStr s) => if ok s then Some s else None
  | _ => None
  end.

(** [z.number()] *)
Definition number_at (k : string) (o : JObj) : option Z :=
  match get k o with
  | Some (JNum n) => Some n
  | _ => None
  end.

(** [z.nativeEnum({ developer, designer, 'product-manager', stakeholder })] *)
Definition role_at (k : string) (o : JObj) : option UserRole :=
  match get k o with
  | Some (JStr s) => role_of_name s
  | _ => None
  end.

(** [schema.optional()]: an absent property is accepted as
    [undefined]. *)
Definition optional {A} (field : string -> JObj -> option A) (k : string)
    (o : JObj) : option (option A) :=
  match get k o with
  | None => Some None
  | Some _ => Some <$> field k o
  end.

(** [schema.default(d)]: an absent property is replaced by [d]. *)
Definition default {A} (field : string -> JObj -> option A) (d : A)
    (k : string) (o : JObj) : option A :=
  match get k o with
  | None => Some d
  | Some _ => field k o
  end.

Definition any_string (s : string) : bool := true.

(** [.min(1)]: the strings of length at least one are those that are
    not empty. *)
Definition nonempty (s : string) : bool := negb (String.eqb s "").

(** [.min(n)] and [.max(n)] *)
Definition min_length (n : nat) (s : string) : bool :=
  (n <=? utf16_length s)%nat.
Definition max_length (n : nat) (s : string) : bool :=
  (utf16_length s <=? n)%nat.

(** The paths of the properties that were rejected. *)
Definition issues (checked : list (string * bool)) : JsError :=
  ZodError (map fst (filter (fun c => negb c.2) checked)).

Definition accepted {A} (x : option A) : bool :=
  match x with Some _ => true | None => false end.

(** [JWTPayloadSchema.parse(o)].  [z.object] keeps the properties of
    the schema and drops every other property of [o]. *)
Definition JWTPayloadSchema_parse (o : JObj) : Result JWTPayload.t :=
  let userId := string_at is_uuid "userId" o in
  let email := string_at is_email "email" o in
  let role := role_at "role" o in
  let timezone := string_at any_string "timezone" o in
  let sessionId := string_at is_uuid "sessionId" o in
  let iat := number_at "iat" o in
  let exp := number_at "exp" o in
  match userId, email, role, timezone, sessionId, iat, exp with
  | Some u, Some e, Some r, Some tz, Some sid, Some i, Some x =>
      ret (JWTPayload.mk u e r tz sid i x)
  | _, _, _, _, _, _, _ =>
      throw (issues [("userId", accepted userId); ("email", accepted email);
                     ("role", accepted role); ("timezone", accepted timezone);
                     ("sessionId", accepted sessionId); ("iat", accepted iat);
                     ("exp", accepted exp)])
  end.

(** [RefreshTokenPayloadSchema.parse(o)] *)
Definition RefreshTokenPayloadSchema_parse (o : JObj)
  : Result RefreshTokenPayload.t :=
  let userId := string_at is_uuid "userId" o in
  let sessionId := string_at is_uuid "sessionId" o in
  let tokenVersion := number_at "tokenVersion" o in
  let iat := number_at "iat" o in
  let exp := number_at "exp" o in
  match userId, sessionId, tokenVersion, iat, exp with
  | Some u, Some sid, Some v, Some i, Some x =>
      ret (RefreshTokenPayload.mk u sid v i x)
  | _, _, _, _, _ =>
      throw (issues [("userId", accepted userId);
                     ("sessionId", accepted sessionId);
                     ("tokenVersion", accepted tokenVersion);
                     ("iat", accepted iat); ("exp", accepted exp)])
  end.

(** The property names of the two payload schemas. *)
Definition JWTPayload_keys : list string :=
  ["userId"; "email"; "role"; "timezone"; "sessionId"; "iat"; "exp"].

Definition RefreshTokenPayload_keys : list string :=
  ["userId"; "sessionId"; "tokenVersion"; "iat"; "exp"].

Definition boolean_at (k : string) (o : JObj) : option bool :=
  match get k o with
  | Some (JBool b) => Some b
  | _ => None
  end.

(** [LoginRequestSchema.parse(o)] *)
Definition LoginRequestSchema_parse (o : JObj) : Result LoginRequest.t :=
  let email :=
    string_at (fun s => is_email s && max_length 254 s) "email" o in
  let password := string_at nonempty "password" o in
  let timezone := optional (string_at any_string) "timezone" o in
  let rememberMe := default boolean_at false "rememberMe" o in
  match email, password, timezone, rememberMe with
  | Some e, Some pw, Some tz, Some rm => ret (LoginRequest.mk e pw tz rm)
  | _, _, _, _ =>
      throw (issues [("email", accepted email); ("password", accepted password);
                     ("timezone", accepted timezone);
                     ("rememberMe", accepted rememberMe)])
  end.

(** [RegisterRequestSchema.parse(o)] *)
Definition RegisterRequestSchema_parse (o : JObj) : Result RegisterRequest.t :=
  let name :=
    string_at (fun s => nonempty s && max_length 100 s) "name" o in
  let email :=
    string_at (fun s => is_email s && max_length 254 s) "email" o in
  let password :=
    string_at (fun s => min_length 8 s && max_length 128 s) "password" o in
  let role := default role_at developer "role" o in
  let timezone := default (string_at any_string) "UTC" "timezone" o in
  match name, email, password, role, timezone with
  | Some n, Some e, Some pw, Some r, Some tz =>
      ret (RegisterRequest.mk n e pw r tz)
  | _, _, _, _, _ =>
      throw (issues [("name", accepted name); ("email", accepted email);
                     ("password", accepted password); ("role", accepted role);
                     ("timezone", accepted timezone)])
  end.

(** [RefreshTokenRequestSchema.parse(o)] *)
Definition RefreshTokenRequestSchema_parse (o : JObj)
  : Result RefreshTokenRequest.t :=
  match string_at nonempty "refreshToken" o with
  | Some t => ret (RefreshTokenRequest.mk t)
  | None => throw (issues [("refreshToken", false)])
  end.

(** The objects the route handlers hand to the service: the output of
    the handler's own [parse]. *)
Definition LoginRequest_obj (d : LoginRequest.t) : JObj :=
  [("email", JStr (LoginRequest.email d));
   ("password", JStr (LoginRequest.password d))]
  ++ match LoginRequest.timezone d with
     | Some tz => [("timezone", JStr tz)]
     | None => []
     end
  ++ [("rememberMe", JBool (LoginRequest.rememberMe d))].

Definition RegisterRequest_obj (d : RegisterRequest.t) : JObj :=
  [("name", JStr (RegisterRequest.name d));
   ("email", JStr (RegisterRequest.email d));
   ("password", JStr (RegisterRequest.password d));
   ("role", JStr (role_name (RegisterRequest.role d)));
   ("timezone", JStr (RegisterRequest.timezone d))].

Definition RefreshTokenRequest_obj (d : RefreshTokenRequest.t) : JObj :=
  [("refreshToken", JStr (RefreshTokenRequest.refreshToken d))].

End WithLibraries.
End Zod.

(* --------------------------------------------------------------------- *)
(** ** The [users] table and its repository                               *)
(* --------------------------------------------------------------------- *)

(** The [preferences] of the entity schema, with
    [NotificationPreferences] (packages/shared/src/types/user.ts). *)
Module Preferences.
Record QuietHours : Type := mkQuietHours {
  enabled : bool;
  startTime : option string;
  endTime : option string
}.

Record Notifications : Type := mkNotifications {
  email : bool;
  push : bool;
  slack : bool;
  quietHours : option QuietHours
}.

Inductive Theme : Type :=
| light
| dark.

Record t : Type := mk {
  notifications : Notifications;
  theme : Theme;
  language : string
}.

(** What [CreateUserSchema] makes of an input without [preferences]:
    [{}] with the defaults of its properties. *)
Definition default : t :=
  {| notifications := {| email := true; push := true; slack := false;
                         quietHours := None |};
     theme := light;
     language := "en" |}.
End Preferences.

(** A [jsonb] column as [UserEntitySchema] reads it: the value the
    schema parses it to, or the issues, each a path and a message, that
    zod raises on what the column holds. *)
Inductive Jsonb (A : Type) : Type :=
| Parsed (value : A)
| Refused (issues : list string).
Arguments Parsed {A}.
Arguments Refused {A}.

(** A row of [users] (initial schema).  The columns that have a default
    and are never written as [NULL] ([is_active], [email_verified],
    [created_at], [updated_at], the JSON columns) hold a value.
    Timestamps are milliseconds. *)
Module UserEntity.
Record t : Type := mk {
  id : string;
  name : string;
  email : string;
  password_hash : string;
  role : UserRole;
  timezone : string;
  avatar_url : option string;
  bio : option string;
  skills : Jsonb (list string);
  preferences : Jsonb Preferences.t;
  is_active : bool;
  email_verified : bool;
  last_seen : option Z;
  created_at : Z;
  updated_at : Z
}.

(** [SET timezone = tz]; the trigger [update_users_updated_at] stamps
    [updated_at] on every update of a row. *)
Definition with_timezone (tz : string) (now : Z) (u : t) : t :=
  mk (id u) (name u) (email u) (password_hash u) (role u) tz (avatar_url u)
     (bio u) (skills u) (preferences u) (is_active u) (email_verified u)
     (last_seen u) (created_at u) now.

(** [SET last_seen = NOW()], with the same trigger. *)
Definition with_last_seen (now : Z) (u : t) : t :=
  mk (id u) (name u) (email u) (password_hash u) (role u) (timezone u)
     (avatar_url u) (bio u) (skills u) (preferences u) (is_active u)
     (email_verified u) (Some now) (created_at u) now.
End UserEntity.

(** The argument of [userRepository.create] as [AuthService.register]
    builds it. *)
Module CreateUserInput.
Record t : Type := mk {
  name : string;
  email : string;
  password_hash : string;
  role : UserRole;
  timezone : string
}.
End CreateUserInput.

(** Computations that read and write a store of type [Db] and may throw;
    what was written before a throw stays written. *)
Definition M (Db A : Type) : Type := Db -> Result A * Db.

Definition retM {Db A} (a : A) : M Db A := fun db => (inr a, db).
Definition throwM {Db A} (e : JsError) : M Db A := fun db => (inl e, db).
Definition liftM {Db A} (r : Result A) : M Db A := fun db => (r, db).
Definition bindM {Db A B} (m : M Db A) (k : A -> M Db B) : M Db B :=
  fun db =>
    match m db with
    | (inl e, db') => (inl e, db')
    | (inr a, db') => k a db'
    end.

(** [try { body } catch (error) { handler(error) }] around an [await]ing
    body. *)
Definition try_catchM {Db A} (body : M Db A) (handler : JsError -> M Db A)
  : M Db A :=
  fun db =>
    match body db with
    | (inl e, db') => handler e db'
    | (inr a, db') => (inr a, db')
    end.

Notation "'let!' x ':=' m 'in' k" := (bindM m (fun x => k))
  (at level 10, x pattern, m at level 100, k at level 200) : js_scope.

(** The operations of [userRepository] that the service calls; the
    integration tests replace them by mocks. *)
Module UserRepository.
Record t (Db : Type) : Type := mk {
  findByEmail : string -> M Db (option UserEntity.t);
  create : CreateUserInput.t -> M Db UserEntity.t;
  findById : string -> M Db (option UserEntity.t);
  (** [updateById(id, { timezone })] *)
  updateById : string -> string -> M Db (option UserEntity.t);
  updateLastSeen : string -> M Db unit
}.
Arguments findByEmail {Db}.
Arguments create {Db}.
Arguments findById {Db}.
Arguments updateById {Db}.
Arguments updateLastSeen {Db}.
End UserRepository.

(** [UserRepository] and [BaseRepository] over PostgreSQL: the store is the
    list of rows of [users]; [uuid] is what [uuid_generate_v4()] yields for
    the next insertion and [now] is the server's [NOW()].  The [id] column
    holds the canonical text of a UUID, which is how the driver hands it
    out; a parameter compared with it goes through [uuid_in]. *)
Module Pg.
Section WithLibraries.
Context `{Libraries}.

Definition Table : Type := list UserEntity.t.

(** What [executeQuery] throws when PostgreSQL raises [e]. *)
Definition database_error (e : SqlError) : JsError :=
  Error ("Database operation failed: " ++ sqlerrm e)%string.

(** The issues of a row under [UserEntitySchema], in the order of the
    schema.  The other properties are of the column's type: a string, a
    value of the enum [user_role], a boolean, a date. *)
Definition row_issues (row : UserEntity.t) : list string :=
  (if is_uuid (UserEntity.id row) then [] else ["id: Invalid uuid"])
  ++ (if is_email (UserEntity.email row) then [] else ["email: Invalid email"])
  ++ match UserEntity.skills row with
     | Parsed _ => []
     | Refused issues => issues
     end
  ++ match UserEntity.preferences row with
     | Parsed _ => []
     | Refused issues => issues
     end.

Definition row_accepted (row : UserEntity.t) : bool :=
  is_uuid (UserEntity.id row) && is_email (UserEntity.email row)
  && match UserEntity.skills row with Parsed _ => true | Refused _ => false end
  && match UserEntity.preferences row with
     | Parsed _ => true
     | Refused _ => false
     end.

(** [validateData(UserEntitySchema, row)] *)
Definition validate_row (row : UserEntity.t) : Result UserEntity.t :=
  if row_accepted row then ret row
  else throw (Error ("Validation failed: "
                     ++ String.concat ", " (row_issues row))%string).

(** [validateData(CreateUserSchema, data)]; the issues are those of the
    properties that [register] passes. *)
Definition create_issues (d : CreateUserInput.t) : list string :=
  (if Zod.nonempty (CreateUserInput.name d) then []
   else ["name: String must contain at least 1 character(s)"])
  ++ (if Zod.max_length 100 (CreateUserInput.name d) then []
      else ["name: String must contain at most 100 character(s)"])
  ++ (if is_email (CreateUserInput.email d) then []
      else ["email: Invalid email"])
  ++ (if Zod.max_length 254 (CreateUserInput.email d) then []
      else ["email: String must contain at most 254 character(s)"])
  ++ (if Zod.nonempty (CreateUserInput.password_hash d) then []
      else ["password_hash: String must contain at least 1 character(s)"]).

Definition validate_create (d : CreateUserInput.t) : Result CreateUserInput.t :=
  if Zod.nonempty (CreateUserInput.name d)
     && Zod.max_length 100 (CreateUserInput.name d)
     && is_email (CreateUserInput.email d)
     && Zod.max_length 254 (CreateUserInput.email d)
     && Zod.nonempty (CreateUserInput.password_hash d)
  then ret d
  else throw (Error ("Validation failed: "
                     ++ String.concat ", " (create_issues d))%string).

Definition first_row (rows : Table) : Result (option UserEntity.t) :=
  match rows with
  | [] => ret None
  | row :: _ => (let* u := validate_row row in ret (Some u))%js
  end.

(** [SELECT * FROM users WHERE email = $1 AND is_active = true] with
    [$1 = email.toLowerCase()] *)
Definition findByEmail (email : string) : M Table (option UserEntity.t) :=
  fun db =>
    let p := toLowerCase email in
    if pg_text p then
      (first_row
         (List.filter (fun r => String.eqb (UserEntity.email r) p
                                && UserEntity.is_active r) db), db)
    else (throw (database_error (invalid_text p)), db).

(** [WHERE id = $1] *)
Definition has_id (c : string) (r : UserEntity.t) : bool :=
  String.eqb (UserEntity.id r) c.

(** [SELECT * FROM users WHERE id = $1] *)
Definition findById (id : string) : M Table (option UserEntity.t) :=
  fun db =>
    match uuid_in id with
    | Some c => (first_row (List.filter (has_id c) db), db)
    | None => (throw (database_error (invalid_uuid id)), db)
    end.

(** [VARCHAR(n)] *)
Definition fits (n : nat) (s : string) : bool := (char_length s <=? n)%nat.

(** What PostgreSQL raises on the [INSERT] of [create], if anything: a
    parameter that is no legal text, a value longer than its
    [VARCHAR(n)], a duplicate of the primary key or of the [UNIQUE]
    e-mail address. *)
Definition insert_error (uuid : string) (d : CreateUserInput.t) (db : Table)
  : option SqlError :=
  if negb (pg_text (CreateUserInput.name d)) then
    Some (invalid_text (CreateUserInput.name d))
  else if negb (pg_text (CreateUserInput.email d)) then
    Some (invalid_text (CreateUserInput.email d))
  else if negb (pg_text (CreateUserInput.password_hash d)) then
    Some (invalid_text (CreateUserInput.password_hash d))
  else if negb (pg_text (CreateUserInput.timezone d)) then
    Some (invalid_text (CreateUserInput.timezone d))
  else if negb (fits 100 (CreateUserInput.name d)) then
    Some (string_data_right_truncation 100)
  else if negb (fits 254 (CreateUserInput.email d)) then
    Some (string_data_right_truncation 254)
  else if negb (fits 255 (CreateUserInput.password_hash d)) then
    Some (string_data_right_truncation 255)
  else if negb (fits 50 (CreateUserInput.timezone d)) then
    Some (string_data_right_truncation 50)
  else if existsb (has_id uuid) db then Some (unique_violation "users_pkey")
  else if existsb (fun r => String.eqb (UserEntity.email r)
                              (CreateUserInput.email d)) db then
    Some (unique_violation "users_email_key")
  else None.

(** The inserted row, as [RETURNING *] hands it back.  The validated
    input holds [skills: []], the default of [CreateUserSchema], and the
    driver sends a JavaScript array as a PostgreSQL array literal: the
    [jsonb] column receives the text [{}], which is the empty object, and
    the entity schema, which wants an array, refuses it.  The object of
    [preferences] is sent as its JSON text.  The other columns take their
    defaults. *)
Definition new_row (uuid : string) (now : Z) (d : CreateUserInput.t)
  : UserEntity.t :=
  UserEntity.mk uuid (CreateUserInput.name d) (CreateUserInput.email d)
    (CreateUserInput.password_hash d) (CreateUserInput.role d)
    (CreateUserInput.timezone d) None None
    (Refused ["skills: Expected array, received object"])
    (Parsed Preferences.default) true false None now now.

(** [INSERT INTO users (...) VALUES (...) RETURNING *], then
    [validateData(UserEntitySchema, result.rows[0])]: a row that the
    schema refuses has been inserted when [create] throws. *)
Definition create (uuid : string) (now : Z) (data : CreateUserInput.t)
  : M Table UserEntity.t :=
  (let! d := liftM (validate_create data) in
   fun db =>
     match insert_error uuid d db with
     | None => (validate_row (new_row uuid now d), db ++ [new_row uuid now d])
     | Some e => (throw (database_error e), db)
     end)%js.

(** [UPDATE users SET timezone = $2, updated_at = NOW() WHERE id = $1
    RETURNING *]; the new value is cast to [VARCHAR(50)] for each row
    that is updated. *)
Definition updateById (now : Z) (id : string) (tz : string)
  : M Table (option UserEntity.t) :=
  fun db =>
    match uuid_in id with
    | None => (throw (database_error (invalid_uuid id)), db)
    | Some c =>
        if negb (pg_text tz) then (throw (database_error (invalid_text tz)), db)
        else if negb (existsb (has_id c) db) then (ret None, db)
        else if negb (fits 50 tz) then
          (throw (database_error (string_data_right_truncation 50)), db)
        else
          let db' :=
            map (fun r => if has_id c r
                          then UserEntity.with_timezone tz now r else r) db in
          (first_row (List.filter (has_id c) db'), db')
    end.

(** [UPDATE users SET last_seen = NOW() WHERE id = $1 AND is_active =
    true] *)
Definition updateLastSeen (now : Z) (id : string) : M Table unit :=
  fun db =>
    match uuid_in id with
    | None => (throw (database_error (invalid_uuid id)), db)
    | Some c =>
        (ret tt,
         map (fun r => if has_id c r && UserEntity.is_active r
                       then UserEntity.with_last_seen now r else r) db)
    end.

Definition repository (uuid : string) (now : Z) : UserRepository.t Table :=
  UserRepository.mk Table findByEmail (create uuid now) findById
    (updateById now) (updateLastSeen now).

End WithLibraries.
End Pg.

(* --------------------------------------------------------------------- *)
(** ** AuthService.ts                                                     *)
(* --------------------------------------------------------------------- *)

Module AuthTokens.
Record t : Type := mk {
  accessToken : string;
  refreshToken : string;
  expiresIn : Z;
  tokenType : string
}.
End AuthTokens.

Module AuthenticatedUser.
Record t : Type := mk {
  id : string;
  name : string;
  email : string;
  role : UserRole;
  timezone : string;
  isActive : bool;
  emailVerified : bool;
  lastSeen : option Z;
  createdAt : Z
}.
End AuthenticatedUser.

(** The argument of [generateTokens]. *)
Module TokenClaims.
Record t : Type := mk {
  userId : string;
  email : string;
  role : UserRole;
  timezone : string;
  sessionId : string
}.
End TokenClaims.

(** [process.env], as far as the constructor reads it. *)
Module Env.
Record t : Type := mk {
  JWT_SECRET : option string;
  JWT_REFRESH_SECRET : option string;
  JWT_EXPIRES_IN : option string;
  JWT_REFRESH_EXPIRES_IN : option string;
  BCRYPT_ROUNDS : option string
}.
End Env.

Module AuthService.

(** The private fields of the class. *)
Record t : Type := mk {
  JWT_SECRET : string;
  JWT_REFRESH_SECRET : string;
  JWT_EXPIRES_IN : string;
  JWT_REFRESH_EXPIRES_IN : string;
  BCRYPT_ROUNDS : option Z
}.

Definition or_default (v : option string) (d : string) : string :=
  match Js.or v (Some d) with
  | Some s => s
  | None => d
  end.

(** [hasPermission(userRole, requiredRole)] *)
Definition roleHierarchy (r : UserRole) : Z :=
  match r with
  | stakeholder => 1
  | product_manager => 2
  | designer => 3
  | developer => 4
  end.

Definition hasPermission (userRole requiredRole : UserRole) : bool :=
  roleHierarchy userRole >=? roleHierarchy requiredRole.

(** [canAccessResource(userRole, userId, resourceOwnerId, requiredRole?)] *)
Definition canAccessResource (userRole : UserRole) (userId resourceOwnerId : string)
    (requiredRole : option UserRole) : bool :=
  if String.eqb userId resourceOwnerId then true
  else match requiredRole with
       | Some r => hasPermission userRole r
       | None => false
       end.

(** [mapToAuthenticatedUser(user)] *)
Definition mapToAuthenticatedUser (u : UserEntity.t) : AuthenticatedUser.t :=
  AuthenticatedUser.mk (UserEntity.id u) (UserEntity.name u) (UserEntity.email u)
    (UserEntity.role u) (UserEntity.timezone u) (UserEntity.is_active u)
    (UserEntity.email_verified u) (UserEntity.last_seen u)
    (UserEntity.created_at u).

Section WithLibraries.
Context `{Libraries}.

(** [new AuthService()] under environment [env]. *)
Definition constructor (env : Env.t) : Result t :=
  let jwt_secret := Env.JWT_SECRET env in
  let jwt_refresh_secret :=
    Js.or (Env.JWT_REFRESH_SECRET env) (Env.JWT_SECRET env) in
  match jwt_secret, jwt_refresh_secret with
  | Some secret, Some refresh_secret =>
      if negb (Js.truthy jwt_secret) then
        throw (Error "JWT_SECRET environment variable is required")
      else
        ret {| JWT_SECRET := secret;
               JWT_REFRESH_SECRET := refresh_secret;
               JWT_EXPIRES_IN := or_default (Env.JWT_EXPIRES_IN env) "15m";
               JWT_REFRESH_EXPIRES_IN :=
                 or_default (Env.JWT_REFRESH_EXPIRES_IN env) "7d";
               BCRYPT_ROUNDS :=
                 parseInt (or_default (Env.BCRYPT_ROUNDS env) "12") |}
  | _, _ => throw (Error "JWT_SECRET environment variable is required")
  end.

(** The two payload literals of [generateTokens]. *)
Definition accessTokenPayload (payload : TokenClaims.t) : JObj :=
  [("userId", JStr (TokenClaims.userId payload));
   ("email", JStr (TokenClaims.email payload));
   ("role", JStr (role_name (TokenClaims.role payload)));
   ("timezone", JStr (TokenClaims.timezone payload));
   ("sessionId", JStr (TokenClaims.sessionId payload))].

Definition refreshTokenPayload (payload : TokenClaims.t) : JObj :=
  [("userId", JStr (TokenClaims.userId payload));
   ("sessionId", JStr (TokenClaims.sessionId payload));
   ("tokenVersion", JNum 1)].

Variable this : t.

(** [longLived ? '30d' : this.JWT_REFRESH_EXPIRES_IN] *)
Definition refreshTokenExpiry (longLived : bool) : string :=
  if longLived then "30d" else JWT_REFRESH_EXPIRES_IN this.

(** [generateTokens(payload, longLived)] at clock reading [now_ms]. *)
Definition generateTokens (payload : TokenClaims.t) (longLived : bool)
    (now_ms : Z) : Result AuthTokens.t :=
  let now := floor_div now_ms 1000 in
  (let* accessToken :=
     Jwt.sign (accessTokenPayload payload) (JWT_SECRET this)
       (JWT_EXPIRES_IN this) now_ms in
   let* refreshToken :=
     Jwt.sign (refreshTokenPayload payload) (JWT_REFRESH_SECRET this)
       (refreshTokenExpiry longLived) now_ms in
   match Jwt.decode accessToken with
   | Some accessTokenDecoded =>
       match get "exp" accessTokenDecoded with
       | Some (JNum exp) =>
           ret (AuthTokens.mk accessToken refreshToken (exp - now) "Bearer")
       | _ => throw (Error "TypeError")
       end
   | None => throw (Error "TypeError")
   end)%js.

(** [verifyAccessToken(token)] at clock reading [now]. *)
Definition verifyAccessToken (token : string) (now : Z) : Result JWTPayload.t :=
  try_catch
    (let* payload := Jwt.verify token (JWT_SECRET this) now in
     Zod.JWTPayloadSchema_parse payload)%js
    (fun error => throw (Error "Invalid access token")).

(** The verification step of [refreshToken] on the token string:
    [jwt.verify] under the refresh secret, then
    [RefreshTokenPayloadSchema.parse]. *)
Definition verifyRefresh (token : string) (now : Z)
  : Result RefreshTokenPayload.t :=
  (let* payload := Jwt.verify token (JWT_REFRESH_SECRET this) now in
   Zod.RefreshTokenPayloadSchema_parse payload)%js.

Section WithRepository.
Context {Db : Type} (userRepository : UserRepository.t Db).

(** [register(userData)] at clock reading [now]; [salt] is the salt
    [bcrypt.hash] draws and [sessionId] the value of
    [generateSessionId()]. *)
Definition register (userData : JObj) (now : Z) (salt sessionId : string)
  : M Db (AuthenticatedUser.t * AuthTokens.t) :=
  try_catchM
    (let! validatedData := liftM (Zod.RegisterRequestSchema_parse userData) in
     let! existingUser :=
       UserRepository.findByEmail userRepository
         (RegisterRequest.email validatedData) in
     match existingUser with
     | Some _ => throwM (Error "Email already registered")
     | None =>
         let! passwordHash :=
           liftM (bcrypt_hash (RegisterRequest.password validatedData)
                    (BCRYPT_ROUNDS this) salt) in
         let! newUser :=
           UserRepository.create userRepository
             (CreateUserInput.mk (RegisterRequest.name validatedData)
                (toLowerCase (RegisterRequest.email validatedData))
                passwordHash (RegisterRequest.role validatedData)
                (RegisterRequest.timezone validatedData)) in
         let! tokens :=
           liftM (generateTokens
                    (TokenClaims.mk (UserEntity.id newUser)
                       (UserEntity.email newUser) (UserEntity.role newUser)
                       (UserEntity.timezone newUser) sessionId)
                    false now) in
         let! _ :=
           UserRepository.updateLastSeen userRepository (UserEntity.id newUser) in
         retM (mapToAuthenticatedUser newUser, tokens)
     end)%js
    (fun error => throwM error).

(** [login(loginData)] at clock reading [now]; [sessionId] is the
    value of [generateSessionId()]. *)
Definition login (loginData : JObj) (now : Z) (sessionId : string)
  : M Db (AuthenticatedUser.t * AuthTokens.t) :=
  try_catchM
    (let! validatedData := liftM (Zod.LoginRequestSchema_parse loginData) in
     let! found :=
       UserRepository.findByEmail userRepository
         (LoginRequest.email validatedData) in
     match found with
     | None => throwM (Error "Invalid email or password")
     | Some user =>
         if negb (UserEntity.is_active user) then
           throwM (Error "Account is deactivated")
         else if negb (bcrypt_compare (LoginRequest.password validatedData)
                         (UserEntity.password_hash user)) then
           throwM (Error "Invalid email or password")
         else
           let! user :=
             match LoginRequest.timezone validatedData with
             | Some tz =>
                 if negb (String.eqb tz "")
                    && negb (String.eqb tz (UserEntity.timezone user)) then
                   let! _ :=
                     UserRepository.updateById userRepository
                       (UserEntity.id user) tz in
                   retM (UserEntity.with_timezone tz
                           (UserEntity.updated_at user) user)
                 else retM user
             | None => retM user
             end in
           let! tokens :=
             liftM (generateTokens
                      (TokenClaims.mk (UserEntity.id user)
                         (UserEntity.email user) (UserEntity.role user)
                         (UserEntity.timezone user) sessionId)
                      (LoginRequest.rememberMe validatedData) now) in
           let! _ :=
             UserRepository.updateLastSeen userRepository (UserEntity.id user) in
           retM (mapToAuthenticatedUser user, tokens)
     end)%js
    (fun error => throwM error).

(** [refreshToken(refreshTokenData)] at clock reading [now]. *)
Definition refreshToken (refreshTokenData : JObj) (now : Z)
  : M Db AuthTokens.t :=
  try_catchM
    (let! validatedData :=
       liftM (Zod.RefreshTokenRequestSchema_parse refreshTokenData) in
     let! validatedPayload :=
       liftM (verifyRefresh (RefreshTokenRequest.refreshToken validatedData)
                now) in
     let! found :=
       UserRepository.findById userRepository
         (RefreshTokenPayload.userId validatedPayload) in
     match found with
     | None => throwM (Error "Invalid refresh token")
     | Some user =>
         if negb (UserEntity.is_active user) then
           throwM (Error "Invalid refresh token")
         else
           let! tokens :=
             liftM (generateTokens
                      (TokenClaims.mk (UserEntity.id user)
                         (UserEntity.email user) (UserEntity.role user)
                         (UserEntity.timezone user)
                         (RefreshTokenPayload.sessionId validatedPayload))
                      false now) in
           let! _ :=
             UserRepository.updateLastSeen userRepository (UserEntity.id user) in
           retM tokens
     end)%js
    (fun error => throwM (Error "Invalid refresh token")).

End WithRepository.
End WithLibraries.
End AuthService.

(* --------------------------------------------------------------------- *)
(** ** [extractToken] and [authenticate] (middleware/auth.ts)             *)
(* --------------------------------------------------------------------- *)

Module Middleware.

(** [extractToken(req)]; [None] is [null]. *)
Definition extractToken (req : Request) : option string :=
  match authorization req with
  | None => None
  | Some authHeader =>
      if String.eqb authHeader "" then None
      else if startsWith "Bearer " authHeader then
        Some (substring_from 7 authHeader)
      else Some authHeader
  end.

Definition missing_token (now : Z) : ErrorBody :=
  {| code := "MISSING_TOKEN";
     message := "Authentication token is required";
     timestamp := now;
     retryAfter := None |}.

Definition invalid_token (now : Z) : ErrorBody :=
  {| code := "INVALID_TOKEN";
     message := "Invalid or expired authentication token";
     timestamp := now;
     retryAfter := None |}.

Definition with_user (req : Request) (payload : JWTPayload.t) : Request :=
  {| authorization := authorization req;
     ip := ip req;
     remoteAddress := remoteAddress req;
     user := Some {| ru_id := JWTPayload.userId payload;
                     ru_email := JWTPayload.email payload;
                     ru_role := JWTPayload.role payload;
                     ru_timezone := JWTPayload.timezone payload;
                     ru_sessionId := JWTPayload.sessionId payload |} |}.

Section WithService.
Context `{Libraries} (authService : AuthService.t).

(** [authenticate(req, res, next)] at clock reading [now]. *)
Definition authenticate (req : Request) (now : Z) : Outcome :=
  match extractToken req with
  | None => Respond 401 (missing_token now)
  | Some token =>
      if String.eqb token "" then Respond 401 (missing_token now)
      else
        match AuthService.verifyAccessToken authService token now with
        | inr payload => Next (with_user req payload)
        | inl error => Respond 401 (invalid_token now)
        end
  end.

End WithService.
End Middleware.

(* --------------------------------------------------------------------- *)
(** ** The handlers of routes/auth.ts                                     *)
(* --------------------------------------------------------------------- *)

Module Routes.

(** The JSON bodies the router sends.  An error body is
    [{ error: { code, message, timestamp, details?, ...more } }], where
    [more] holds what a middleware adds. *)
Inductive Body : Type :=
| ErrorJson (error : ErrorBody) (details : option (list string)) (more : JObj)
| AuthJson (message : string) (user : AuthenticatedUser.t)
    (tokens : AuthTokens.t) (timestamp : Z)
| TokensJson (message : string) (tokens : AuthTokens.t) (timestamp : Z)
| MessageJson (message : string) (timestamp : Z).

Record Response : Type := mkResponse {
  status : Z;
  body : Body
}.

Definition error_response (status : Z) (code message : string) (now : Z)
    (details : option (list string)) : Response :=
  {| status := status;
     body := ErrorJson {| code := code; message := message; timestamp := now;
                          retryAfter := None |} details [] |}.

(** [error.errors.map(err => ({ field, message }))], by field path. *)
Definition zod_details (e : JsError) : option (list string) :=
  match e with
  | ZodError issues => Some issues
  | _ => None
  end.

Section WithService.
Context `{Libraries} {Db : Type}
        (authService : AuthService.t) (userRepository : UserRepository.t Db).

(** The [catch] block of [POST /register]. *)
Definition register_error (error : JsError) (now : Z) : Response :=
  if is_ZodError error then
    error_response 400 "VALIDATION_ERROR" "Invalid registration data" now
      (zod_details error)
  else if instanceof_Error error
          && String.eqb (Js.message error) "Email already registered" then
    error_response 409 "EMAIL_EXISTS"
      "An account with this email already exists" now None
  else
    error_response 500 "REGISTRATION_FAILED" "Failed to register user" now None.

(** The handler of [POST /register] on request body [body]. *)
Definition register_handler (body : JObj) (now : Z) (salt sessionId : string)
  : Db -> Response * Db :=
  fun db =>
    match Zod.RegisterRequestSchema_parse body with
    | inl error => (register_error error now, db)
    | inr userData =>
        match AuthService.register authService userRepository
                (Zod.RegisterRequest_obj userData) now salt sessionId db with
        | (inr (user, tokens), db') =>
            ({| status := 201;
                body := AuthJson "User registered successfully" user tokens now |},
             db')
        | (inl error, db') => (register_error error now, db')
        end
    end.

(** The [catch] block of [POST /login]. *)
Definition login_error (error : JsError) (now : Z) : Response :=
  if is_ZodError error then
    error_response 400 "VALIDATION_ERROR" "Invalid login data" now
      (zod_details error)
  else if instanceof_Error error
          && (includes "Invalid email or password" (Js.message error)
              || includes "Account is deactivated" (Js.message error)) then
    error_response 401 "AUTHENTICATION_FAILED" "Invalid email or password"
      now None
  else
    error_response 500 "LOGIN_FAILED" "Failed to authenticate user" now None.

(** The handler of [POST /login] on request body [body]. *)
Definition login_handler (body : JObj) (now : Z) (sessionId : string)
  : Db -> Response * Db :=
  fun db =>
    match Zod.LoginRequestSchema_parse body with
    | inl error => (login_error error now, db)
    | inr loginData =>
        match AuthService.login authService userRepository
                (Zod.LoginRequest_obj loginData) now sessionId db with
        | (inr (user, tokens), db') =>
            ({| status := 200;
                body := AuthJson "Login successful" user tokens now |}, db')
        | (inl error, db') => (login_error error now, db')
        end
    end.

(** The [catch] block of [POST /refresh]. *)
Definition refresh_error (error : JsError) (now : Z) : Response :=
  if is_ZodError error then
    error_response 400 "VALIDATION_ERROR" "Invalid refresh token data" now None
  else
    error_response 401 "INVALID_REFRESH_TOKEN"
      "Invalid or expired refresh token" now None.

(** The handler of [POST /refresh] on request body [body]. *)
Definition refresh_handler (body : JObj) (now : Z) : Db -> Response * Db :=
  fun db =>
    match Zod.RefreshTokenRequestSchema_parse body with
    | inl error => (refresh_error error now, db)
    | inr refreshData =>
        match AuthService.refreshToken authService userRepository
                (Zod.RefreshTokenRequest_obj refreshData) now db with
        | (inr tokens, db') =>
            ({| status := 200;
                body := TokensJson "Token refreshed successfully" tokens now |},
             db')
        | (inl error, db') => (refresh_error error now, db')
        end
    end.

End WithService.
End Routes.

(* --------------------------------------------------------------------- *)
(** ** The other middleware of middleware/auth.ts                         *)
(* --------------------------------------------------------------------- *)

Module Guards.

(** What an authorization middleware does with a request: [next()], or
    [res.status(status).json({ error: { ...body, ...more } })], where
    [more] holds the properties a response adds to code, message and
    timestamp. *)
Inductive Reply : Type :=
| Pass (req : Request)
| Fail (status : Z) (body : ErrorBody) (more : JObj).

Definition of_outcome (o : Outcome) : Reply :=
  match o with
  | Next req => Pass req
  | Respond status body => Fail status body []
  end.

(** A middleware placed behind [authenticate] in a route's stack. *)
Definition and_then (o : Outcome) (k : Request -> Reply) : Reply :=
  match o with
  | Next req => k req
  | Respond status body => Fail status body []
  end.

Definition error_body (code message : string) (now : Z) : ErrorBody :=
  {| code := code; message := message; timestamp := now; retryAfter := None |}.

Section WithService.
Context `{Libraries} (authService : AuthService.t).

(** [optionalAuthenticate(req, res, next)] at clock reading [now]. *)
Definition optionalAuthenticate (req : Request) (now : Z) : Reply :=
  match Middleware.extractToken req with
  | Some token =>
      if negb (String.eqb token "") then
        match AuthService.verifyAccessToken authService token now with
        | inr payload => Pass (Middleware.with_user req payload)
        | inl error => Pass req
        end
      else Pass req
  | None => Pass req
  end.

End WithService.

(** The middleware returned by [requireRole(requiredRole)]. *)
Definition requireRole (requiredRole : UserRole) (req : Request) (now : Z)
  : Reply :=
  match user req with
  | None =>
      Fail 401
        (error_body "AUTHENTICATION_REQUIRED"
           "Authentication is required for this endpoint" now) []
  | Some u =>
      let hasPermission := AuthService.hasPermission (ru_role u) requiredRole in
      if negb hasPermission then
        Fail 403
          (error_body "INSUFFICIENT_PERMISSIONS"
             ("This action requires " ++ role_name requiredRole
              ++ " role or higher")%string now)
          [("userRole", JStr (role_name (ru_role u)));
           ("requiredRole", JStr (role_name requiredRole))]
      else Pass req
  end.

(** The middleware returned by
    [requireOwnershipOrRole(getResourceOwnerId, fallbackRole)];
    [getResourceOwnerId] may throw. *)
Definition requireOwnershipOrRole
    (getResourceOwnerId : Request -> Result string)
    (fallbackRole : option UserRole) (req : Request) (now : Z) : Reply :=
  match user req with
  | None =>
      Fail 401
        (error_body "AUTHENTICATION_REQUIRED"
           "Authentication is required for this endpoint" now) []
  | Some u =>
      match getResourceOwnerId req with
      | inr resourceOwnerId =>
          let canAccess :=
            AuthService.canAccessResource (ru_role u) (ru_id u) resourceOwnerId
              fallbackRole in
          if negb canAccess then
            Fail 403
              (error_body "RESOURCE_ACCESS_DENIED"
                 "You do not have permission to access this resource" now) []
          else Pass req
      | inl error =>
          Fail 500
            (error_body "AUTHORIZATION_ERROR"
               "Failed to verify resource access permissions" now) []
      end
  end.

Section WithLibraries.
Context `{Libraries}.

(** [req.body.timezone || req.query.timezone], for a query string that
    holds at most one [timezone]. *)
Definition requested_timezone (body : JObj) (query_timezone : option string)
  : option JVal :=
  match get "timezone" body with
  | Some v => if truthy_value v then Some v else JStr <$> query_timezone
  | None => JStr <$> query_timezone
  end.

(** [validateTimezone(req, res, next)] at clock reading [now], on
    [req.body] and the [timezone] of [req.query]. *)
Definition validateTimezone (req : Request) (body : JObj)
    (query_timezone : option string) (now : Z) : Reply :=
  match requested_timezone body query_timezone with
  | Some timezone =>
      if truthy_value timezone && negb (timeZone_supported timezone) then
        Fail 400
          (error_body "INVALID_TIMEZONE" "Invalid timezone identifier" now)
          [("providedTimezone", timezone)]
      else Pass req
  | None => Pass req
  end.

End WithLibraries.

Section WithRepository.
Context {Db : Type} (userRepository : UserRepository.t Db).

(** [validateSession(req, res, next)] at clock reading [now]. *)
Definition validateSession (req : Request) (now : Z) : Db -> Reply * Db :=
  match user req with
  | None => fun db => (Pass req, db)
  | Some u =>
      fun db =>
        match
          (let! found := UserRepository.findById userRepository (ru_id u) in
           match found with
           | None =>
               retM (Fail 401
                       (error_body "INVALID_SESSION"
                          "Session is no longer valid" now) [])
           | Some user =>
               if negb (UserEntity.is_active user) then
                 retM (Fail 401
                         (error_body "INVALID_SESSION"
                            "Session is no longer valid" now) [])
               else
                 let! _ :=
                   UserRepository.updateLastSeen userRepository
                     (UserEntity.id user) in
                 retM (Pass req)
           end)%js db
        with
        | (inr reply, db') => (reply, db')
        | (inl error, db') =>
            (Fail 500
               (error_body "SESSION_VALIDATION_ERROR"
                  "Failed to validate session" now) [], db')
        end
  end.

End WithRepository.

Section Protected.
Context `{Libraries} {Db : Type}
        (authService : AuthService.t) (userRepository : UserRepository.t Db).

(** The stack [authenticate, validateSession] in front of the handlers of
    [/logout], [/me], [/profile], [/availability] and [/sessions]. *)
Definition protected (req : Request) (now : Z) : Db -> Reply * Db :=
  fun db =>
    match Middleware.authenticate authService req now with
    | Next req' => validateSession userRepository req' now db
    | Respond status body => (Fail status body [], db)
    end.

End Protected.

End Guards.

(* --------------------------------------------------------------------- *)
(** ** The router of routes/auth.ts                                       *)
(* --------------------------------------------------------------------- *)

(** The routes as Express runs them: the limiter that
    [router.use(authRateLimit(5, 15 * 60 * 1000))] puts in front of every
    route, then the middleware of the route, then its handler.  The state
    is the [attempts] map of that one limiter and the store; [tick] is the
    clock reading of the limiter and [now] that of what follows it. *)
Module Router.
Import Routes Guards RateLimit.

Definition middleware_response (status : Z) (body : ErrorBody) (more : JObj)
  : Response :=
  {| status := status; body := ErrorJson body None more |}.

Section WithService.
Context `{Libraries} {Db : Type}
        (authService : AuthService.t) (userRepository : UserRepository.t Db).

Definition State : Type := gmap string Entry * Db.

Definition limited (req : Request) (tick : Z) (route : Db -> Response * Db)
  : State -> Response * State :=
  fun st =>
    match authRateLimit 5 (15 * 60 * 1000) req tick st.1 with
    | (attempts, Next _) =>
        let out := route st.2 in (out.1, (attempts, out.2))
    | (attempts, Respond status body) =>
        (middleware_response status body [], (attempts, st.2))
    end.

(** [router.post('/register', validateTimezone, handler)] *)
Definition post_register (req : Request) (body : JObj)
    (query_timezone : option string) (tick now : Z) (salt sessionId : string)
  : State -> Response * State :=
  limited req tick
    (fun db =>
       match validateTimezone req body query_timezone now with
       | Pass _ =>
           register_handler authService userRepository body now salt sessionId db
       | Fail status error more => (middleware_response status error more, db)
       end).

(** [router.post('/login', validateTimezone, handler)] *)
Definition post_login (req : Request) (body : JObj)
    (query_timezone : option string) (tick now : Z) (sessionId : string)
  : State -> Response * State :=
  limited req tick
    (fun db =>
       match validateTimezone req body query_timezone now with
       | Pass _ => login_handler authService userRepository body now sessionId db
       | Fail status error more => (middleware_response status error more, db)
       end).

(** [router.post('/refresh', handler)] *)
Definition post_refresh (req : Request) (body : JObj) (tick now : Z)
  : State -> Response * State :=
  limited req tick (refresh_handler authService userRepository body now).

(** [router.post('/logout', authenticate, validateSession, handler)]:
    the handler sends its message and does nothing else. *)
Definition post_logout (req : Request) (tick now : Z)
  : State -> Response * State :=
  limited req tick
    (fun db =>
       match protected authService userRepository req now db with
       | (Pass _, db') =>
           ({| status := 200; body := MessageJson "Logout successful" now |},
            db')
       | (Fail status error more, db') =>
           (middleware_response status error more, db')
       end).

End WithService.
End Router.

(* --------------------------------------------------------------------- *)
(** ** More of UserRepository.ts over the [users] table                   *)
(* --------------------------------------------------------------------- *)

(** [emailExists], [deactivateUser] and [reactivateUser]. *)
Module PgUsers.

(** [SET is_active = b, updated_at = NOW()] *)
Definition with_is_active (b : bool) (now : Z) (u : UserEntity.t)
  : UserEntity.t :=
  UserEntity.mk (UserEntity.id u) (UserEntity.name u) (UserEntity.email u)
    (UserEntity.password_hash u) (UserEntity.role u) (UserEntity.timezone u)
    (UserEntity.avatar_url u) (UserEntity.bio u) (UserEntity.skills u)
    (UserEntity.preferences u) b (UserEntity.email_verified u)
    (UserEntity.last_seen u) (UserEntity.created_at u) now.

Section WithLibraries.
Context `{Libraries}.

(** [SELECT 1 FROM users WHERE email = $1], with [AND id != $2] when
    [excludeUserId] is given and not empty; [$1 = email.toLowerCase()].
    PostgreSQL raises when [$1] is no legal text or [$2] is not of UUID
    syntax. *)
Definition emailExists (email : string) (excludeUserId : option string)
  : M Pg.Table bool :=
  fun db =>
    let p := toLowerCase email in
    let holds r := String.eqb (UserEntity.email r) p in
    if negb (pg_text p) then (throw (Pg.database_error (invalid_text p)), db)
    else
      match excludeUserId with
      | Some id =>
          if String.eqb id "" then
            (ret (0 <? length (List.filter holds db))%nat, db)
          else
            match uuid_in id with
            | Some c =>
                (ret (0 <? length
                             (List.filter
                                (fun r => holds r && negb (Pg.has_id c r)) db))%nat,
                 db)
            | None => (throw (Pg.database_error (invalid_uuid id)), db)
            end
      | None => (ret (0 <? length (List.filter holds db))%nat, db)
      end.

End WithLibraries.

(** [UPDATE users SET is_active = false, updated_at = NOW()
     WHERE id = $1 AND is_active = true RETURNING id], for the [id] of a
    row. *)
Definition deactivateUser (now : Z) (userId : string) : M Pg.Table bool :=
  fun db =>
    let hit r := String.eqb (UserEntity.id r) userId && UserEntity.is_active r in
    (ret (0 <? length (List.filter hit db))%nat,
     map (fun r => if hit r then with_is_active false now r else r) db).

(** [UPDATE users SET is_active = true, updated_at = NOW()
     WHERE id = $1 AND is_active = false RETURNING id], for the [id] of a
    row. *)
Definition reactivateUser (now : Z) (userId : string) : M Pg.Table bool :=
  fun db =>
    let hit r :=
      String.eqb (UserEntity.id r) userId && negb (UserEntity.is_active r) in
    (ret (0 <? length (List.filter hit db))%nat,
     map (fun r => if hit r then with_is_active true now r else r) db).

End PgUsers.

(* --------------------------------------------------------------------- *)
(** ** The query builders of BaseRepository.ts                            *)
(* --------------------------------------------------------------------- *)

Module BaseRepository.

(** A value of the [filters] record: [undefined], an array or any other
    value ([null] is [Value JNull]). *)
Inductive Filter : Type :=
| Undefined
| Value (v : JVal)
| Array (items : list JVal).

(** [`$${paramIndex}`] *)
Definition placeholder (paramIndex : Z) : string :=
  ("$" ++ NilZero.string_of_int (Z.to_int paramIndex))%string.

(** [typeof value === 'string' && value.includes('%')] *)
Definition is_pattern (v : JVal) : bool :=
  match v with
  | JStr s => includes "%" s
  | _ => false
  end.

(** The variables of the loop of [buildWhereClause]. *)
Record Clauses : Type := mkClauses {
  conditions : list string;
  params : list JVal;
  paramIndex : Z
}.

(** [value.map(() => `$${paramIndex++}`)] *)
Fixpoint placeholders (items : list JVal) (paramIndex : Z) : list string :=
  match items with
  | [] => []
  | _ :: items' => placeholder paramIndex :: placeholders items' (paramIndex + 1)
  end.

(** One turn of the loop over [Object.entries(filters)]. *)
Definition add_filter (st : Clauses) (entry : string * Filter) : Clauses :=
  let (key, value) := entry in
  match value with
  | Undefined => st
  | Value JNull => st
  | Array items =>
      {| conditions :=
           conditions st
           ++ [(key ++ " = ANY(ARRAY["
                ++ String.concat ", " (placeholders items (paramIndex st))
                ++ "])")%string];
         params := params st ++ items;
         paramIndex := paramIndex st + Z.of_nat (length items) |}
  | Value v =>
      if is_pattern v then
        {| conditions :=
             conditions st
             ++ [(key ++ " ILIKE " ++ placeholder (paramIndex st))%string];
           params := params st ++ [v];
           paramIndex := paramIndex st + 1 |}
      else
        {| conditions :=
             conditions st
             ++ [(key ++ " = " ++ placeholder (paramIndex st))%string];
           params := params st ++ [v];
           paramIndex := paramIndex st + 1 |}
  end.

(** What [buildWhereClause] returns. *)
Record Where : Type := mkWhere {
  whereClause : string;
  where_params : list JVal;
  nextParamIndex : Z
}.

(** [buildWhereClause(filters, startParamIndex)]; [filters] is the list
    [Object.entries(filters)]. *)
Definition buildWhereClause (filters : list (string * Filter))
    (startParamIndex : Z) : Where :=
  let st := fold_left add_filter filters (mkClauses [] [] startParamIndex) in
  {| whereClause :=
       if (0 <? length (conditions st))%nat
       then ("WHERE " ++ String.concat " AND " (conditions st))%string
       else "";
     where_params := params st;
     nextParamIndex := paramIndex st |}.

(** ['ASC' | 'DESC'] *)
Inductive SortOrder : Type := ASC | DESC.

Definition order_name (o : SortOrder) : string :=
  match o with ASC => "ASC" | DESC => "DESC" end.

(** [allowedSortFields.includes(sortBy)] *)
Definition includes_field (fields : list string) (sortBy : string) : bool :=
  existsb (String.eqb sortBy) fields.

Definition default_allowedSortFields : list string :=
  ["created_at"; "updated_at"].

(** [buildOrderClause(sortBy, sortOrder, allowedSortFields)]; an
    undefined [sortOrder] is replaced by ['DESC']. *)
Definition buildOrderClause (sortBy : option string)
    (sortOrder : option SortOrder) (allowedSortFields : list string) : string :=
  let sortOrder := match sortOrder with Some o => o | None => DESC end in
  match sortBy with
  | Some field =>
      if String.eqb field "" || negb (includes_field allowedSortFields field)
      then "ORDER BY created_at DESC"
      else ("ORDER BY " ++ field ++ " " ++ order_name sortOrder)%string
  | None => "ORDER BY created_at DESC"
  end.

(** [PaginationOptions] *)
Record PaginationOptions : Type := mkPaginationOptions {
  page : Z;
  limit : Z;
  sortBy : option string;
  sortOrder : option SortOrder
}.

(** The [pagination] member of [PaginatedResult]. *)
Record PaginationMeta : Type := mkPaginationMeta {
  meta_page : Z;
  meta_limit : Z;
  total : Z;
  totalPages : Z;
  hasNext : bool;
  hasPrev : bool
}.

(** The metadata [findMany] computes from the options, the row count
    [count] and the number of rows read; [limit] is positive. *)
Definition paginationMeta (pagination : option PaginationOptions)
    (count : Z) (data_length : Z) : PaginationMeta :=
  match pagination with
  | Some p =>
      {| meta_page := page p;
         meta_limit := limit p;
         total := count;
         totalPages := ceil_div count (limit p);
         hasNext := page p * limit p <? count;
         hasPrev := page p >? 1 |}
  | None =>
      {| meta_page := 1;
         meta_limit := data_length;
         total := count;
         totalPages := 1;
         hasNext := false;
         hasPrev := false |}
  end.

(** The text and the parameters of the main query of
    [findMany(filters, pagination)] on table [tableName]. *)
Definition findMany_query (tableName : string) (filters : list (string * Filter))
    (pagination : option PaginationOptions) : string * list JVal :=
  let w := buildWhereClause filters 1 in
  let query := ("SELECT * FROM " ++ tableName ++ " " ++ whereClause w)%string in
  match pagination with
  | Some p =>
      let orderClause :=
        buildOrderClause (sortBy p) (sortOrder p) default_allowedSortFields in
      let offset := (page p - 1) * limit p in
      let n := Z.of_nat (length (where_params w)) in
      ((query ++ " " ++ orderClause
        ++ " LIMIT " ++ placeholder (n + 1) ++ " OFFSET " ++ placeholder (n + 2))%string,
       where_params w ++ [JNum (limit p); JNum offset])
  | None => (query, where_params w)
  end.

End BaseRepository.


(* --------------------------------------------------------------------- *)
(** ** UserService.ts: availability and the listing of users             *)
(* --------------------------------------------------------------------- *)

Module UserService.

(** [AvailabilityWindow] (packages/shared/src/types/user.ts) *)
Record AvailabilityWindow : Type := mkAvailabilityWindow {
  dayOfWeek : Z;
  startTime : string;
  endTime : string
}.

Definition is_digit_upto (hi : N) (c : ascii) : bool :=
  ((48 <=? N_of_ascii c) && (N_of_ascii c <=? hi))%N.

(** [/^([0-1]?[0-9]|2[0-3]):[0-5][0-9]$/], the pattern of [startTime] and
    [endTime]. *)
Definition is_time (s : string) : bool :=
  match s with
  | String h (String c1 (String m1 (String m2 EmptyString))) =>
      is_digit_upto 57 h && Ascii.eqb c1 ":"
      && is_digit_upto 53 m1 && is_digit_upto 57 m2
  | String h1 (String h2 (String c1 (String m1 (String m2 EmptyString)))) =>
      ((is_digit_upto 49 h1 && is_digit_upto 57 h2)
       || (Ascii.eqb h1 "2" && is_digit_upto 51 h2))
      && Ascii.eqb c1 ":" && is_digit_upto 53 m1 && is_digit_upto 57 m2
  | _ => false
  end.

(** The test [getAvailableNow] applies to the windows of a user;
    [dayOfWeek] is [now.getDay()] and [currentTime] is
    [now.toTimeString().substring(0, 5)].  The comparisons are those of
    strings. *)
Definition isAvailableNow (availability : list AvailabilityWindow)
    (dayOfWeek : Z) (currentTime : string) : bool :=
  existsb
    (fun window =>
       (UserService.dayOfWeek window =? dayOfWeek)
       && String.leb (startTime window) currentTime
       && String.leb currentTime (endTime window))
    availability.

(** The options with which [searchUsers] calls [findMany] when the
    search has neither a query nor a role, a time zone or the online
    flag; [offset] and [limit] are the validated parameters,
    [Math.floor] of their quotient the division of [Z]. *)
Definition searchUsers_pagination (offset limit : Z)
    : BaseRepository.PaginationOptions :=
  {| BaseRepository.page := offset / limit + 1;
     BaseRepository.limit := limit + 1;
     BaseRepository.sortBy := Some "name";
     BaseRepository.sortOrder := Some BaseRepository.ASC |}.

(** The main query of that call, on the table of [UserRepository]. *)
Definition searchUsers_query (offset limit : Z) : string * list JVal :=
  BaseRepository.findMany_query "users"
    [("is_active", BaseRepository.Value (JBool true))]
    (Some (searchUsers_pagination offset limit)).

End UserService.

(* --------------------------------------------------------------------- *)
(** ** A reference implementation of the libraries                        *)
(* --------------------------------------------------------------------- *)

(** Concrete stand-ins for the library operations, on which the service can
    be run: binary numerals serialize tokens and tags, so that parsing
    inverts serializing and distinct (key, payload) pairs have distinct
    tags. *)
Module Reference.

Definition JVal_to_sum (v : JVal) : string + Z + bool + unit :=
  match v with
  | JStr s => inl (inl (inl s))
  | JNum n => inl (inl (inr n))
  | JBool b => inl (inr b)
  | JNull => inr tt
  end.

Definition JVal_of_sum (x : string + Z + bool + unit) : JVal :=
  match x with
  | inl (inl (inl s)) => JStr s
  | inl (inl (inr n)) => JNum n
  | inl (inr b) => JBool b
  | inr _ => JNull
  end.

#[export] Instance JVal_eq_dec : EqDecision JVal.
Proof. solve_decision. Defined.

#[export] Instance JVal_countable : Countable JVal.
Proof.
  apply (inj_countable' JVal_to_sum JVal_of_sum). by intros [].
Defined.

Fixpoint bits_of (p : positive) : string :=
  match p with
  | xH => EmptyString
  | xO q => String "0" (bits_of q)
  | xI q => String "1" (bits_of q)
  end.

Fixpoint of_bits (s : string) : option positive :=
  match s with
  | EmptyString => Some xH
  | String c s' =>
      if Ascii.eqb c "0" then xO <$> of_bits s'
      else if Ascii.eqb c "1" then xI <$> of_bits s'
      else None
  end.

Definition serialize {A} `{Countable A} (a : A) : string :=
  String "J" (bits_of (encode a)).

Definition parse {A} `{Countable A} (s : string) : option A :=
  match s with
  | String c s' =>
      if Ascii.eqb c "J" then
        match of_bits s' with
        | Some p => decode p
        | None => None
        end
      else None
  | EmptyString => None
  end.

(** Time spans: the ones that occur in the service, an hour, and a zero
    span. *)
Definition ms (span : string) : option Z :=
  if String.eqb span "15m" then Some (15 * 60 * 1000)
  else if String.eqb span "7d" then Some (7 * 24 * 60 * 60 * 1000)
  else if String.eqb span "30d" then Some (30 * 24 * 60 * 60 * 1000)
  else if String.eqb span "1h" then Some (60 * 60 * 1000)
  else if String.eqb span "0s" then Some 0
  else None.

Definition parseInt (s : string) : option Z :=
  if String.eqb s "12" then Some 12
  else if String.eqb s "10" then Some 10
  else None.

Definition is_email (s : string) : bool :=
  includes "@" s && negb (startsWith "@" s).

Definition is_uuid (s : string) : bool :=
  (String.length s =? 36)%nat.

Fixpoint ends_with (suffix s : string) : bool :=
  String.eqb suffix s
  || match s with
     | EmptyString => false
     | String _ s' => ends_with suffix s'
     end.

(** A transparent stand-in for the digest: version tag, salt, password. *)
Definition bcrypt_hash (password : string) (rounds : option Z) (salt : string)
  : Result string :=
  match rounds with
  | Some _ => ret (String.append "$2b$" (String.append salt (String "$" password)))
  | None => throw (Error "Illegal arguments")
  end.

Definition bcrypt_compare (password hash : string) : bool :=
  startsWith "$2b$" hash && ends_with (String "$" password) hash.

(** [toLowerCase] on ASCII letters. *)
Definition lower_ascii (c : ascii) : ascii :=
  let n := nat_of_ascii c in
  if ((65 <=? n)%nat && (n <=? 90)%nat)%bool then ascii_of_nat (n + 32) else c.

Fixpoint toLowerCase (s : string) : string :=
  match s with
  | EmptyString => EmptyString
  | String c s' => String (lower_ascii c) (toLowerCase s')
  end.

(** The time zones of the examples. *)
Definition timeZone_supported (v : JVal) : bool :=
  match v with
  | JStr s =>
      String.eqb s "UTC" || String.eqb s "Europe/Vienna"
      || String.eqb s "America/New_York"
  | _ => false
  end.

(** A UUID in its canonical text is its own canonical text. *)
Definition uuid_in (s : string) : option string :=
  if is_uuid s then Some s else None.

Definition sqlerrm (e : SqlError) : string :=
  match e with
  | unique_violation constraint =>
      String.append "duplicate key value violates unique constraint " constraint
  | string_data_right_truncation _ => "value too long for type character varying"
  | invalid_text _ => "invalid byte sequence for encoding"
  | invalid_uuid _ => "invalid input syntax for type uuid"
  end.

Definition libraries : Libraries :=
  Build_Libraries is_email is_uuid String.length toLowerCase
    timeZone_supported (fun _ => true) String.length uuid_in sqlerrm
    ms parseInt bcrypt_hash bcrypt_compare
    (fun k payload => serialize (k, payload))
    (fun payload sg => serialize (payload, sg))
    parse.

End Reference.


(* ===================================================================== *)
(** * Part II.  Properties                                                *)
(* ===================================================================== *)

Module RateLimitFacts.
Import RateLimit.

Lemma sweep_lookup now (m : gmap string Entry) id :
  sweep now m !! id =
  match m !! id with
  | Some e => if decide (now <= resetTime e) then Some e else None
  | None => None
  end.
Proof.
  unfold sweep. rewrite map_lookup_filter.
  destruct (m !! id) as [e|]; simpl; [|done].
  unfold guard. simpl. destruct (decide (now <= resetTime e)); done.
Qed.

Lemma sweep_live now (m : gmap string Entry) id e :
  m !! id = Some e -> now <= resetTime e -> sweep now m !! id = Some e.
Proof.
  intros Hm Hle. rewrite sweep_lookup, Hm. by destruct (decide _).
Qed.

Lemma sweep_stale now (m : gmap string Entry) id e :
  m !! id = Some e -> resetTime e < now -> sweep now m !! id = None.
Proof.
  intros Hm Hlt. rewrite sweep_lookup, Hm. destruct (decide _); [lia|done].
Qed.

(** A call by another client leaves the entry of [id] as the sweep left
    it. *)
Lemma step_other M W req now (m : gmap string Entry) id :
  clientId req <> id ->
  (authRateLimit M W req now m).1 !! id = sweep now m !! id.
Proof.
  intros Hne. unfold authRateLimit.
  destruct (sweep now m !! clientId req) as [e|]; simpl.
  - destruct (now >? resetTime e); simpl; [by rewrite lookup_insert_ne|].
    destruct (count e >=? M); simpl; [done|by rewrite lookup_insert_ne].
  - by rewrite lookup_insert_ne.
Qed.

(** A call by a client that has no live entry opens a window. *)
Lemma step_fresh M W req now (m : gmap string Entry) :
  sweep now m !! clientId req = None ->
  authRateLimit M W req now m =
    (<[clientId req := {| count := 1; resetTime := now + W |}]> (sweep now m),
     Next req).
Proof. intros H. unfold authRateLimit. by rewrite H. Qed.

(** A call inside the window of a live entry. *)
Lemma step_live M W req now (m : gmap string Entry) e :
  m !! clientId req = Some e -> now <= resetTime e ->
  authRateLimit M W req now m =
    if count e >=? M then (sweep now m, Respond 429 (too_many now e))
    else (<[clientId req := {| count := count e + 1; resetTime := resetTime e |}]>
            (sweep now m), Next req).
Proof.
  intros Hm Hle. unfold authRateLimit. rewrite (sweep_live _ _ _ _ Hm Hle).
  destruct (now >? resetTime e) eqn:Hgt; [lia|done].
Qed.

Lemma calls_of_nil id : calls_of id [] = 0.
Proof. reflexivity. Qed.

Lemma calls_of_cons_same id req now calls :
  clientId req = id -> calls_of id ((req, now) :: calls) = 1 + calls_of id calls.
Proof.
  intros H. unfold calls_of. rewrite filter_cons_True by done.
  simpl length. lia.
Qed.

Lemma calls_of_cons_other id req now calls :
  clientId req <> id -> calls_of id ((req, now) :: calls) = calls_of id calls.
Proof. intros H. unfold calls_of. by rewrite filter_cons_False. Qed.

Lemma calls_of_nonneg id calls : 0 <= calls_of id calls.
Proof. unfold calls_of. lia. Qed.

(** While every call falls inside the window that ends at [R], the entry
    of [id] keeps its [resetTime] and counts the client's calls up to
    [M]. *)
Lemma run_in_window M W id R calls :
  forall (m : gmap string Entry) k,
    m !! id = Some {| count := k; resetTime := R |} ->
    k <= M ->
    Forall (fun call => call.2 <= R) calls ->
    run M W calls m !! id =
      Some {| count := Z.min (k + calls_of id calls) M; resetTime := R |}.
Proof.
  induction calls as [|[req now] calls IH]; intros m k Hm Hk Hall.
  - simpl. rewrite calls_of_nil, Hm. do 2 f_equal. lia.
  - apply Forall_cons in Hall as [Hnow Hall]. simpl in Hnow. simpl run.
    destruct (decide (clientId req = id)) as [Heq|Hne].
    + rewrite calls_of_cons_same by done. subst id.
      rewrite (step_live M W req now m _ Hm) by done. simpl count. simpl resetTime.
      pose proof (calls_of_nonneg (clientId req) calls) as Hn.
      destruct (k >=? M) eqn:Hge; simpl.
      * rewrite (IH _ k); [do 2 f_equal; lia| |lia|done].
        by apply sweep_live.
      * rewrite (IH _ (k + 1)); [do 2 f_equal; lia| |lia|done].
        by rewrite lookup_insert_eq.
    + rewrite calls_of_cons_other by done.
      apply IH; [|done|done].
      rewrite step_other by done. by apply sweep_live.
Qed.

(** Calls by other clients, at any clock reading, either leave the entry
    of [id] alone or sweep it away. *)
Lemma run_others M W id calls :
  forall (m : gmap string Entry),
    Forall (fun call => clientId call.1 <> id) calls ->
    run M W calls m !! id = None \/ run M W calls m !! id = m !! id.
Proof.
  induction calls as [|[req now] calls IH]; intros m Hall; [by right|].
  apply Forall_cons in Hall as [Hne Hall]. simpl in Hne. simpl run.
  destruct (IH (authRateLimit M W req now m).1 Hall) as [H|H]; [by left|].
  rewrite H, step_other by done. rewrite sweep_lookup.
  destruct (m !! id) as [e|]; [|by left].
  destruct (decide _); [by right|by left].
Qed.

Lemma ceil_div_nonneg a : 0 <= a -> 0 <= ceil_div a 1000.
Proof.
  intros Ha. unfold ceil_div.
  assert (- a / 1000 <= 0); [|lia].
  apply Z.div_le_upper_bound; lia.
Qed.

Lemma ceil_div_pos a : 0 < a -> 0 < ceil_div a 1000.
Proof.
  intros Ha. unfold ceil_div.
  assert (- a / 1000 < 0); [|lia].
  apply Z.div_lt_upper_bound; lia.
Qed.

(** The start of a window: the call that opens it is let through and
    stores [{ count: 1, resetTime: now + windowMs }]. *)
Lemma window_opens M W req now (m : gmap string Entry) :
  sweep now m !! clientId req = None ->
  (authRateLimit M W req now m).2 = Next req /\
  (authRateLimit M W req now m).1 !! clientId req =
    Some {| count := 1; resetTime := now + W |}.
Proof.
  intros H. rewrite step_fresh by done. simpl. by rewrite lookup_insert_eq.
Qed.

(** The client's call number [2 + calls_of id calls] inside the window. *)
Lemma nth_call_in_window M W id R calls req now (m : gmap string Entry) :
  1 <= M ->
  m !! id = Some {| count := 1; resetTime := R |} ->
  Forall (fun call => call.2 <= R) calls ->
  clientId req = id ->
  now <= R ->
  (authRateLimit M W req now (run M W calls m)).2 =
    if 2 + calls_of id calls <=? M then Next req
    else Respond 429 (too_many now {| count := M; resetTime := R |}).
Proof.
  intros HM Hm Hall Hid Hnow.
  pose proof (run_in_window M W id R calls m 1 Hm HM Hall) as Hrun.
  pose proof (calls_of_nonneg id calls) as Hn.
  subst id. rewrite (step_live M W req now _ _ Hrun) by done.
  simpl count. simpl resetTime.
  destruct (2 + calls_of (clientId req) calls <=? M) eqn:Hle.
  - destruct (Z.min _ _ >=? M) eqn:Hge; [lia|done].
  - destruct (Z.min _ _ >=? M) eqn:Hge; [done|lia].
Qed.

(** [Number.MAX_SAFE_INTEGER]: up to it, the sums and differences of
    clock readings and windows are exact in JavaScript. *)
Definition MAX_SAFE_INTEGER : Z := 2 ^ 53 - 1.

(** X26.  The window of [authRateLimit] with [maxAttempts = 5], for
    clock readings from 0 on that stay, with the window added, within the
    safe integers of JavaScript, and for a client [id] that has no live
    entry when its first call arrives at [t1]: that call is let through
    and opens the window ending at [R = t1 + windowMs] with count 1;
    while all calls fall inside the window ([now <= R]), the client's 2nd
    to 5th calls are let through, and its 6th and every later call is
    answered 429 [RATE_LIMIT_EXCEEDED] with
    [retryAfter = ceil((R - now) / 1000)], which is positive when
    [now < R] and 0 at [now = R]; once [now > R], whatever other clients
    did meanwhile, the client's next call is let through and its entry is
    [{ count: 1, resetTime: now + windowMs }]. *)
Theorem rate_limit_window (W : Z) (m0 : gmap string Entry)
    (first : Request) (t1 : Z) (calls others : list (Request * Z))
    (req : Request) (now : Z) :
  let id := clientId first in
  let R := t1 + W in
  let opened := authRateLimit 5 W first t1 m0 in
  let m := run 5 W calls opened.1 in
  let n := 2 + calls_of id calls in
  0 <= t1 -> t1 <= now -> now + W <= MAX_SAFE_INTEGER ->
  sweep t1 m0 !! id = None ->
  Forall (fun call => call.2 <= R) calls ->
  clientId req = id ->
  opened.2 = Next first /\
  opened.1 !! id = Some {| count := 1; resetTime := R |} /\
  (now <= R -> n <= 5 -> (authRateLimit 5 W req now m).2 = Next req) /\
  (now <= R -> 6 <= n ->
     (authRateLimit 5 W req now m).2 =
       Respond 429
         {| code := "RATE_LIMIT_EXCEEDED";
            message := "Too many authentication attempts. Please try again later.";
            timestamp := now;
            retryAfter := Some (ceil_div (R - now) 1000) |}
     /\ (now < R -> 0 < ceil_div (R - now) 1000)
     /\ (now = R -> ceil_div (R - now) 1000 = 0)) /\
  (R < now ->
     Forall (fun call => clientId call.1 <> id) others ->
     let m' := run 5 W others m in
     (authRateLimit 5 W req now m').2 = Next req /\
     (authRateLimit 5 W req now m').1 !! id =
       Some {| count := 1; resetTime := now + W |}).
Proof.
  intros id R opened m n _ _ _ Hfresh Hall Hid.
  destruct (window_opens 5 W first t1 m0 Hfresh) as [Hout Hentry].
  fold opened id R in Hout, Hentry.
  split; [done|]. split; [done|].
  split; [|split].
  - intros Hnow Hn.
    unfold m. rewrite (nth_call_in_window 5 W id R) by (done || lia).
    fold n. destruct (n <=? 5) eqn:E; [done|lia].
  - intros Hnow Hn. split; [|split].
    + unfold m. rewrite (nth_call_in_window 5 W id R) by (done || lia).
      fold n. destruct (n <=? 5) eqn:E; [lia|done].
    + intros. apply ceil_div_pos. lia.
    + intros ->. by rewrite Z.sub_diag.
  - intros Hnow Hothers m'.
    assert (Hm : m !! id = Some {| count := Z.min (1 + calls_of id calls) 5;
                                    resetTime := R |}).
    { unfold m. apply run_in_window; [done|lia|done]. }
    assert (Hswept : sweep now m' !! clientId req = None).
    { rewrite Hid. destruct (run_others 5 W id others m Hothers) as [H|H];
        fold m' in H.
      - by rewrite sweep_lookup, H.
      - rewrite Hm in H. by apply (sweep_stale _ _ _ _ H). }
    destruct (window_opens 5 W req now m' Hswept) as [H1 H2].
    by rewrite Hid in H2.
Qed.

Definition a_client : Request :=
  {| authorization := None; ip := Some "203.0.113.7";
     remoteAddress := None; user := None |}.

(** Five calls at clock 0 and a sixth at 1000, window of 15 minutes. *)
Lemma rate_limit_window_witness :
  (authRateLimit 5 900000 a_client 1000
     (run 5 900000 (repeat (a_client, 0) 4)
        (authRateLimit 5 900000 a_client 0 ∅).1)).2
  = Respond 429
      {| code := "RATE_LIMIT_EXCEEDED";
         message := "Too many authentication attempts. Please try again later.";
         timestamp := 1000;
         retryAfter := Some 899 |}.
Proof.
  pose proof (rate_limit_window 900000 ∅ a_client 0
                (repeat (a_client, 0) 4) [] a_client 1000) as H.
  cbv zeta in H.
  assert (H1 : sweep 0 (∅ : gmap string Entry) !! clientId a_client = None)
    by (by rewrite sweep_lookup, lookup_empty).
  assert (H2 : Forall (fun call : Request * Z => call.2 <= 0 + 900000)
                 (repeat (a_client, 0) 4))
    by (repeat constructor; simpl; lia).
  destruct (H ltac:(lia) ltac:(lia) ltac:(vm_compute; discriminate) H1 H2 eq_refl)
    as (_ & _ & _ & H3 & _).
  assert (H4 : 6 <= 2 + calls_of (clientId a_client) (repeat (a_client, 0) 4))
    by (vm_compute; discriminate).
  destruct (H3 ltac:(lia) H4) as [H5 _].
  exact H5.
Defined.

(** C1.  The code at the failing input: a client makes five calls at
    clock reading 1700000000000 and a sixth at 1700000900000, the last
    millisecond of the window of 15 minutes.  The sixth call is still
    rejected, as the claim says, but its [retryAfter] is
    [ceil(0 / 1000) = 0], not a positive number: the entry is kept while
    [now <= resetTime]. *)
Lemma C1_retryAfter_zero_at_window_end :
  let opened := (authRateLimit 5 900000 a_client 1700000000000 ∅).1 in
  let m := run 5 900000 (repeat (a_client, 1700000000000) 4) opened in
  m !! clientId a_client = Some {| count := 5; resetTime := 1700000900000 |} /\
  (authRateLimit 5 900000 a_client 1700000900000 m).2 =
    Respond 429
      {| code := "RATE_LIMIT_EXCEEDED";
         message := "Too many authentication attempts. Please try again later.";
         timestamp := 1700000900000;
         retryAfter := Some 0 |} /\
  ~ (exists body r,
       (authRateLimit 5 900000 a_client 1700000900000 m).2 = Respond 429 body /\
       retryAfter body = Some r /\ 0 < r).
Proof.
  intros opened m.
  assert (Hm : m !! clientId a_client
               = Some {| count := 5; resetTime := 1700000900000 |}).
  { unfold m, opened.
    rewrite (run_in_window 5 900000 (clientId a_client) 1700000900000 _ _ 1).
    - reflexivity.
    - rewrite step_fresh by (by rewrite sweep_lookup, lookup_empty).
      simpl fst. by rewrite lookup_insert_eq.
    - lia.
    - repeat constructor; simpl; lia. }
  assert (Hout : (authRateLimit 5 900000 a_client 1700000900000 m).2 =
                 Respond 429
                   (too_many 1700000900000
                      {| count := 5; resetTime := 1700000900000 |})).
  { rewrite (step_live _ _ _ _ _ _ Hm) by (simpl; lia).
    simpl count. change (5 >=? 5) with true. reflexivity. }
  split; [done|]. split; [exact Hout|].
  intros (body & r & Hbody & Hr & Hpos). rewrite Hout in Hbody.
  injection Hbody as <-. vm_compute in Hr. injection Hr as <-. lia.
Qed.

End RateLimitFacts.


(* --------------------------------------------------------------------- *)
(** ** The reference libraries meet the assumptions                       *)
(* --------------------------------------------------------------------- *)

Module ReferenceFacts.
Import Reference.

Lemma of_bits_of p : of_bits (bits_of p) = Some p.
Proof. induction p as [p IH|p IH|]; simpl; [by rewrite IH..|done]. Qed.

Lemma parse_serialize {A} `{Countable A} (a : A) : parse (serialize a) = Some a.
Proof. unfold parse, serialize. simpl. by rewrite of_bits_of, decode_encode. Qed.

Lemma serialize_inj {A} `{Countable A} (a b : A) :
  serialize a = serialize b -> a = b.
Proof.
  intros Heq. apply (f_equal (parse (A := A))) in Heq.
  rewrite !parse_serialize in Heq. congruence.
Qed.

Lemma libraries_ok : @LibrariesOk libraries.
Proof.
  split.
  - intros p sg. apply (parse_serialize (p, sg)).
  - reflexivity.
Qed.

Lemma store_ok : @StoreOk libraries.
Proof.
  split.
  - intros s c. cbn. unfold uuid_in.
    destruct (is_uuid s) eqn:E; [|done]. intros [= <-]. by rewrite E.
  - reflexivity.
Qed.

(** The reference MAC tells keys apart. *)
Lemma hmac_differs (k k' : string) (p : JObj) :
  k <> k' -> hmac (Libraries := libraries) k p <> hmac (Libraries := libraries) k' p.
Proof. intros Hne Heq. apply serialize_inj in Heq. congruence. Qed.

(** A service configuration under the reference libraries. *)
Definition env : Env.t :=
  Env.mk (Some "access-secret") (Some "refresh-secret") None None None.

Definition service : AuthService.t :=
  AuthService.mk "access-secret" "refresh-secret" "15m" "7d" (Some 12).

Lemma constructor_env : AuthService.constructor (H := libraries) env = inr service.
Proof. vm_compute. reflexivity. Qed.

End ReferenceFacts.


(* --------------------------------------------------------------------- *)
(** ** [hasPermission]                                                    *)
(* --------------------------------------------------------------------- *)

Module RoleFacts.
Import AuthService.

Lemma hasPermission_spec a b :
  hasPermission a b = true <-> roleHierarchy b <= roleHierarchy a.
Proof. unfold hasPermission. lia. Qed.

Lemma roleHierarchy_inj a b : roleHierarchy a = roleHierarchy b -> a = b.
Proof. by destruct a, b. Qed.

(** C8.  [hasPermission] compares ranks in the order stakeholder <
    product-manager < designer < developer: a developer may act as a
    stakeholder, a stakeholder may not act as a developer, every role may
    act as itself, and the comparison is a total order on roles. *)
Theorem C8_hasPermission_total_order :
  (roleHierarchy stakeholder < roleHierarchy product_manager
   /\ roleHierarchy product_manager < roleHierarchy designer
   /\ roleHierarchy designer < roleHierarchy developer)
  /\ (forall a b, hasPermission a b = true <-> roleHierarchy b <= roleHierarchy a)
  /\ hasPermission developer stakeholder = true
  /\ hasPermission stakeholder developer = false
  /\ (forall x, hasPermission x x = true)
  /\ (forall a b, hasPermission a b = true \/ hasPermission b a = true)
  /\ (forall a b, hasPermission a b = true -> hasPermission b a = true -> a = b)
  /\ (forall a b c,
        hasPermission a b = true -> hasPermission b c = true ->
        hasPermission a c = true).
Proof.
  repeat split; try (simpl; lia); try reflexivity.
  - apply hasPermission_spec.
  - apply hasPermission_spec.
  - intros x. apply hasPermission_spec. lia.
  - intros a b. rewrite !hasPermission_spec. lia.
  - intros a b. rewrite !hasPermission_spec. intros. apply roleHierarchy_inj. lia.
  - intros a b c. rewrite !hasPermission_spec. lia.
Qed.

End RoleFacts.


(* --------------------------------------------------------------------- *)
(** ** [extractToken] and [authenticate]                                  *)
(* --------------------------------------------------------------------- *)

Module MiddlewareFacts.
Import Middleware.

Lemma bearer_only (h : string) :
  startsWith "Bearer " h = true -> substring_from 7 h = "" -> h = "Bearer ".
Proof.
  unfold startsWith. intros Hp Hs.
  do 7 (destruct h as [|c h]; [discriminate Hp|];
        cbn [String.prefix] in Hp;
        match type of Hp with
        | context [Ascii.ascii_dec ?a c] =>
            destruct (Ascii.ascii_dec a c) as [<-|]; [|discriminate Hp]
        end).
  simpl in Hs. by subst h.
Qed.

Section WithService.
Context `{Libraries} (authService : AuthService.t).

(** Which token [authenticate] verifies. *)
Lemma authenticate_token req now token :
  extractToken req = Some token -> token <> "" ->
  authenticate authService req now =
    match AuthService.verifyAccessToken authService token now with
    | inr payload => Next (with_user req payload)
    | inl _ => Respond 401 (invalid_token now)
    end.
Proof.
  intros He Hne. unfold authenticate. rewrite He.
  destruct (String.eqb_spec token ""); [done|done].
Qed.

Lemma authenticate_not_missing req now token :
  extractToken req = Some token -> token <> "" ->
  authenticate authService req now <> Respond 401 (missing_token now).
Proof.
  intros He Hne. rewrite (authenticate_token _ _ _ He Hne).
  by destruct (AuthService.verifyAccessToken _ _ _).
Qed.

(** C10 (as amended).  A non-empty [Authorization] header that does not
    start with ["Bearer "] is taken whole as the access token and
    verified: the request proceeds with [req.user] set when it is a
    valid token and is answered 401 [INVALID_TOKEN] otherwise.  The
    401 [MISSING_TOKEN] answer is produced exactly when the header is
    absent, is the empty string, or is ["Bearer "] with nothing after
    it. *)
Theorem C10_header_without_bearer (req : Request) (now : Z) :
  (forall h,
      authorization req = Some h -> h <> "" -> startsWith "Bearer " h = false ->
      extractToken req = Some h /\
      authenticate authService req now =
        match AuthService.verifyAccessToken authService h now with
        | inr payload => Next (with_user req payload)
        | inl _ => Respond 401 (invalid_token now)
        end)
  /\ (authenticate authService req now = Respond 401 (missing_token now) <->
      authorization req = None \/ authorization req = Some ""
      \/ authorization req = Some "Bearer ").
Proof.
  split.
  - intros h Hh Hne Hpre.
    assert (He : extractToken req = Some h).
    { unfold extractToken. rewrite Hh, Hpre.
      by destruct (String.eqb_spec h ""). }
    split; [done|]. by apply authenticate_token.
  - split.
    + intros Hresp. destruct (authorization req) as [h|] eqn:Hh; [|by left].
      right. destruct (String.eqb_spec h "") as [->|Hne]; [by left|right].
      destruct (startsWith "Bearer " h) eqn:Hpre.
      * assert (He : extractToken req = Some (substring_from 7 h)).
        { unfold extractToken. rewrite Hh, Hpre.
          by destruct (String.eqb_spec h ""). }
        destruct (String.eqb_spec (substring_from 7 h) "") as [Hs|Hs].
        -- f_equal. by apply bearer_only.
        -- by destruct (authenticate_not_missing req now _ He Hs).
      * assert (He : extractToken req = Some h).
        { unfold extractToken. rewrite Hh, Hpre.
          by destruct (String.eqb_spec h ""). }
        by destruct (authenticate_not_missing req now _ He Hne).
    + unfold authenticate, extractToken.
      by intros [-> | [-> | ->]].
Qed.

End WithService.

Definition bare_header : Request :=
  {| authorization := Some "not-a-jws"; ip := None; remoteAddress := None;
     user := None |}.

(** A header holding a bare string that is no token: it is verified (and
    refused as invalid), not reported missing. *)
Lemma C10_header_without_bearer_witness :
  authenticate (H := Reference.libraries) ReferenceFacts.service bare_header 0
  = Respond 401 (invalid_token 0).
Proof.
  destruct (C10_header_without_bearer (H := Reference.libraries)
              ReferenceFacts.service bare_header 0) as [Hwhole _].
  destruct (Hwhole "not-a-jws" eq_refl ltac:(discriminate) eq_refl) as [_ ->].
  reflexivity.
Defined.

Definition bearer_nothing : Request :=
  {| authorization := Some "Bearer "; ip := None; remoteAddress := None;
     user := None |}.

Definition empty_header : Request :=
  {| authorization := Some ""; ip := None; remoteAddress := None;
     user := None |}.

(** C10 as stated fails: [MISSING_TOKEN] is also the answer to a request
    whose header is present and is ["Bearer "], and to one whose header is
    present and empty. *)
Lemma C10_missing_token_with_header_present :
  (authorization bearer_nothing <> None /\
   authenticate (H := Reference.libraries) ReferenceFacts.service bearer_nothing 0
   = Respond 401 (missing_token 0))
  /\ (authorization empty_header <> None /\
      authenticate (H := Reference.libraries) ReferenceFacts.service empty_header 0
      = Respond 401 (missing_token 0)).
Proof. repeat split; discriminate. Qed.

End MiddlewareFacts.


(* --------------------------------------------------------------------- *)
(** ** What the schemas accept                                            *)
(* --------------------------------------------------------------------- *)

Module ZodFacts.

Lemma role_of_name_name r : role_of_name (role_name r) = Some r.
Proof. by destruct r. Qed.

Lemma role_of_name_Some s r : role_of_name s = Some r -> s = role_name r.
Proof.
  unfold role_of_name.
  repeat (match goal with
          | |- context [String.eqb s ?lit] =>
              destruct (String.eqb_spec s lit) as [->|_]; [by intros [= <-]|]
          end).
  discriminate.
Qed.

Section WithLibraries.
Context `{Libraries}.

Lemma string_at_Some ok k o s :
  Zod.string_at ok k o = Some s -> get k o = Some (JStr s) /\ ok s = true.
Proof.
  unfold Zod.string_at. destruct (get k o) as [[s'| | |]|]; try discriminate.
  destruct (ok s') eqn:Hok; [|discriminate]. by intros [= <-].
Qed.

Lemma number_at_Some k o n :
  Zod.number_at k o = Some n -> get k o = Some (JNum n).
Proof.
  unfold Zod.number_at. destruct (get k o) as [[| n' | |]|]; try discriminate.
  by intros [= <-].
Qed.

Lemma role_at_Some k o r :
  Zod.role_at k o = Some r -> get k o = Some (JStr (role_name r)).
Proof.
  unfold Zod.role_at. destruct (get k o) as [[s| | |]|]; try discriminate.
  intros Hr. by rewrite (role_of_name_Some s r Hr).
Qed.

(** A payload the access schema accepts holds the seven properties, each
    of its type and format, and they are the claims returned. *)
Lemma JWTPayloadSchema_parse_inv o c :
  Zod.JWTPayloadSchema_parse o = inr c ->
  get "userId" o = Some (JStr (JWTPayload.userId c))
  /\ is_uuid (JWTPayload.userId c) = true
  /\ get "email" o = Some (JStr (JWTPayload.email c))
  /\ is_email (JWTPayload.email c) = true
  /\ get "role" o = Some (JStr (role_name (JWTPayload.role c)))
  /\ get "timezone" o = Some (JStr (JWTPayload.timezone c))
  /\ get "sessionId" o = Some (JStr (JWTPayload.sessionId c))
  /\ is_uuid (JWTPayload.sessionId c) = true
  /\ get "iat" o = Some (JNum (JWTPayload.iat c))
  /\ get "exp" o = Some (JNum (JWTPayload.exp c)).
Proof.
  unfold Zod.JWTPayloadSchema_parse. intros Hp.
  destruct (Zod.string_at is_uuid "userId" o) as [u|] eqn:Hu; [|discriminate].
  destruct (Zod.string_at is_email "email" o) as [e|] eqn:He; [|discriminate].
  destruct (Zod.role_at "role" o) as [r|] eqn:Hr; [|discriminate].
  destruct (Zod.string_at _ "timezone" o) as [tz|] eqn:Htz; [|discriminate].
  destruct (Zod.string_at is_uuid "sessionId" o) as [sid|] eqn:Hs; [|discriminate].
  destruct (Zod.number_at "iat" o) as [i|] eqn:Hi; [|discriminate].
  destruct (Zod.number_at "exp" o) as [x|] eqn:Hx; [|discriminate].
  injection Hp as <-. cbn.
  apply string_at_Some in Hu as [? ?], He as [? ?], Htz as [? _], Hs as [? ?].
  apply role_at_Some in Hr. apply number_at_Some in Hi, Hx. done.
Qed.

(** Likewise for the refresh schema and its five properties. *)
Lemma RefreshTokenPayloadSchema_parse_inv o c :
  Zod.RefreshTokenPayloadSchema_parse o = inr c ->
  get "userId" o = Some (JStr (RefreshTokenPayload.userId c))
  /\ is_uuid (RefreshTokenPayload.userId c) = true
  /\ get "sessionId" o = Some (JStr (RefreshTokenPayload.sessionId c))
  /\ is_uuid (RefreshTokenPayload.sessionId c) = true
  /\ get "tokenVersion" o = Some (JNum (RefreshTokenPayload.tokenVersion c))
  /\ get "iat" o = Some (JNum (RefreshTokenPayload.iat c))
  /\ get "exp" o = Some (JNum (RefreshTokenPayload.exp c)).
Proof.
  unfold Zod.RefreshTokenPayloadSchema_parse. intros Hp.
  destruct (Zod.string_at is_uuid "userId" o) as [u|] eqn:Hu; [|discriminate].
  destruct (Zod.string_at is_uuid "sessionId" o) as [sid|] eqn:Hs; [|discriminate].
  destruct (Zod.number_at "tokenVersion" o) as [v|] eqn:Hv; [|discriminate].
  destruct (Zod.number_at "iat" o) as [i|] eqn:Hi; [|discriminate].
  destruct (Zod.number_at "exp" o) as [x|] eqn:Hx; [|discriminate].
  injection Hp as <-. cbn.
  apply string_at_Some in Hu as [? ?], Hs as [? ?].
  apply number_at_Some in Hv, Hi, Hx. done.
Qed.

End WithLibraries.
End ZodFacts.


(* --------------------------------------------------------------------- *)
(** ** Rows handed out by the repository                                  *)
(* --------------------------------------------------------------------- *)

(** Every user the PostgreSQL repository returns has passed the entity
    schema: its id is a UUID, its e-mail an e-mail address, and its JSON
    columns hold what the schema wants.  These are the users from which
    the service builds token claims.  The row that [create] inserts is
    not among them. *)
Module PgFacts.
Section WithLibraries.
Context `{Libraries}.

Lemma validate_row_accepted row :
  Pg.row_accepted row = true -> Pg.validate_row row = inr row.
Proof. unfold Pg.validate_row. by intros ->. Qed.

Lemma validate_row_refused row :
  Pg.row_accepted row = false ->
  Pg.validate_row row
  = inl (Error ("Validation failed: "
                ++ String.concat ", " (Pg.row_issues row))%string).
Proof. unfold Pg.validate_row. by intros ->. Qed.

Lemma validate_row_inv row u :
  Pg.validate_row row = inr u -> u = row /\ Pg.row_accepted row = true.
Proof.
  unfold Pg.validate_row. destruct (Pg.row_accepted row); [|discriminate].
  by intros [= <-].
Qed.

Lemma row_accepted_formats row :
  Pg.row_accepted row = true ->
  is_uuid (UserEntity.id row) = true /\ is_email (UserEntity.email row) = true.
Proof.
  unfold Pg.row_accepted. rewrite !andb_true_iff. by intros [[[? ?] _] _].
Qed.

Lemma validate_row_valid row u :
  Pg.validate_row row = inr u ->
  u = row /\ is_uuid (UserEntity.id u) = true /\ is_email (UserEntity.email u) = true.
Proof.
  intros [-> Ha]%validate_row_inv. split; [done|].
  by apply row_accepted_formats.
Qed.

Lemma first_row_inv rows u :
  Pg.first_row rows = inr (Some u) ->
  exists rest, rows = u :: rest /\ Pg.row_accepted u = true.
Proof.
  unfold Pg.first_row. destruct rows as [|row rows]; [discriminate|].
  destruct (Pg.validate_row row) as [|u'] eqn:Hv; [discriminate|].
  intros [= <-]. destruct (validate_row_inv row u' Hv) as [-> Ha].
  by exists rows.
Qed.

Lemma first_row_valid rows u :
  Pg.first_row rows = inr (Some u) ->
  is_uuid (UserEntity.id u) = true /\ is_email (UserEntity.email u) = true.
Proof.
  intros (rest & _ & Ha)%first_row_inv. by apply row_accepted_formats.
Qed.

Lemma findByEmail_valid email (db db' : Pg.Table) u :
  Pg.findByEmail email db = (inr (Some u), db') ->
  is_uuid (UserEntity.id u) = true /\ is_email (UserEntity.email u) = true.
Proof.
  unfold Pg.findByEmail. destruct (pg_text _); [|discriminate].
  intros [= Hr _]. by eapply first_row_valid.
Qed.

Lemma findById_valid id (db db' : Pg.Table) u :
  Pg.findById id db = (inr (Some u), db') ->
  is_uuid (UserEntity.id u) = true /\ is_email (UserEntity.email u) = true.
Proof.
  unfold Pg.findById. destruct (uuid_in id); [|discriminate].
  intros [= Hr _]. by eapply first_row_valid.
Qed.

(** The row of [create] fails the entity schema, whatever the input. *)
Lemma new_row_refused uuid now d : Pg.row_accepted (Pg.new_row uuid now d) = false.
Proof. unfold Pg.row_accepted. cbn. by rewrite andb_false_r. Qed.

Lemma create_throws uuid now data (db : Pg.Table) :
  exists error db', Pg.create uuid now data db = (inl error, db').
Proof.
  unfold Pg.create, bindM, liftM.
  destruct (Pg.validate_create data) as [e|d]; [by eauto|].
  destruct (Pg.insert_error uuid d db) as [e|]; [by eauto|].
  rewrite (validate_row_refused _ (new_row_refused uuid now d)). eauto.
Qed.

Lemma create_valid uuid now data (db db' : Pg.Table) u :
  Pg.create uuid now data db = (inr u, db') ->
  is_uuid (UserEntity.id u) = true /\ is_email (UserEntity.email u) = true.
Proof.
  intros Hc. destruct (create_throws uuid now data db) as (e & d & He).
  rewrite He in Hc. discriminate.
Qed.

End WithLibraries.
End PgFacts.


(* --------------------------------------------------------------------- *)
(** ** Tokens: issuing and verifying                                      *)
(* --------------------------------------------------------------------- *)

Module TokenFacts.
Import AuthService ZodFacts.

Section WithLibraries.
Context `{Libraries} `{!LibrariesOk}.

Lemma sign_ok payload k span now d :
  k <> "" -> ms span = Some d ->
  Jwt.sign payload k span now =
    inr (jws_encode (Jwt.with_dates payload (floor_div now 1000) d)
           (hmac k (Jwt.with_dates payload (floor_div now 1000) d))).
Proof.
  intros Hk Hms. unfold Jwt.sign. rewrite Hms.
  by destruct (String.eqb_spec k "").
Qed.

Lemma sign_inv payload k span now token :
  Jwt.sign payload k span now = inr token ->
  k <> "" /\ exists d, ms span = Some d.
Proof.
  unfold Jwt.sign. destruct (String.eqb_spec k ""); [discriminate|].
  destruct (ms span) as [d|]; [|discriminate]. eauto.
Qed.

(** A token verified under the key it was signed with passes the
    signature check. *)
Lemma verify_signed payload k now :
  k <> "" ->
  Jwt.verify (jws_encode payload (hmac k payload)) k now =
    (let* _ := Jwt.check_nbf payload (floor_div now 1000) in
     let* _ := Jwt.check_exp payload (floor_div now 1000) in
     ret payload)%js.
Proof.
  intros Hk. unfold Jwt.verify. rewrite jws_decode_encode.
  destruct (String.eqb_spec k ""); [done|].
  by rewrite String.eqb_refl.
Qed.

(** Under a key that gives the payload another tag it fails the
    signature check. *)
Lemma verify_other_key payload k k' now :
  hmac k payload <> hmac k' payload -> k' <> "" ->
  Jwt.verify (jws_encode payload (hmac k payload)) k' now =
    inl (JsonWebTokenError "invalid signature").
Proof.
  intros Hne Hk'. unfold Jwt.verify. rewrite jws_decode_encode.
  destruct (String.eqb_spec k' ""); [done|].
  by destruct (String.eqb_spec (hmac k payload) (hmac k' payload)).
Qed.

(** Under a key that gives the payload the same tag it passes it. *)
Lemma verify_same_tag payload k k' now :
  hmac k payload = hmac k' payload -> k' <> "" ->
  Jwt.verify (jws_encode payload (hmac k payload)) k' now =
    (let* _ := Jwt.check_nbf payload (floor_div now 1000) in
     let* _ := Jwt.check_exp payload (floor_div now 1000) in
     ret payload)%js.
Proof. intros ->. apply verify_signed. Qed.

Lemma jws_encode_nonempty p sg : jws_encode p sg <> "".
Proof.
  intros Heq. pose proof (jws_decode_encode p sg) as Hd.
  rewrite Heq, jws_decode_empty in Hd. discriminate.
Qed.

(** Whatever goes wrong, [verifyAccessToken] throws the same error. *)
Lemma verifyAccessToken_error this token now e :
  verifyAccessToken this token now = inl e -> e = Error "Invalid access token".
Proof.
  unfold verifyAccessToken, try_catch.
  destruct (bind _ _); [|discriminate]. by intros [= <-].
Qed.

Lemma verifyAccessToken_throws this token now e :
  Jwt.verify token (JWT_SECRET this) now = inl e ->
  verifyAccessToken this token now = inl (Error "Invalid access token").
Proof. intros Hv. unfold verifyAccessToken. by rewrite Hv. Qed.

(** A token whose [exp] has passed fails [verify], under any key. *)
Lemma verify_expired token k now payload sg e :
  jws_decode token = Some (payload, sg) ->
  get "exp" payload = Some (JNum e) ->
  e <= floor_div now 1000 ->
  exists err, Jwt.verify token k now = inl err.
Proof.
  intros Hd He Hle. unfold Jwt.verify. rewrite Hd.
  destruct (String.eqb k ""); [eauto|].
  destruct (negb _); [eauto|].
  destruct (Jwt.check_nbf payload (floor_div now 1000)) as [err|[]]; [simpl; eauto|].
  simpl. unfold Jwt.check_exp. rewrite He.
  destruct (floor_div now 1000 >=? e) eqn:Hge; [simpl; eauto|lia].
Qed.

(** With a valid signature and no [nbf], the error of [verify] is
    [TokenExpiredError]. *)
Lemma verify_signed_expired payload k now e :
  k <> "" ->
  get "nbf" payload = None ->
  get "exp" payload = Some (JNum e) ->
  e <= floor_div now 1000 ->
  Jwt.verify (jws_encode payload (hmac k payload)) k now = inl TokenExpiredError.
Proof.
  intros Hk Hn He Hle. rewrite verify_signed by done.
  unfold Jwt.check_nbf, Jwt.check_exp.
  rewrite Hn, He. simpl.
  destruct (floor_div now 1000 >=? e) eqn:Hge; [done|lia].
Qed.

(** The payloads [generateTokens] signs. *)
Lemma access_payload_dates claims ts d clock :
  Jwt.check_nbf (Jwt.with_dates (accessTokenPayload claims) ts d) clock = inr tt
  /\ Jwt.check_exp (Jwt.with_dates (accessTokenPayload claims) ts d) clock =
       if clock >=? ts + floor_div d 1000 then inl TokenExpiredError else inr tt.
Proof. split; reflexivity. Qed.

Lemma refresh_payload_dates claims ts d clock :
  Jwt.check_nbf (Jwt.with_dates (refreshTokenPayload claims) ts d) clock = inr tt
  /\ Jwt.check_exp (Jwt.with_dates (refreshTokenPayload claims) ts d) clock =
       if clock >=? ts + floor_div d 1000 then inl TokenExpiredError else inr tt.
Proof. split; reflexivity. Qed.

Lemma access_payload_parse claims ts d :
  is_uuid (TokenClaims.userId claims) = true ->
  is_email (TokenClaims.email claims) = true ->
  is_uuid (TokenClaims.sessionId claims) = true ->
  Zod.JWTPayloadSchema_parse (Jwt.with_dates (accessTokenPayload claims) ts d) =
    inr (JWTPayload.mk (TokenClaims.userId claims) (TokenClaims.email claims)
           (TokenClaims.role claims) (TokenClaims.timezone claims)
           (TokenClaims.sessionId claims) ts (ts + floor_div d 1000)).
Proof.
  intros Hu He Hs. unfold Zod.JWTPayloadSchema_parse, Zod.string_at, Zod.role_at,
    Zod.number_at. cbn. by rewrite Hu, He, Hs, role_of_name_name.
Qed.

Lemma refresh_payload_parse claims ts d :
  is_uuid (TokenClaims.userId claims) = true ->
  is_uuid (TokenClaims.sessionId claims) = true ->
  Zod.RefreshTokenPayloadSchema_parse
    (Jwt.with_dates (refreshTokenPayload claims) ts d) =
    inr (RefreshTokenPayload.mk (TokenClaims.userId claims)
           (TokenClaims.sessionId claims) 1 ts (ts + floor_div d 1000)).
Proof.
  intros Hu Hs. unfold Zod.RefreshTokenPayloadSchema_parse, Zod.string_at,
    Zod.number_at. cbn. by rewrite Hu, Hs.
Qed.

Variable this : AuthService.t.

(** What [generateTokens] returns when it returns. *)
Lemma generateTokens_ok claims longLived now da dr :
  JWT_SECRET this <> "" -> JWT_REFRESH_SECRET this <> "" ->
  ms (JWT_EXPIRES_IN this) = Some da ->
  ms (refreshTokenExpiry this longLived) = Some dr ->
  let A := Jwt.with_dates (accessTokenPayload claims) (floor_div now 1000) da in
  let R := Jwt.with_dates (refreshTokenPayload claims) (floor_div now 1000) dr in
  generateTokens this claims longLived now =
    inr (AuthTokens.mk (jws_encode A (hmac (JWT_SECRET this) A))
           (jws_encode R (hmac (JWT_REFRESH_SECRET this) R))
           (floor_div da 1000) "Bearer").
Proof.
  intros Hs Hr Hda Hdr A R. unfold generateTokens.
  rewrite (sign_ok _ _ _ _ da) by done. simpl bind.
  rewrite (sign_ok _ _ _ _ dr) by done. simpl bind.
  unfold Jwt.decode. rewrite jws_decode_encode. cbn.
  do 2 f_equal. unfold floor_div. lia.
Qed.

Lemma generateTokens_inv claims longLived now tokens :
  generateTokens this claims longLived now = inr tokens ->
  JWT_SECRET this <> "" /\ JWT_REFRESH_SECRET this <> "" /\
  exists da dr,
    ms (JWT_EXPIRES_IN this) = Some da /\ ms (refreshTokenExpiry this longLived) = Some dr.
Proof.
  unfold generateTokens. intros Hg.
  destruct (Jwt.sign (accessTokenPayload claims) _ _ _) as [|a] eqn:Ha;
    [discriminate|].
  simpl in Hg.
  destruct (Jwt.sign (refreshTokenPayload claims) _ _ _) as [|r] eqn:Hr;
    [discriminate|].
  apply sign_inv in Ha as [? [da ?]]. apply sign_inv in Hr as [? [dr ?]].
  eauto 10.
Qed.

(** [refreshToken] rejects whatever its verification step rejects, and
    leaves the store alone. *)
Lemma refreshToken_rejects {Db} (repo : UserRepository.t Db) token now db e :
  verifyRefresh this token now = inl e ->
  refreshToken this repo (Zod.RefreshTokenRequest_obj (RefreshTokenRequest.mk token))
    now db = (inl (Error "Invalid refresh token"), db).
Proof.
  intros Hv.
  unfold refreshToken, try_catchM, bindM, liftM,
    Zod.RefreshTokenRequestSchema_parse, Zod.string_at.
  destruct token as [|c token]; [done|].
  cbn [Zod.RefreshTokenRequest_obj RefreshTokenRequest.refreshToken get
       String.eqb Ascii.eqb Bool.eqb Zod.nonempty negb ret].
  by rewrite Hv.
Qed.

(** What [refreshToken] does with a token is decided by what the
    verification step makes of it. *)
Lemma refreshToken_by_verification {Db} (repo : UserRepository.t Db)
    token token' now db :
  token <> "" -> token' <> "" ->
  verifyRefresh this token now = verifyRefresh this token' now ->
  refreshToken this repo (Zod.RefreshTokenRequest_obj (RefreshTokenRequest.mk token))
    now db
  = refreshToken this repo
      (Zod.RefreshTokenRequest_obj (RefreshTokenRequest.mk token')) now db.
Proof.
  intros Ht Ht' Hv.
  unfold refreshToken, try_catchM, bindM, liftM,
    Zod.RefreshTokenRequestSchema_parse, Zod.string_at.
  destruct token as [|c token]; [done|].
  destruct token' as [|c' token']; [done|].
  cbn [Zod.RefreshTokenRequest_obj RefreshTokenRequest.refreshToken get
       String.eqb Ascii.eqb Bool.eqb Zod.nonempty negb ret].
  by rewrite Hv.
Qed.

(** Verifying what [generateTokens] signs, before it expires. *)
Lemma verifyAccessToken_issued claims ts d now' :
  JWT_SECRET this <> "" ->
  is_uuid (TokenClaims.userId claims) = true ->
  is_email (TokenClaims.email claims) = true ->
  is_uuid (TokenClaims.sessionId claims) = true ->
  floor_div now' 1000 < ts + floor_div d 1000 ->
  let A := Jwt.with_dates (accessTokenPayload claims) ts d in
  verifyAccessToken this (jws_encode A (hmac (JWT_SECRET this) A)) now' =
    inr (JWTPayload.mk (TokenClaims.userId claims) (TokenClaims.email claims)
           (TokenClaims.role claims) (TokenClaims.timezone claims)
           (TokenClaims.sessionId claims) ts (ts + floor_div d 1000)).
Proof.
  intros Hk Hu He Hs Hlt A. subst A. unfold verifyAccessToken.
  rewrite verify_signed by done.
  destruct (access_payload_dates claims ts d (floor_div now' 1000)) as [-> ->].
  destruct (_ >=? _) eqn:Hge; [lia|]. cbn [bind ret].
  by rewrite access_payload_parse.
Qed.

Lemma verifyRefresh_issued claims ts d now' :
  JWT_REFRESH_SECRET this <> "" ->
  is_uuid (TokenClaims.userId claims) = true ->
  is_uuid (TokenClaims.sessionId claims) = true ->
  floor_div now' 1000 < ts + floor_div d 1000 ->
  let R := Jwt.with_dates (refreshTokenPayload claims) ts d in
  verifyRefresh this (jws_encode R (hmac (JWT_REFRESH_SECRET this) R)) now' =
    inr (RefreshTokenPayload.mk (TokenClaims.userId claims)
           (TokenClaims.sessionId claims) 1 ts (ts + floor_div d 1000)).
Proof.
  intros Hk Hu Hs Hlt R. subst R. unfold verifyRefresh.
  rewrite verify_signed by done.
  destruct (refresh_payload_dates claims ts d (floor_div now' 1000)) as [-> ->].
  destruct (_ >=? _) eqn:Hge; [lia|]. cbn [bind ret].
  by rewrite refresh_payload_parse.
Qed.

(** C4.  Round trip: when [generateTokens] issues a token pair for
    claims as its callers pass them (the user id and the e-mail are those
    of a user the repository has validated, hence a UUID and an e-mail
    address, and the session id is a UUID, drawn by [randomUUID] or taken
    from a verified refresh token), then at any clock reading before the
    [exp] embedded in the access (resp. refresh) token, verification
    returns the issued claims: userId, email, role, timezone and
    sessionId for the access token; userId, sessionId and tokenVersion
    for the refresh token. *)
Theorem C4_round_trip (claims : TokenClaims.t) (longLived : bool)
    (now now' : Z) (tokens : AuthTokens.t) :
  generateTokens this claims longLived now = inr tokens ->
  is_uuid (TokenClaims.userId claims) = true ->
  is_email (TokenClaims.email claims) = true ->
  is_uuid (TokenClaims.sessionId claims) = true ->
  exists expA expR,
    (Jwt.decode (AuthTokens.accessToken tokens) ≫= get "exp") = Some (JNum expA)
    /\ (Jwt.decode (AuthTokens.refreshToken tokens) ≫= get "exp")
       = Some (JNum expR)
    /\ (floor_div now' 1000 < expA ->
        verifyAccessToken this (AuthTokens.accessToken tokens) now' =
          inr (JWTPayload.mk (TokenClaims.userId claims)
                 (TokenClaims.email claims) (TokenClaims.role claims)
                 (TokenClaims.timezone claims) (TokenClaims.sessionId claims)
                 (floor_div now 1000) expA))
    /\ (floor_div now' 1000 < expR ->
        verifyRefresh this (AuthTokens.refreshToken tokens) now' =
          inr (RefreshTokenPayload.mk (TokenClaims.userId claims)
                 (TokenClaims.sessionId claims) 1 (floor_div now 1000) expR)).
Proof.
  intros Hgen Hu He Hs.
  destruct (generateTokens_inv _ _ _ _ Hgen) as (Hk & Hkr & da & dr & Hda & Hdr).
  rewrite (generateTokens_ok claims longLived now da dr) in Hgen by done.
  injection Hgen as <-. cbn [AuthTokens.accessToken AuthTokens.refreshToken].
  exists (floor_div now 1000 + floor_div da 1000),
         (floor_div now 1000 + floor_div dr 1000).
  unfold Jwt.decode. rewrite !jws_decode_encode.
  split; [reflexivity|]. split; [reflexivity|]. split.
  - intros Hlt. by apply verifyAccessToken_issued.
  - intros Hlt. by apply verifyRefresh_issued.
Qed.

(** C5 (as amended).  A token whose embedded [exp] has passed is
    rejected, and with the one error the service has for every
    rejected token: [verifyAccessToken] throws "Invalid access token"
    and [refreshToken] throws "Invalid refresh token", whatever the
    cause; no error of [verifyAccessToken] is of another kind. *)
Theorem C5_expired_token_generic_error (token : string) (now : Z)
    (payload : JObj) (sg : string) (e : Z) :
  jws_decode token = Some (payload, sg) ->
  get "exp" payload = Some (JNum e) ->
  e <= floor_div now 1000 ->
  verifyAccessToken this token now = inl (Error "Invalid access token")
  /\ (forall Db (repo : UserRepository.t Db) db,
         refreshToken this repo
           (Zod.RefreshTokenRequest_obj (RefreshTokenRequest.mk token)) now db
         = (inl (Error "Invalid refresh token"), db))
  /\ (forall token' err,
         verifyAccessToken this token' now = inl err ->
         err = Error "Invalid access token").
Proof.
  intros Hd He Hle. split; [|split].
  - destruct (verify_expired token (JWT_SECRET this) now _ _ _ Hd He Hle)
      as [err Herr].
    by eapply verifyAccessToken_throws.
  - intros Db repo db.
    destruct (verify_expired token (JWT_REFRESH_SECRET this) now _ _ _ Hd He Hle)
      as [err Herr].
    apply (refreshToken_rejects repo token now db err).
    unfold verifyRefresh. by rewrite Herr.
  - intros token' err. apply verifyAccessToken_error.
Qed.

(** A payload that the access schema accepts has all seven
    properties. *)
Lemma JWTPayloadSchema_parse_keys o p k :
  Zod.JWTPayloadSchema_parse o = inr p ->
  In k Zod.JWTPayload_keys -> get k o <> None.
Proof.
  unfold Zod.JWTPayloadSchema_parse, Zod.string_at, Zod.role_at, Zod.number_at.
  intros Hp Hk Hnone. simpl in Hk.
  repeat (destruct Hk as [<-|Hk]; [rewrite Hnone in Hp;
    repeat (match type of Hp with
            | context [match ?x with _ => _ end] => destruct x
            end; try discriminate)|]).
  done.
Qed.

Lemma RefreshTokenPayloadSchema_parse_keys o p k :
  Zod.RefreshTokenPayloadSchema_parse o = inr p ->
  In k Zod.RefreshTokenPayload_keys -> get k o <> None.
Proof.
  unfold Zod.RefreshTokenPayloadSchema_parse, Zod.string_at, Zod.number_at.
  intros Hp Hk Hnone. simpl in Hk.
  repeat (destruct Hk as [<-|Hk]; [rewrite Hnone in Hp;
    repeat (match type of Hp with
            | context [match ?x with _ => _ end] => destruct x
            end; try discriminate)|]).
  done.
Qed.

(** Verification reads the payload through the properties it knows. *)
Lemma verifyAccessToken_agree p p' now :
  (forall k, In k ("nbf" :: Zod.JWTPayload_keys) -> get k p = get k p') ->
  verifyAccessToken this (jws_encode p (hmac (JWT_SECRET this) p)) now =
  verifyAccessToken this (jws_encode p' (hmac (JWT_SECRET this) p')) now.
Proof.
  intros Hagree. unfold verifyAccessToken.
  destruct (String.eqb_spec (JWT_SECRET this) "") as [Hk|Hk].
  { unfold Jwt.verify. rewrite !jws_decode_encode, Hk. done. }
  rewrite !verify_signed by done.
  assert (Hnbf : forall c, Jwt.check_nbf p c = Jwt.check_nbf p' c).
  { intros c. unfold Jwt.check_nbf. by rewrite (Hagree "nbf") by (simpl; tauto). }
  assert (Hexp : forall c, Jwt.check_exp p c = Jwt.check_exp p' c).
  { intros c. unfold Jwt.check_exp. by rewrite (Hagree "exp") by (simpl; tauto). }
  assert (Hparse : Zod.JWTPayloadSchema_parse p = Zod.JWTPayloadSchema_parse p').
  { unfold Zod.JWTPayloadSchema_parse, Zod.string_at, Zod.role_at, Zod.number_at.
    by rewrite (Hagree "userId"), (Hagree "email"), (Hagree "role"),
      (Hagree "timezone"), (Hagree "sessionId"), (Hagree "iat"), (Hagree "exp")
      by (simpl; tauto). }
  rewrite Hnbf, Hexp.
  destruct (Jwt.check_nbf p' _) as [|[]]; [done|].
  destruct (Jwt.check_exp p' _) as [|[]]; [done|]. cbn [bind ret].
  by rewrite Hparse.
Qed.

(** An accepted token is one whose payload the schema accepted. *)
Lemma verifyAccessToken_inr token now payload sg c :
  jws_decode token = Some (payload, sg) ->
  verifyAccessToken this token now = inr c ->
  Zod.JWTPayloadSchema_parse payload = inr c.
Proof.
  intros Hd Hv. unfold verifyAccessToken, Jwt.verify in Hv. rewrite Hd in Hv.
  destruct (String.eqb _ ""); [discriminate|].
  destruct (negb _); [discriminate|].
  destruct (Jwt.check_nbf _ _) as [|[]]; [discriminate|].
  destruct (Jwt.check_exp _ _) as [|[]]; [discriminate|]. cbn in Hv.
  by destruct (Zod.JWTPayloadSchema_parse payload); [discriminate|].
Qed.

Lemma verifyRefresh_inr token now payload sg c :
  jws_decode token = Some (payload, sg) ->
  verifyRefresh this token now = inr c ->
  Zod.RefreshTokenPayloadSchema_parse payload = inr c.
Proof.
  intros Hd Hv. unfold verifyRefresh, Jwt.verify in Hv. rewrite Hd in Hv.
  destruct (String.eqb _ ""); [discriminate|].
  destruct (negb _); [discriminate|].
  destruct (Jwt.check_nbf _ _) as [|[]]; [discriminate|].
  by destruct (Jwt.check_exp _ _) as [|[]]; [discriminate|].
Qed.

(** The same for the verification step of [refreshToken]. *)
Lemma verifyRefresh_agree p p' now :
  (forall k, In k ("nbf" :: Zod.RefreshTokenPayload_keys) -> get k p = get k p') ->
  verifyRefresh this (jws_encode p (hmac (JWT_REFRESH_SECRET this) p)) now =
  verifyRefresh this (jws_encode p' (hmac (JWT_REFRESH_SECRET this) p')) now.
Proof.
  intros Hagree. unfold verifyRefresh.
  destruct (String.eqb_spec (JWT_REFRESH_SECRET this) "") as [Hk|Hk].
  { unfold Jwt.verify. rewrite !jws_decode_encode, Hk. done. }
  rewrite !verify_signed by done.
  assert (Hnbf : forall c, Jwt.check_nbf p c = Jwt.check_nbf p' c).
  { intros c. unfold Jwt.check_nbf. by rewrite (Hagree "nbf") by (simpl; tauto). }
  assert (Hexp : forall c, Jwt.check_exp p c = Jwt.check_exp p' c).
  { intros c. unfold Jwt.check_exp. by rewrite (Hagree "exp") by (simpl; tauto). }
  assert (Hparse : Zod.RefreshTokenPayloadSchema_parse p
                   = Zod.RefreshTokenPayloadSchema_parse p').
  { unfold Zod.RefreshTokenPayloadSchema_parse, Zod.string_at, Zod.number_at.
    by rewrite (Hagree "userId"), (Hagree "sessionId"), (Hagree "tokenVersion"),
      (Hagree "iat"), (Hagree "exp") by (simpl; tauto). }
  rewrite Hnbf, Hexp.
  destruct (Jwt.check_nbf p' _) as [|[]]; [done|].
  destruct (Jwt.check_exp p' _) as [|[]]; [done|]. cbn [bind ret].
  by rewrite Hparse.
Qed.

(** A property added behind the others is read under its own name
    only. *)
Lemma get_snoc_other (p : JObj) k v k' :
  k' <> k -> get k' (p ++ [(k, v)]) = get k' p.
Proof.
  intros Hne. induction p as [|[k0 v0] p IH]; simpl.
  - by destruct (String.eqb_spec k' k).
  - by rewrite IH.
Qed.

(** A token that is not yet valid is refused. *)
Lemma verify_not_before token k now payload sg n :
  jws_decode token = Some (payload, sg) ->
  get "nbf" payload = Some (JNum n) ->
  floor_div now 1000 < n ->
  exists err, Jwt.verify token k now = inl err.
Proof.
  intros Hd Hn Hlt. unfold Jwt.verify. rewrite Hd.
  destruct (String.eqb k ""); [eauto|].
  destruct (negb _); [eauto|].
  unfold Jwt.check_nbf. rewrite Hn.
  destruct (n >? floor_div now 1000) eqn:Hgt; [simpl; eauto|lia].
Qed.

(** C6 (as amended).  Verification accepts a token only if its payload
    holds every property of the expected claim set, each of the expected
    type and format; in particular it rejects every token whose payload
    lacks one of them, for access tokens and for refresh tokens alike,
    valid signature or not.  Properties outside the claim set are not
    grounds for rejection.  For both kinds of token, two validly signed
    tokens whose payloads agree on the claim set and on [nbf] are treated
    alike, by [verifyAccessToken] and by [refreshToken]; so a property of
    any other name, added to a payload, is ignored and dropped from the
    returned claims.  [nbf], which is in no claim set, is the exception:
    [jwt.verify] reads it, and a token that carries a date in the future
    there is refused. *)
Theorem C6_schema_checked_extras_ignored (now : Z) :
  (forall token payload sg c,
      jws_decode token = Some (payload, sg) ->
      verifyAccessToken this token now = inr c ->
      get "userId" payload = Some (JStr (JWTPayload.userId c))
      /\ is_uuid (JWTPayload.userId c) = true
      /\ get "email" payload = Some (JStr (JWTPayload.email c))
      /\ is_email (JWTPayload.email c) = true
      /\ get "role" payload = Some (JStr (role_name (JWTPayload.role c)))
      /\ get "timezone" payload = Some (JStr (JWTPayload.timezone c))
      /\ get "sessionId" payload = Some (JStr (JWTPayload.sessionId c))
      /\ is_uuid (JWTPayload.sessionId c) = true
      /\ get "iat" payload = Some (JNum (JWTPayload.iat c))
      /\ get "exp" payload = Some (JNum (JWTPayload.exp c)))
  /\ (forall token payload sg c,
         jws_decode token = Some (payload, sg) ->
         verifyRefresh this token now = inr c ->
         get "userId" payload = Some (JStr (RefreshTokenPayload.userId c))
         /\ is_uuid (RefreshTokenPayload.userId c) = true
         /\ get "sessionId" payload = Some (JStr (RefreshTokenPayload.sessionId c))
         /\ is_uuid (RefreshTokenPayload.sessionId c) = true
         /\ get "tokenVersion" payload
            = Some (JNum (RefreshTokenPayload.tokenVersion c))
         /\ get "iat" payload = Some (JNum (RefreshTokenPayload.iat c))
         /\ get "exp" payload = Some (JNum (RefreshTokenPayload.exp c)))
  /\ (forall token payload sg k,
         jws_decode token = Some (payload, sg) ->
         In k Zod.JWTPayload_keys -> get k payload = None ->
         verifyAccessToken this token now = inl (Error "Invalid access token"))
  /\ (forall Db (repo : UserRepository.t Db) db token payload sg k,
         jws_decode token = Some (payload, sg) ->
         In k Zod.RefreshTokenPayload_keys -> get k payload = None ->
         refreshToken this repo
           (Zod.RefreshTokenRequest_obj (RefreshTokenRequest.mk token)) now db
         = (inl (Error "Invalid refresh token"), db))
  /\ (forall p p',
         (forall k, In k ("nbf" :: Zod.JWTPayload_keys) -> get k p = get k p') ->
         verifyAccessToken this (jws_encode p (hmac (JWT_SECRET this) p)) now =
         verifyAccessToken this (jws_encode p' (hmac (JWT_SECRET this) p')) now)
  /\ (forall p p' Db (repo : UserRepository.t Db) db,
         (forall k, In k ("nbf" :: Zod.RefreshTokenPayload_keys) ->
                    get k p = get k p') ->
         let R := jws_encode p (hmac (JWT_REFRESH_SECRET this) p) in
         let R' := jws_encode p' (hmac (JWT_REFRESH_SECRET this) p') in
         verifyRefresh this R now = verifyRefresh this R' now
         /\ refreshToken this repo
              (Zod.RefreshTokenRequest_obj (RefreshTokenRequest.mk R)) now db
            = refreshToken this repo
                (Zod.RefreshTokenRequest_obj (RefreshTokenRequest.mk R')) now db)
  /\ (forall p k v,
         ~ In k ("nbf" :: Zod.JWTPayload_keys) ->
         let p' := p ++ [(k, v)] in
         verifyAccessToken this (jws_encode p' (hmac (JWT_SECRET this) p')) now
         = verifyAccessToken this (jws_encode p (hmac (JWT_SECRET this) p)) now)
  /\ (forall p k v Db (repo : UserRepository.t Db) db,
         ~ In k ("nbf" :: Zod.RefreshTokenPayload_keys) ->
         let p' := p ++ [(k, v)] in
         refreshToken this repo
           (Zod.RefreshTokenRequest_obj
              (RefreshTokenRequest.mk
                 (jws_encode p' (hmac (JWT_REFRESH_SECRET this) p')))) now db
         = refreshToken this repo
             (Zod.RefreshTokenRequest_obj
                (RefreshTokenRequest.mk
                   (jws_encode p (hmac (JWT_REFRESH_SECRET this) p)))) now db)
  /\ (forall token payload sg n Db (repo : UserRepository.t Db) db,
         jws_decode token = Some (payload, sg) ->
         get "nbf" payload = Some (JNum n) ->
         floor_div now 1000 < n ->
         verifyAccessToken this token now = inl (Error "Invalid access token")
         /\ refreshToken this repo
              (Zod.RefreshTokenRequest_obj (RefreshTokenRequest.mk token)) now db
            = (inl (Error "Invalid refresh token"), db)).
Proof.
  split; [|split; [|split; [|split; [|split; [|split; [|split; [|split]]]]]]].
  - intros token payload sg c Hd Hv.
    apply JWTPayloadSchema_parse_inv. by eapply verifyAccessToken_inr.
  - intros token payload sg c Hd Hv.
    apply RefreshTokenPayloadSchema_parse_inv. by eapply verifyRefresh_inr.
  - intros token payload sg k Hd Hk Hnone.
    destruct (verifyAccessToken this token now) as [err|claims] eqn:Hv.
    { f_equal. by eapply verifyAccessToken_error. }
    exfalso.
    by apply (JWTPayloadSchema_parse_keys payload claims k
                (verifyAccessToken_inr _ _ _ _ _ Hd Hv) Hk).
  - intros Db repo db token payload sg k Hd Hk Hnone.
    destruct (verifyRefresh this token now) as [err|claims] eqn:Hv.
    { by eapply refreshToken_rejects. }
    exfalso.
    by apply (RefreshTokenPayloadSchema_parse_keys payload claims k
                (verifyRefresh_inr _ _ _ _ _ Hd Hv) Hk).
  - intros p p'. apply verifyAccessToken_agree.
  - intros p p' Db repo db Hagree R R'.
    assert (Hv : verifyRefresh this R now = verifyRefresh this R' now)
      by (by apply verifyRefresh_agree).
    split; [done|].
    apply refreshToken_by_verification; [apply jws_encode_nonempty..|done].
  - intros p k v Hk p'.
    apply verifyAccessToken_agree. intros k0 Hk0. unfold p'.
    apply get_snoc_other. by intros ->.
  - intros p k v Db repo db Hk p'.
    apply refreshToken_by_verification; [apply jws_encode_nonempty..|].
    apply verifyRefresh_agree. intros k0 Hk0. unfold p'.
    apply get_snoc_other. by intros ->.
  - intros token payload sg n Db repo db Hd Hn Hlt. split.
    + destruct (verify_not_before token (JWT_SECRET this) now _ _ _ Hd Hn Hlt)
        as [err Herr].
      by eapply verifyAccessToken_throws.
    + destruct (verify_not_before token (JWT_REFRESH_SECRET this) now _ _ _
                  Hd Hn Hlt) as [err Herr].
      apply (refreshToken_rejects repo token now db err).
      unfold verifyRefresh. by rewrite Herr.
Qed.

Lemma constructor_inv env :
  constructor env = inr this ->
  Env.JWT_SECRET env = Some (JWT_SECRET this)
  /\ JWT_SECRET this <> ""
  /\ JWT_REFRESH_SECRET this <> ""
  /\ JWT_REFRESH_SECRET this =
       match Env.JWT_REFRESH_SECRET env with
       | Some r => if String.eqb r "" then JWT_SECRET this else r
       | None => JWT_SECRET this
       end.
Proof.
  unfold constructor, Js.or. destruct env as [[sec|] rs ? ? ?]; cbn.
  - destruct (String.eqb_spec sec "") as [->|Hne].
    + destruct rs as [r|]; cbn; [|discriminate].
      destruct (String.eqb r ""); cbn; discriminate.
    + destruct rs as [r|]; cbn.
      * destruct (String.eqb_spec r ""); cbn; by intros [= <-].
      * by intros [= <-].
  - destruct rs as [r|]; cbn; [|discriminate].
    destruct (String.eqb r ""); cbn; discriminate.
Qed.

(** C7 (as amended).  The constructor takes the refresh secret from
    [JWT_REFRESH_SECRET] when that variable is set and not empty, and
    falls back to the access secret otherwise.  [generateTokens] signs
    the access token under the access secret and the refresh token under
    the refresh secret, each over the payload it builds, and each kind is
    verified under its own secret.  A token signed under one of the two
    secrets passes the signature check under the other exactly when both
    give its payload the same HMAC tag, which equal secrets always do. *)
Theorem C7_secrets_independent_when_configured (env : Env.t) :
  constructor env = inr this ->
  JWT_REFRESH_SECRET this =
    match Env.JWT_REFRESH_SECRET env with
    | Some r => if String.eqb r "" then JWT_SECRET this else r
    | None => JWT_SECRET this
    end
  /\ (forall claims longLived now tokens,
        generateTokens this claims longLived now = inr tokens ->
        exists A R,
          Jwt.sign (accessTokenPayload claims) (JWT_SECRET this)
            (JWT_EXPIRES_IN this) now
          = inr (AuthTokens.accessToken tokens)
          /\ Jwt.sign (refreshTokenPayload claims) (JWT_REFRESH_SECRET this)
               (refreshTokenExpiry this longLived) now
             = inr (AuthTokens.refreshToken tokens)
          /\ AuthTokens.accessToken tokens
             = jws_encode A (hmac (JWT_SECRET this) A)
          /\ AuthTokens.refreshToken tokens
             = jws_encode R (hmac (JWT_REFRESH_SECRET this) R))
  /\ (forall payload now,
        let signed_access := jws_encode payload (hmac (JWT_SECRET this) payload) in
        let signed_refresh :=
          jws_encode payload (hmac (JWT_REFRESH_SECRET this) payload) in
        (hmac (JWT_SECRET this) payload <> hmac (JWT_REFRESH_SECRET this) payload ->
         Jwt.verify signed_access (JWT_REFRESH_SECRET this) now
         = inl (JsonWebTokenError "invalid signature")
         /\ Jwt.verify signed_refresh (JWT_SECRET this) now
            = inl (JsonWebTokenError "invalid signature")
         /\ verifyRefresh this signed_access now
            = inl (JsonWebTokenError "invalid signature")
         /\ verifyAccessToken this signed_refresh now
            = inl (Error "Invalid access token"))
        /\ (hmac (JWT_SECRET this) payload = hmac (JWT_REFRESH_SECRET this) payload ->
            Jwt.verify signed_access (JWT_REFRESH_SECRET this) now
            = Jwt.verify signed_access (JWT_SECRET this) now
            /\ Jwt.verify signed_refresh (JWT_SECRET this) now
               = Jwt.verify signed_refresh (JWT_REFRESH_SECRET this) now)).
Proof.
  intros Hc. destruct (constructor_inv env Hc) as (_ & Hk & Hkr & Hr).
  split; [done|]. split.
  - intros claims longLived now tokens Hg.
    destruct (generateTokens_inv _ _ _ _ Hg) as (_ & _ & da & dr & Hda & Hdr).
    rewrite (generateTokens_ok claims longLived now da dr) in Hg by done.
    injection Hg as <-. cbn [AuthTokens.accessToken AuthTokens.refreshToken].
    rewrite (sign_ok _ _ _ _ da), (sign_ok _ _ _ _ dr) by done. eauto 10.
  - intros payload now signed_access signed_refresh. split.
    + intros Hne.
      assert (H1 : Jwt.verify signed_access (JWT_REFRESH_SECRET this) now
                   = inl (JsonWebTokenError "invalid signature"))
        by (by apply verify_other_key).
      assert (H2 : Jwt.verify signed_refresh (JWT_SECRET this) now
                   = inl (JsonWebTokenError "invalid signature"))
        by (apply verify_other_key; [congruence|done]).
      split; [done|]. split; [done|]. split.
      * unfold verifyRefresh. by rewrite H1.
      * by eapply verifyAccessToken_throws.
    + intros Heq. split.
      * unfold signed_access. rewrite verify_same_tag, verify_signed by done. done.
      * unfold signed_refresh.
        rewrite verify_same_tag, verify_signed by done. done.
Qed.

End WithLibraries.
End TokenFacts.


(** Runs of the service under the reference libraries. *)
Module TokenExamples.
Import AuthService ReferenceFacts TokenFacts.

#[local] Existing Instance Reference.libraries.
#[local] Existing Instance libraries_ok.
#[local] Opaque Reference.libraries.

Definition alice_claims : TokenClaims.t :=
  TokenClaims.mk "123e4567-e89b-12d3-a456-426614174000" "alice@example.com"
    developer "Europe/Vienna" "7d9f0c1e-5b2a-4e6f-9a3b-2c1d0e9f8a7b".

Lemma alice_userId : is_uuid (TokenClaims.userId alice_claims) = true.
Proof. vm_compute. reflexivity. Qed.

Lemma alice_email : is_email (TokenClaims.email alice_claims) = true.
Proof. vm_compute. reflexivity. Qed.

Lemma alice_sessionId : is_uuid (TokenClaims.sessionId alice_claims) = true.
Proof. vm_compute. reflexivity. Qed.

Lemma ms_15m : ms "15m" = Some 900000.
Proof. vm_compute. reflexivity. Qed.

Lemma ms_7d : ms "7d" = Some 604800000.
Proof. vm_compute. reflexivity. Qed.

Lemma ms_0s : ms "0s" = Some 0.
Proof. vm_compute. reflexivity. Qed.

(** The payloads and tokens issued for Alice at second 1700000000. *)
Definition issued_access : JObj :=
  Jwt.with_dates (accessTokenPayload alice_claims)
    (floor_div 1700000000000 1000) 900000.

Definition issued_refresh : JObj :=
  Jwt.with_dates (refreshTokenPayload alice_claims)
    (floor_div 1700000000000 1000) 604800000.

Definition alice_tokens : AuthTokens.t :=
  AuthTokens.mk (jws_encode issued_access (hmac "access-secret" issued_access))
    (jws_encode issued_refresh (hmac "refresh-secret" issued_refresh))
    (floor_div 900000 1000) "Bearer".

Lemma alice_tokens_issued :
  generateTokens service alice_claims false 1700000000000 = inr alice_tokens.
Proof.
  apply (generateTokens_ok service alice_claims false 1700000000000
           900000 604800000); [discriminate|discriminate|exact ms_15m|exact ms_7d].
Qed.

(** Tokens issued at second 1700000000, verified a minute later. *)
Lemma C4_round_trip_witness :
  exists expA expR,
    (Jwt.decode (AuthTokens.accessToken alice_tokens) ≫= get "exp")
    = Some (JNum expA)
    /\ (Jwt.decode (AuthTokens.refreshToken alice_tokens) ≫= get "exp")
       = Some (JNum expR)
    /\ (floor_div 1700000060000 1000 < expA ->
        verifyAccessToken service (AuthTokens.accessToken alice_tokens)
          1700000060000 =
          inr (JWTPayload.mk (TokenClaims.userId alice_claims)
                 (TokenClaims.email alice_claims) (TokenClaims.role alice_claims)
                 (TokenClaims.timezone alice_claims)
                 (TokenClaims.sessionId alice_claims)
                 (floor_div 1700000000000 1000) expA))
    /\ (floor_div 1700000060000 1000 < expR ->
        verifyRefresh service (AuthTokens.refreshToken alice_tokens)
          1700000060000 =
          inr (RefreshTokenPayload.mk (TokenClaims.userId alice_claims)
                 (TokenClaims.sessionId alice_claims) 1
                 (floor_div 1700000000000 1000) expR)).
Proof.
  exact (C4_round_trip service alice_claims false 1700000000000 1700000060000
           alice_tokens alice_tokens_issued alice_userId alice_email
           alice_sessionId).
Defined.

(** A service whose access tokens live zero seconds. *)
Definition service_ttl0 : AuthService.t :=
  AuthService.mk "access-secret" "refresh-secret" "0s" "7d" (Some 12).

Definition ttl0_payload : JObj :=
  Jwt.with_dates (accessTokenPayload alice_claims) (floor_div 1700000000000 1000) 0.

Definition ttl0_token : string :=
  jws_encode ttl0_payload (hmac "access-secret" ttl0_payload).

Lemma ttl0_issued :
  exists refresh ttl,
    generateTokens service_ttl0 alice_claims false 1700000000000
    = inr (AuthTokens.mk ttl0_token refresh ttl "Bearer").
Proof.
  do 2 eexists.
  apply (generateTokens_ok service_ttl0 alice_claims false 1700000000000
           0 604800000); [discriminate|discriminate|exact ms_0s|exact ms_7d].
Qed.

Lemma ttl0_decodes :
  jws_decode ttl0_token = Some (ttl0_payload, hmac "access-secret" ttl0_payload).
Proof. apply jws_decode_encode. Qed.

Lemma ttl0_exp : get "exp" ttl0_payload = Some (JNum 1700000000).
Proof. vm_compute. reflexivity. Qed.

Lemma ttl0_passed : 1700000000 <= floor_div 1700000000000 1000.
Proof. vm_compute. discriminate. Qed.

Lemma C5_expired_token_generic_error_witness :
  verifyAccessToken service_ttl0 ttl0_token 1700000000000
  = inl (Error "Invalid access token")
  /\ (forall Db (repo : UserRepository.t Db) db,
         refreshToken service_ttl0 repo
           (Zod.RefreshTokenRequest_obj (RefreshTokenRequest.mk ttl0_token))
           1700000000000 db
         = (inl (Error "Invalid refresh token"), db))
  /\ (forall token' err,
         verifyAccessToken service_ttl0 token' 1700000000000 = inl err ->
         err = Error "Invalid access token").
Proof.
  exact (C5_expired_token_generic_error service_ttl0 ttl0_token 1700000000000
           ttl0_payload (hmac "access-secret" ttl0_payload) 1700000000
           ttl0_decodes ttl0_exp ttl0_passed).
Defined.

(** C5 as stated fails: the access token issued with a zero time span is
    expired for [jwt.verify], which throws [TokenExpiredError], but
    [verifyAccessToken] replaces that by its one error, the same it throws
    for a string that is no token at all. *)
Lemma C5_expired_is_not_TokenExpired :
  Jwt.verify ttl0_token (JWT_SECRET service_ttl0) 1700000000000
  = inl TokenExpiredError
  /\ verifyAccessToken service_ttl0 ttl0_token 1700000000000
     = inl (Error "Invalid access token")
  /\ verifyAccessToken service_ttl0 ttl0_token 1700000000000
     <> inl TokenExpiredError
  /\ (exists e, Jwt.verify "not-a-jws" (JWT_SECRET service_ttl0) 1700000000000
                = inl (JsonWebTokenError e))
  /\ verifyAccessToken service_ttl0 "not-a-jws" 1700000000000
     = verifyAccessToken service_ttl0 ttl0_token 1700000000000.
Proof.
  assert (Hv : Jwt.verify ttl0_token (JWT_SECRET service_ttl0) 1700000000000
               = inl TokenExpiredError).
  { apply (verify_signed_expired ttl0_payload "access-secret" 1700000000000
             1700000000);
      [discriminate|vm_compute; reflexivity|exact ttl0_exp|exact ttl0_passed]. }
  assert (Ha : verifyAccessToken service_ttl0 ttl0_token 1700000000000
               = inl (Error "Invalid access token")).
  { exact (verifyAccessToken_throws service_ttl0 _ _ _ Hv). }
  assert (Hg : Jwt.verify "not-a-jws" (JWT_SECRET service_ttl0) 1700000000000
               = inl (JsonWebTokenError "jwt malformed")).
  { vm_compute. reflexivity. }
  split; [exact Hv|]. split; [exact Ha|]. split; [rewrite Ha; discriminate|].
  split; [eexists; exact Hg|].
  rewrite Ha. exact (verifyAccessToken_throws service_ttl0 _ _ _ Hg).
Qed.

Definition extra_payload : JObj :=
  issued_access ++ [("admin", JBool true)].

Definition extra_token : string :=
  jws_encode extra_payload (hmac (JWT_SECRET service) extra_payload).

Definition plain_token : string :=
  jws_encode issued_access (hmac (JWT_SECRET service) issued_access).

Lemma extra_agrees k :
  In k ("nbf" :: Zod.JWTPayload_keys) -> get k extra_payload = get k issued_access.
Proof.
  intros Hk. simpl in Hk.
  repeat (destruct Hk as [<-|Hk]; [vm_compute; reflexivity|]). destruct Hk.
Qed.

Lemma plain_token_verifies :
  verifyAccessToken service plain_token 1700000060000
  = inr (JWTPayload.mk "123e4567-e89b-12d3-a456-426614174000"
           "alice@example.com" developer "Europe/Vienna"
           "7d9f0c1e-5b2a-4e6f-9a3b-2c1d0e9f8a7b" 1700000000 1700000900).
Proof.
  unfold plain_token, issued_access.
  rewrite (verifyAccessToken_issued service alice_claims
             (floor_div 1700000000000 1000) 900000 1700000060000
             ltac:(discriminate) alice_userId alice_email alice_sessionId);
    vm_compute; reflexivity.
Qed.

(** C6 as stated fails: a validly signed access token that carries the
    property [admin], which the claim set does not have, passes
    [jwt.verify] and is accepted; the property is dropped from the claims
    returned. *)
Lemma C6_unknown_property_accepted :
  get "admin" extra_payload = Some (JBool true)
  /\ ~ In "admin" Zod.JWTPayload_keys
  /\ verifyAccessToken service extra_token 1700000060000
     = inr (JWTPayload.mk "123e4567-e89b-12d3-a456-426614174000"
              "alice@example.com" developer "Europe/Vienna"
              "7d9f0c1e-5b2a-4e6f-9a3b-2c1d0e9f8a7b" 1700000000 1700000900).
Proof.
  split; [vm_compute; reflexivity|]. split.
  { simpl. intros Hin. repeat (destruct Hin as [Hin|Hin]; [discriminate Hin|]).
    destruct Hin. }
  unfold extra_token.
  rewrite (verifyAccessToken_agree service extra_payload issued_access
             1700000060000 extra_agrees).
  exact plain_token_verifies.
Qed.

Definition lacking_payload : JObj :=
  [("userId", JStr "123e4567-e89b-12d3-a456-426614174000");
   ("iat", JNum 1700000000); ("exp", JNum 1700000900)].

Definition lacking_token : string :=
  jws_encode lacking_payload (hmac (JWT_SECRET service) lacking_payload).

Lemma lacking_decodes :
  jws_decode lacking_token
  = Some (lacking_payload, hmac (JWT_SECRET service) lacking_payload).
Proof. apply jws_decode_encode. Qed.

Lemma lacking_sessionId : get "sessionId" lacking_payload = None.
Proof. vm_compute. reflexivity. Qed.

Definition extra_refresh : JObj :=
  issued_refresh ++ [("admin", JBool true)].

Lemma admin_is_extra :
  ~ In "admin" ("nbf" :: Zod.RefreshTokenPayload_keys).
Proof.
  simpl. intros Hin. repeat (destruct Hin as [Hin|Hin]; [discriminate Hin|]).
  destruct Hin.
Qed.

(** A validly signed token without [sessionId] is rejected; an access
    token with an extra property verifies like the one without it, and a
    refresh token with an extra property is traded in like the one
    without it. *)
Lemma C6_schema_checked_extras_ignored_witness :
  verifyAccessToken service lacking_token 1700000060000
  = inl (Error "Invalid access token")
  /\ verifyAccessToken service extra_token 1700000060000
     = verifyAccessToken service plain_token 1700000060000
  /\ (forall Db (repo : UserRepository.t Db) db,
         refreshToken service repo
           (Zod.RefreshTokenRequest_obj
              (RefreshTokenRequest.mk
                 (jws_encode extra_refresh
                    (hmac (JWT_REFRESH_SECRET service) extra_refresh))))
           1700000060000 db
         = refreshToken service repo
             (Zod.RefreshTokenRequest_obj
                (RefreshTokenRequest.mk
                   (jws_encode issued_refresh
                      (hmac (JWT_REFRESH_SECRET service) issued_refresh))))
             1700000060000 db).
Proof.
  pose proof (C6_schema_checked_extras_ignored service 1700000060000)
    as (_ & _ & Hmiss & _ & Hagree & _ & _ & Hextra & _).
  split; [|split].
  - exact (Hmiss lacking_token lacking_payload _ "sessionId" lacking_decodes
             ltac:(simpl; tauto) lacking_sessionId).
  - exact (Hagree extra_payload issued_access extra_agrees).
  - intros Db repo db.
    exact (Hextra issued_refresh "admin" (JBool true) Db repo db admin_is_extra).
Defined.

Lemma tags_differ (payload : JObj) :
  hmac (JWT_SECRET service) payload <> hmac (JWT_REFRESH_SECRET service) payload.
Proof. apply hmac_differs. discriminate. Qed.

(** With two secrets configured, the tokens issued for Alice are signed
    under them, and neither passes under the secret of the other
    kind. *)
Lemma C7_secrets_independent_when_configured_witness :
  Jwt.sign (accessTokenPayload alice_claims) (JWT_SECRET service)
    (JWT_EXPIRES_IN service) 1700000000000
  = inr (AuthTokens.accessToken alice_tokens)
  /\ Jwt.sign (refreshTokenPayload alice_claims) (JWT_REFRESH_SECRET service)
       (refreshTokenExpiry service false) 1700000000000
     = inr (AuthTokens.refreshToken alice_tokens)
  /\ Jwt.verify (AuthTokens.accessToken alice_tokens)
       (JWT_REFRESH_SECRET service) 1700000060000
     = inl (JsonWebTokenError "invalid signature")
  /\ Jwt.verify (AuthTokens.refreshToken alice_tokens)
       (JWT_SECRET service) 1700000060000
     = inl (JsonWebTokenError "invalid signature").
Proof.
  destruct (C7_secrets_independent_when_configured service env constructor_env)
    as (_ & Hsign & Hdiff).
  destruct (Hsign alice_claims false 1700000000000 alice_tokens
              alice_tokens_issued) as (A & R & HA & HR & _ & _).
  split; [exact HA|]. split; [exact HR|]. split.
  - exact (proj1 (proj1 (Hdiff issued_access 1700000060000)
                    (tags_differ issued_access))).
  - exact (proj1 (proj2 (proj1 (Hdiff issued_refresh 1700000060000)
                           (tags_differ issued_refresh)))).
Defined.

(** The environment with [JWT_SECRET] alone. *)
Definition env_one_secret : Env.t :=
  Env.mk (Some "access-secret") None None None None.

Definition service_one_secret : AuthService.t :=
  AuthService.mk "access-secret" "access-secret" "15m" "7d" (Some 12).

Lemma constructor_one_secret : constructor env_one_secret = inr service_one_secret.
Proof. vm_compute. reflexivity. Qed.

Lemma one_secret_issues :
  exists refresh ttl,
    generateTokens service_one_secret alice_claims false 1700000000000
    = inr (AuthTokens.mk
             (jws_encode issued_access
                (hmac (JWT_SECRET service_one_secret) issued_access))
             refresh ttl "Bearer").
Proof.
  do 2 eexists.
  apply (generateTokens_ok service_one_secret alice_claims false 1700000000000
           900000 604800000); [discriminate|discriminate|exact ms_15m|exact ms_7d].
Qed.

(** C7 as stated fails for the configuration that sets [JWT_SECRET]
    alone: both kinds of token are then signed under the same secret, and
    the access token the service issues passes [jwt.verify] under the
    refresh secret. *)
Lemma C7_same_secret_when_refresh_unset :
  constructor env_one_secret = inr service_one_secret
  /\ JWT_REFRESH_SECRET service_one_secret = JWT_SECRET service_one_secret
  /\ (exists refresh ttl,
         generateTokens service_one_secret alice_claims false 1700000000000
         = inr (AuthTokens.mk
                  (jws_encode issued_access
                     (hmac (JWT_SECRET service_one_secret) issued_access))
                  refresh ttl "Bearer"))
  /\ Jwt.verify
       (jws_encode issued_access
          (hmac (JWT_SECRET service_one_secret) issued_access))
       (JWT_REFRESH_SECRET service_one_secret) 1700000060000
     = inr issued_access.
Proof.
  split; [exact constructor_one_secret|]. split; [reflexivity|].
  split; [exact one_secret_issues|].
  change (JWT_REFRESH_SECRET service_one_secret)
    with (JWT_SECRET service_one_secret).
  rewrite verify_signed by discriminate. vm_compute. reflexivity.
Qed.

End TokenExamples.


(* --------------------------------------------------------------------- *)
(** ** [login] and [POST /login]                                          *)
(* --------------------------------------------------------------------- *)

Module LoginFacts.
Import AuthService Routes ZodFacts.

Section WithLibraries.
Context `{Libraries}.

(** What the handler hands to the service parses to itself. *)
Lemma LoginRequest_reparse body data :
  Zod.LoginRequestSchema_parse body = inr data ->
  Zod.LoginRequestSchema_parse (Zod.LoginRequest_obj data) = inr data.
Proof.
  unfold Zod.LoginRequestSchema_parse. intros Hp.
  destruct (Zod.string_at _ "email" body) as [e|] eqn:He; [|discriminate].
  destruct (Zod.string_at _ "password" body) as [pw|] eqn:Hpw; [|discriminate].
  destruct (Zod.optional _ "timezone" body) as [tz|]; [|discriminate].
  destruct (Zod.default _ _ "rememberMe" body) as [rm|]; [|discriminate].
  injection Hp as <-.
  apply string_at_Some in He as [_ He], Hpw as [_ Hpw].
  unfold Zod.LoginRequest_obj, Zod.string_at, Zod.optional, Zod.default,
    Zod.boolean_at.
  cbn [LoginRequest.email LoginRequest.password LoginRequest.timezone
       LoginRequest.rememberMe].
  destruct tz as [tz|]; cbn [app get String.eqb Ascii.eqb Bool.eqb fmap option_fmap
                             option_map Zod.any_string];
    by rewrite He, Hpw.
Qed.

(** An accepted body holds an e-mail address. *)
Lemma LoginRequest_email body data :
  Zod.LoginRequestSchema_parse body = inr data ->
  is_email (LoginRequest.email data) = true.
Proof.
  unfold Zod.LoginRequestSchema_parse. intros Hp.
  destruct (Zod.string_at _ "email" body) as [e|] eqn:He; [|discriminate].
  destruct (Zod.string_at _ "password" body) as [pw|]; [|discriminate].
  destruct (Zod.optional _ "timezone" body) as [tz|]; [|discriminate].
  destruct (Zod.default _ _ "rememberMe" body) as [rm|]; [|discriminate].
  injection Hp as <-. apply string_at_Some in He as [_ He].
  by apply andb_prop in He as [He _].
Qed.

Variable this : AuthService.t.

Section WithRepository.
Context {Db : Type} (repo : UserRepository.t Db).

(** The service, case by case. *)
Lemma login_unknown loginData data now sessionId db db' :
  Zod.LoginRequestSchema_parse loginData = inr data ->
  UserRepository.findByEmail repo (LoginRequest.email data) db = (inr None, db') ->
  login this repo loginData now sessionId db
  = (inl (Error "Invalid email or password"), db').
Proof.
  intros Hp Hf. unfold login, try_catchM, bindM, liftM, throwM.
  by rewrite Hp, Hf.
Qed.

Lemma login_inactive loginData data now sessionId db db' u :
  Zod.LoginRequestSchema_parse loginData = inr data ->
  UserRepository.findByEmail repo (LoginRequest.email data) db = (inr (Some u), db') ->
  UserEntity.is_active u = false ->
  login this repo loginData now sessionId db
  = (inl (Error "Account is deactivated"), db').
Proof.
  intros Hp Hf Ha. unfold login, try_catchM, bindM, liftM, throwM.
  by rewrite Hp, Hf, Ha.
Qed.

Lemma login_wrong_password loginData data now sessionId db db' u :
  Zod.LoginRequestSchema_parse loginData = inr data ->
  UserRepository.findByEmail repo (LoginRequest.email data) db = (inr (Some u), db') ->
  UserEntity.is_active u = true ->
  bcrypt_compare (LoginRequest.password data) (UserEntity.password_hash u) = false ->
  login this repo loginData now sessionId db
  = (inl (Error "Invalid email or password"), db').
Proof.
  intros Hp Hf Ha Hc. unfold login, try_catchM, bindM, liftM, throwM.
  by rewrite Hp, Hf, Ha, Hc.
Qed.

(** The handler maps both messages of the service to one response. *)
Lemma login_error_401 now :
  login_error (Error "Invalid email or password") now
  = error_response 401 "AUTHENTICATION_FAILED" "Invalid email or password" now None
  /\ login_error (Error "Account is deactivated") now
     = error_response 401 "AUTHENTICATION_FAILED" "Invalid email or password" now None.
Proof. split; reflexivity. Qed.

(** The handler of [POST /login] answers a well-formed body with 401
    [AUTHENTICATION_FAILED], message "Invalid email or password", in each
    of three cases in which the look-up returns: it finds nothing, the
    account found is inactive, the password does not verify against the
    stored hash.  The response is the same value in the three cases. *)
Lemma login_failures_same_response (body : JObj)
    (data : LoginRequest.t) (now : Z) (sessionId : string) (db db' : Db)
    (found : option UserEntity.t) :
  Zod.LoginRequestSchema_parse body = inr data ->
  UserRepository.findByEmail repo (LoginRequest.email data) db = (inr found, db') ->
  (found = None
   \/ (exists u, found = Some u /\ UserEntity.is_active u = false)
   \/ (exists u, found = Some u
                 /\ bcrypt_compare (LoginRequest.password data)
                      (UserEntity.password_hash u) = false)) ->
  login_handler this repo body now sessionId db
  = (error_response 401 "AUTHENTICATION_FAILED" "Invalid email or password" now None,
     db').
Proof.
  intros Hp Hf Hcase. unfold login_handler. rewrite Hp.
  pose proof (LoginRequest_reparse body data Hp) as Hp'.
  destruct (login_error_401 now) as [Hbad Hoff].
  destruct Hcase as [-> | [(u & -> & Ha) | (u & -> & Hc)]].
  - by rewrite (login_unknown _ data _ _ _ db').
  - by rewrite (login_inactive _ data _ _ _ db' u).
  - destruct (UserEntity.is_active u) eqn:Ha.
    + by rewrite (login_wrong_password _ data _ _ _ db' u).
    + by rewrite (login_inactive _ data _ _ _ db' u).
Qed.

(** When the look-up throws, so does [login], with the same error. *)
Lemma login_lookup_throws loginData data now sessionId db db' error :
  Zod.LoginRequestSchema_parse loginData = inr data ->
  UserRepository.findByEmail repo (LoginRequest.email data) db = (inl error, db') ->
  login this repo loginData now sessionId db = (inl error, db').
Proof.
  intros Hp Hf. unfold login, try_catchM, bindM, liftM, throwM.
  by rewrite Hp, Hf.
Qed.

End WithRepository.

(** With the PostgreSQL repository, on rows that pass the entity schema,
    the service itself throws one and the same error in the three cases:
    the look-up sees active rows only. *)
Lemma login_pg_one_error `{!StoreOk} uuid dbnow loginData data now sessionId
    (db : Pg.Table) :
  Zod.LoginRequestSchema_parse loginData = inr data ->
  Forall (fun r => Pg.row_accepted r = true) db ->
  Forall (fun r => UserEntity.email r = toLowerCase (LoginRequest.email data) ->
                   UserEntity.is_active r = false
                   \/ bcrypt_compare (LoginRequest.password data)
                        (UserEntity.password_hash r) = false) db ->
  login this (Pg.repository uuid dbnow) loginData now sessionId db
  = (inl (Error "Invalid email or password"), db).
Proof.
  intros Hp Hvalid Hrows.
  pose proof (is_email_text _ (LoginRequest_email _ _ Hp)) as Htext.
  destruct (List.filter
              (fun r => String.eqb (UserEntity.email r)
                          (toLowerCase (LoginRequest.email data))
                        && UserEntity.is_active r) db) as [|u rest] eqn:Hfilter.
  - apply (login_unknown _ _ data); [done|].
    cbn. unfold Pg.findByEmail. by rewrite Htext, Hfilter.
  - assert (Hin : In u (u :: rest)) by (by left).
    rewrite <- Hfilter in Hin. apply List.filter_In in Hin.
    destruct Hin as [Hin Hu]. apply andb_prop in Hu as [He Ha].
    apply String.eqb_eq in He.
    rewrite Forall_forall in Hvalid, Hrows.
    destruct (Hrows u ltac:(by apply list_elem_of_In) He) as [Hoff|Hbad];
      [congruence|].
    apply (login_wrong_password _ _ data _ _ _ _ u); [done| |done|done].
    cbn. unfold Pg.findByEmail. rewrite Htext, Hfilter. cbn.
    by rewrite (PgFacts.validate_row_accepted u
                  (Hvalid u ltac:(by apply list_elem_of_In))).
Qed.

End WithLibraries.
End LoginFacts.


(* --------------------------------------------------------------------- *)
(** ** [refreshToken]                                                     *)
(* --------------------------------------------------------------------- *)

Module RefreshFacts.
Import AuthService ZodFacts TokenFacts.

Section WithLibraries.
Context `{Libraries} `{!LibrariesOk}.

Variable this : AuthService.t.

(** What a token that passes the verification step of [refreshToken]
    looks like. *)
Lemma verifyRefresh_inv token now p :
  verifyRefresh this token now = inr p ->
  token <> ""
  /\ JWT_REFRESH_SECRET this <> ""
  /\ is_uuid (RefreshTokenPayload.userId p) = true
  /\ is_uuid (RefreshTokenPayload.sessionId p) = true
  /\ exists payload sg,
       jws_decode token = Some (payload, sg)
       /\ get "iat" payload = Some (JNum (RefreshTokenPayload.iat p))
       /\ get "exp" payload = Some (JNum (RefreshTokenPayload.exp p)).
Proof.
  unfold verifyRefresh, Jwt.verify. intros Hv.
  destruct (jws_decode token) as [[payload sg]|] eqn:Hd; [|discriminate].
  destruct (String.eqb_spec (JWT_REFRESH_SECRET this) ""); [discriminate|].
  destruct (negb _); [discriminate|].
  destruct (Jwt.check_nbf _ _) as [|[]]; [discriminate|].
  destruct (Jwt.check_exp _ _) as [|[]]; [discriminate|]. cbn [bind ret] in Hv.
  unfold Zod.RefreshTokenPayloadSchema_parse in Hv.
  destruct (Zod.string_at is_uuid "userId" payload) as [u|] eqn:Hu; [|discriminate].
  destruct (Zod.string_at is_uuid "sessionId" payload) as [sid|] eqn:Hs;
    [|discriminate].
  destruct (Zod.number_at "tokenVersion" payload) as [v|]; [|discriminate].
  destruct (Zod.number_at "iat" payload) as [i|] eqn:Hi; [|discriminate].
  destruct (Zod.number_at "exp" payload) as [x|] eqn:Hx; [|discriminate].
  injection Hv as <-. cbn.
  apply string_at_Some in Hu as [_ Hu], Hs as [_ Hs].
  apply number_at_Some in Hi, Hx.
  split; [|eauto 10].
  intros ->. rewrite jws_decode_empty in Hd. discriminate.
Qed.

Section WithRepository.
Context {Db : Type} (repo : UserRepository.t Db).

(** The successful path of [refreshToken]. *)
Lemma refreshToken_ok token p now db db1 db2 user tokens :
  verifyRefresh this token now = inr p ->
  UserRepository.findById repo (RefreshTokenPayload.userId p) db
  = (inr (Some user), db1) ->
  UserEntity.is_active user = true ->
  generateTokens this
    (TokenClaims.mk (UserEntity.id user) (UserEntity.email user)
       (UserEntity.role user) (UserEntity.timezone user)
       (RefreshTokenPayload.sessionId p)) false now = inr tokens ->
  UserRepository.updateLastSeen repo (UserEntity.id user) db1 = (inr tt, db2) ->
  refreshToken this repo (Zod.RefreshTokenRequest_obj (RefreshTokenRequest.mk token))
    now db = (inr tokens, db2).
Proof.
  intros Hv Hf Ha Hg Hs.
  destruct (verifyRefresh_inv token now p Hv) as (Hne & _).
  unfold refreshToken, try_catchM, bindM, liftM, retM,
    Zod.RefreshTokenRequestSchema_parse, Zod.string_at.
  destruct token as [|c token]; [done|].
  cbn [Zod.RefreshTokenRequest_obj RefreshTokenRequest.refreshToken get
       String.eqb Ascii.eqb Bool.eqb Zod.nonempty negb ret].
  rewrite Hv, Hf, Ha. cbn [negb]. rewrite Hg, Hs. done.
Qed.



End WithRepository.
End WithLibraries.
End RefreshFacts.


(* --------------------------------------------------------------------- *)
(** ** [register] and [POST /register] over the [users] table             *)
(* --------------------------------------------------------------------- *)

Module RegisterFacts.
Import AuthService Routes ZodFacts.

Lemma existsb_none {A} (p : A -> bool) (l : list A) :
  (forall a, In a l -> p a = false) -> existsb p l = false.
Proof.
  intros Hno. apply not_true_iff_false. intros (a & Ha & Hp)%existsb_exists.
  by rewrite (Hno a Ha) in Hp.
Qed.

Lemma existsb_none_inv {A} (p : A -> bool) (l : list A) a :
  existsb p l = false -> In a l -> p a = false.
Proof.
  intros Hno Ha. apply not_true_iff_false. intros Hp.
  apply not_true_iff_false in Hno. apply Hno, existsb_exists. eauto.
Qed.

Section WithLibraries.
Context `{Libraries}.

Lemma RegisterRequest_reparse body data :
  Zod.RegisterRequestSchema_parse body = inr data ->
  Zod.RegisterRequestSchema_parse (Zod.RegisterRequest_obj data) = inr data.
Proof.
  unfold Zod.RegisterRequestSchema_parse. intros Hp.
  destruct (Zod.string_at _ "name" body) as [n|] eqn:Hn; [|discriminate].
  destruct (Zod.string_at _ "email" body) as [e|] eqn:He; [|discriminate].
  destruct (Zod.string_at _ "password" body) as [pw|] eqn:Hpw; [|discriminate].
  destruct (Zod.default _ _ "role" body) as [r|]; [|discriminate].
  destruct (Zod.default _ _ "timezone" body) as [tz|]; [|discriminate].
  injection Hp as <-.
  apply string_at_Some in Hn as [_ Hn], He as [_ He], Hpw as [_ Hpw].
  unfold Zod.RegisterRequest_obj, Zod.string_at, Zod.default, Zod.role_at.
  cbn [RegisterRequest.name RegisterRequest.email RegisterRequest.password
       RegisterRequest.role RegisterRequest.timezone get String.eqb Ascii.eqb
       Bool.eqb Zod.any_string].
  by rewrite Hn, He, Hpw, role_of_name_name.
Qed.

(** What a parsed registration request satisfies. *)
Lemma RegisterRequest_bounds body data :
  Zod.RegisterRequestSchema_parse body = inr data ->
  Zod.nonempty (RegisterRequest.name data) = true
  /\ Zod.max_length 100 (RegisterRequest.name data) = true
  /\ is_email (RegisterRequest.email data) = true
  /\ Zod.max_length 254 (RegisterRequest.email data) = true.
Proof.
  unfold Zod.RegisterRequestSchema_parse. intros Hp.
  destruct (Zod.string_at _ "name" body) as [n|] eqn:Hn; [|discriminate].
  destruct (Zod.string_at _ "email" body) as [e|] eqn:He; [|discriminate].
  destruct (Zod.string_at _ "password" body) as [pw|]; [|discriminate].
  destruct (Zod.default _ _ "role" body) as [r|]; [|discriminate].
  destruct (Zod.default _ _ "timezone" body) as [tz|]; [|discriminate].
  injection Hp as <-. cbn.
  apply string_at_Some in Hn as [_ Hn], He as [_ He].
  apply andb_prop in Hn as [? ?], He as [? ?]. done.
Qed.

(** The argument of [userRepository.create] in [register]. *)
Definition registration (data : RegisterRequest.t) (passwordHash : string)
  : CreateUserInput.t :=
  CreateUserInput.mk (RegisterRequest.name data)
    (toLowerCase (RegisterRequest.email data)) passwordHash
    (RegisterRequest.role data) (RegisterRequest.timezone data).

(** The one issue of a row that [create] wrote with a UUID and an e-mail
    address. *)
Lemma new_row_issues uuid dbnow d :
  is_uuid uuid = true -> is_email (CreateUserInput.email d) = true ->
  Pg.row_issues (Pg.new_row uuid dbnow d)
  = ["skills: Expected array, received object"].
Proof. intros Hu He. unfold Pg.row_issues, Pg.new_row. cbn. by rewrite Hu, He. Qed.

(** [create] when the [INSERT] goes through: the row is in the table and
    the entity schema refuses what [RETURNING *] handed back. *)
Lemma create_inserts uuid dbnow d (db : Pg.Table) :
  Pg.validate_create d = inr d ->
  Pg.insert_error uuid d db = None ->
  Pg.create uuid dbnow d db
  = (inl (Error ("Validation failed: "
                 ++ String.concat ", " (Pg.row_issues (Pg.new_row uuid dbnow d)))),
     db ++ [Pg.new_row uuid dbnow d]).
Proof.
  intros Hv Hi. unfold Pg.create, bindM, liftM. rewrite Hv, Hi.
  by rewrite (PgFacts.validate_row_refused _ (PgFacts.new_row_refused uuid dbnow d)).
Qed.


Lemma validate_create_inv d d' :
  Pg.validate_create d = inr d' ->
  d' = d /\ Zod.nonempty (CreateUserInput.name d) = true
  /\ Zod.max_length 100 (CreateUserInput.name d) = true
  /\ is_email (CreateUserInput.email d) = true
  /\ Zod.max_length 254 (CreateUserInput.email d) = true
  /\ Zod.nonempty (CreateUserInput.password_hash d) = true.
Proof.
  unfold Pg.validate_create.
  destruct (_ && _) eqn:Hc; [|discriminate]. intros [= <-].
  repeat (apply andb_prop in Hc as [Hc ?]). done.
Qed.

(** What a passing [INSERT] tells about the table. *)
Lemma insert_error_None uuid d (db : Pg.Table) :
  Pg.insert_error uuid d db = None ->
  (forall r, In r db -> UserEntity.id r <> uuid)
  /\ (forall r, In r db -> UserEntity.email r <> CreateUserInput.email d).
Proof.
  unfold Pg.insert_error.
  repeat (match goal with
          | |- context [if negb ?b then _ else _] => destruct b; cbn [negb];
                                                    [|discriminate]
          end).
  destruct (existsb (Pg.has_id uuid) db) eqn:Hid; [discriminate|].
  match goal with
  | |- context [if ?b then _ else _] => destruct b eqn:Hem; [discriminate|]
  end.
  intros _. split.
  - intros r Hr Heq. pose proof (existsb_none_inv _ _ r Hid Hr) as Hno.
    unfold Pg.has_id in Hno. by rewrite Heq, String.eqb_refl in Hno.
  - intros r Hr Heq. pose proof (existsb_none_inv _ _ r Hem Hr) as Hno.
    cbn in Hno. by rewrite Heq, String.eqb_refl in Hno.
Qed.

Variable this : AuthService.t.

(** The service on an address that an active row holds, when that row
    passes the entity schema and so can be read. *)
Lemma register_taken uuid dbnow userData data now salt sessionId (db : Pg.Table) u :
  Zod.RegisterRequestSchema_parse userData = inr data ->
  Pg.findByEmail (RegisterRequest.email data) db = (inr (Some u), db) ->
  register this (Pg.repository uuid dbnow) userData now salt sessionId db
  = (inl (Error "Email already registered"), db).
Proof.
  intros Hp Hf. unfold register, try_catchM, bindM, liftM, throwM.
  rewrite Hp. cbn [UserRepository.findByEmail Pg.repository]. by rewrite Hf.
Qed.

(** Over the table, [register] throws whatever it is given: [create]
    never returns. *)
Lemma register_throws uuid dbnow userData now salt sessionId (db : Pg.Table) :
  exists error db',
    register this (Pg.repository uuid dbnow) userData now salt sessionId db
    = (inl error, db').
Proof.
  unfold register, try_catchM, bindM, liftM, throwM.
  destruct (Zod.RegisterRequestSchema_parse userData) as [e|data]; [by eauto|].
  cbn [UserRepository.findByEmail UserRepository.create Pg.repository].
  destruct (Pg.findByEmail (RegisterRequest.email data) db) as [[e|[u|]] d1];
    [by eauto..|].
  destruct (bcrypt_hash _ _ salt) as [e|hash]; [by eauto|].
  destruct (PgFacts.create_throws uuid dbnow
              (registration data hash) d1) as (e & d2 & Hc).
  unfold registration in Hc. rewrite Hc. eauto.
Qed.

(** The service on an address that no row holds: the row is inserted,
    and the error of [create] is what [register] throws. *)
Lemma register_inserts uuid dbnow userData data now salt sessionId (db : Pg.Table)
    hash :
  Zod.RegisterRequestSchema_parse userData = inr data ->
  Pg.findByEmail (RegisterRequest.email data) db = (inr None, db) ->
  bcrypt_hash (RegisterRequest.password data) (BCRYPT_ROUNDS this) salt = inr hash ->
  Pg.validate_create (registration data hash) = inr (registration data hash) ->
  Pg.insert_error uuid (registration data hash) db = None ->
  register this (Pg.repository uuid dbnow) userData now salt sessionId db
  = (inl (Error ("Validation failed: "
                 ++ String.concat ", "
                      (Pg.row_issues
                         (Pg.new_row uuid dbnow (registration data hash))))),
     db ++ [Pg.new_row uuid dbnow (registration data hash)]).
Proof.
  intros Hp Hf Hh Hv Hi. unfold register, try_catchM, bindM, liftM, throwM.
  rewrite Hp. cbn [UserRepository.findByEmail UserRepository.create Pg.repository].
  rewrite Hf, Hh. fold (registration data hash).
  by rewrite (create_inserts uuid dbnow _ db Hv Hi).
Qed.

(** The [catch] block of [POST /register] answers 400, 409 or 500. *)
Lemma register_error_status error now :
  status (register_error error now) = 400
  \/ status (register_error error now) = 409
  \/ status (register_error error now) = 500.
Proof.
  unfold register_error. destruct (is_ZodError error); [by left|].
  destruct (_ && _); [right; by left|right; by right].
Qed.

Lemma register_error_refused issues now :
  register_error (Error ("Validation failed: " ++ issues)) now
  = error_response 500 "REGISTRATION_FAILED" "Failed to register user" now None.
Proof. reflexivity. Qed.

Lemma register_error_database e now :
  register_error (Pg.database_error e) now
  = error_response 500 "REGISTRATION_FAILED" "Failed to register user" now None.
Proof. reflexivity. Qed.

(** The handler of [POST /register] over the table never answers 201. *)
Lemma register_handler_status uuid dbnow body now salt sessionId (db : Pg.Table) :
  let out :=
    register_handler this (Pg.repository uuid dbnow) body now salt sessionId db in
  status out.1 = 400 \/ status out.1 = 409 \/ status out.1 = 500.
Proof.
  cbv zeta. unfold register_handler.
  destruct (Zod.RegisterRequestSchema_parse body) as [e|data];
    [apply register_error_status|].
  destruct (register_throws uuid dbnow (Zod.RegisterRequest_obj data) now salt
              sessionId db) as (e & db' & Hr).
  rewrite Hr. apply register_error_status.
Qed.

(** The handler on a body whose address no row holds, when hashing and
    the [INSERT] go through: it answers 500 and the row stays. *)
Lemma register_handler_inserts uuid dbnow body data now salt sessionId
    (db : Pg.Table) hash :
  Zod.RegisterRequestSchema_parse body = inr data ->
  Pg.findByEmail (RegisterRequest.email data) db = (inr None, db) ->
  bcrypt_hash (RegisterRequest.password data) (BCRYPT_ROUNDS this) salt = inr hash ->
  Pg.validate_create (registration data hash) = inr (registration data hash) ->
  Pg.insert_error uuid (registration data hash) db = None ->
  register_handler this (Pg.repository uuid dbnow) body now salt sessionId db
  = (error_response 500 "REGISTRATION_FAILED" "Failed to register user" now None,
     db ++ [Pg.new_row uuid dbnow (registration data hash)]).
Proof.
  intros Hp Hf Hh Hv Hi. unfold register_handler. rewrite Hp.
  by rewrite (register_inserts uuid dbnow _ data now salt sessionId db hash
                (RegisterRequest_reparse body data Hp) Hf Hh Hv Hi).
Qed.

End WithLibraries.
End RegisterFacts.


(* --------------------------------------------------------------------- *)
(** ** The limiter in front of the routes                                 *)
(* --------------------------------------------------------------------- *)

Module RouterFacts.
Import Routes Guards RateLimit Router RateLimitFacts.

Lemma sweep_empty now : sweep now (∅ : gmap string Entry) = ∅.
Proof. apply map_filter_empty. Qed.

(** The first call of a client, on a map without entries. *)
Lemma first_call M W req now :
  authRateLimit M W req now ∅
  = ({[ clientId req := {| count := 1; resetTime := now + W |} ]}, Next req).
Proof.
  rewrite step_fresh by (by rewrite sweep_empty, lookup_empty).
  by rewrite sweep_empty, insert_empty.
Qed.

(** The limiter hands on the request it was given or answers 429. *)
Lemma authRateLimit_outcome M W req now (m : gmap string Entry) :
  (authRateLimit M W req now m).2 = Next req
  \/ exists e, (authRateLimit M W req now m).2 = Respond 429 (too_many now e).
Proof.
  unfold authRateLimit. destruct (sweep now m !! clientId req) as [e|]; [|by left].
  destruct (now >? resetTime e); [by left|].
  destruct (count e >=? M); [right; by exists e|by left].
Qed.

Section WithStore.
Context {Db : Type}.

(** A request the limiter lets through gets the answer of its route. *)
Lemma limited_admitted req tick (route : Db -> Response * Db)
    (st : gmap string Entry * Db) :
  (authRateLimit 5 (15 * 60 * 1000) req tick st.1).2 = Next req ->
  limited req tick route st
  = ((route st.2).1,
     ((authRateLimit 5 (15 * 60 * 1000) req tick st.1).1, (route st.2).2)).
Proof.
  unfold limited. destruct (authRateLimit _ _ req tick st.1) as [attempts out].
  cbn [fst snd]. by intros ->.
Qed.

(** A request the limiter stops is answered 429 and leaves the store as
    it was. *)
Lemma limited_rejected req tick (route : Db -> Response * Db)
    (st : gmap string Entry * Db) e :
  (authRateLimit 5 (15 * 60 * 1000) req tick st.1).2
  = Respond 429 (too_many tick e) ->
  limited req tick route st
  = (middleware_response 429 (too_many tick e) [],
     ((authRateLimit 5 (15 * 60 * 1000) req tick st.1).1, st.2)).
Proof.
  unfold limited. destruct (authRateLimit _ _ req tick st.1) as [attempts out].
  cbn [fst snd]. by intros ->.
Qed.

(** Every route answers 429 exactly when the limiter stops the request,
    provided the route itself never answers 429. *)
Lemma limited_429 req tick (route : Db -> Response * Db)
    (st : gmap string Entry * Db) :
  status (route st.2).1 <> 429 ->
  status (limited req tick route st).1 = 429
  <-> exists e, (authRateLimit 5 (15 * 60 * 1000) req tick st.1).2
                = Respond 429 (too_many tick e).
Proof.
  intros Hroute.
  destruct (authRateLimit_outcome 5 (15 * 60 * 1000) req tick st.1) as [Hn|[e He]].
  - rewrite (limited_admitted _ _ _ _ Hn). cbn [fst]. split; [done|].
    intros [e He]. rewrite Hn in He. discriminate.
  - rewrite (limited_rejected _ _ _ _ e He). cbn. split; [eauto|done].
Qed.

End WithStore.
End RouterFacts.


(** Runs of the routes under the reference libraries. *)
Module ServiceExamples.
Import AuthService Routes ReferenceFacts TokenFacts TokenExamples.
Import LoginFacts RefreshFacts RegisterFacts RateLimitFacts RouterFacts.

#[local] Existing Instance Reference.libraries.
#[local] Existing Instance libraries_ok.
#[local] Existing Instance store_ok.
#[local] Opaque Reference.libraries.

(** A row that was put into the table with an array in [skills], as a
    seed script or an SQL console writes it: the entity schema accepts
    it. *)
Definition alice_row : UserEntity.t :=
  UserEntity.mk "123e4567-e89b-12d3-a456-426614174000" "Alice"
    "alice@example.com" "stored-hash" developer "Europe/Vienna" None None
    (Parsed []) (Parsed Preferences.default) true true None 0 0.

Definition alice_deactivated : UserEntity.t :=
  UserEntity.mk "123e4567-e89b-12d3-a456-426614174000" "Alice"
    "alice@example.com" "stored-hash" developer "Europe/Vienna" None None
    (Parsed []) (Parsed Preferences.default) false true None 0 0.

Definition next_uuid : string := "0b0e7a52-3c1d-4f6a-8e9b-5d4c3b2a1f00".

Definition pg : UserRepository.t Pg.Table := Pg.repository next_uuid 1700000000000.

Definition login_bob : JObj :=
  [("email", JStr "bob@example.com"); ("password", JStr "hunter22")].

Definition login_alice : JObj :=
  [("email", JStr "alice@example.com"); ("password", JStr "hunter22")].

Lemma login_bob_parses :
  Zod.LoginRequestSchema_parse login_bob
  = inr (LoginRequest.mk "bob@example.com" "hunter22" None false).
Proof. vm_compute. reflexivity. Qed.

Lemma login_alice_parses :
  Zod.LoginRequestSchema_parse login_alice
  = inr (LoginRequest.mk "alice@example.com" "hunter22" None false).
Proof. vm_compute. reflexivity. Qed.

Lemma bob_unknown :
  UserRepository.findByEmail pg "bob@example.com" [alice_row]
  = (inr None, [alice_row]).
Proof. vm_compute. reflexivity. Qed.

Lemma alice_found :
  UserRepository.findByEmail pg "alice@example.com" [alice_row]
  = (inr (Some alice_row), [alice_row]).
Proof. vm_compute. reflexivity. Qed.

Lemma alice_wrong_password :
  bcrypt_compare "hunter22" (UserEntity.password_hash alice_row) = false.
Proof. vm_compute. reflexivity. Qed.

(** On the seeded row, the handler answers an unknown address and a wrong
    password alike. *)
Lemma seeded_login_failures :
  login_handler service pg login_bob 1700000000000 next_uuid [alice_row]
  = (error_response 401 "AUTHENTICATION_FAILED" "Invalid email or password"
       1700000000000 None, [alice_row])
  /\ login_handler service pg login_alice 1700000000000 next_uuid [alice_row]
     = (error_response 401 "AUTHENTICATION_FAILED" "Invalid email or password"
          1700000000000 None, [alice_row]).
Proof.
  split.
  - apply (login_failures_same_response service pg login_bob _ _ _ _ _ None
             login_bob_parses bob_unknown).
    by left.
  - apply (login_failures_same_response service pg login_alice _ _ _ _ _
             (Some alice_row) login_alice_parses alice_found).
    right; right. exists alice_row. split; [reflexivity|exact alice_wrong_password].
Qed.

(** The refresh token issued for Alice at second 1700000000 and its
    verified payload. *)
Definition R1 : string := AuthTokens.refreshToken alice_tokens.

Definition R1_payload : RefreshTokenPayload.t :=
  RefreshTokenPayload.mk (TokenClaims.userId alice_claims)
    (TokenClaims.sessionId alice_claims) 1 (floor_div 1700000000000 1000)
    (floor_div 1700000000000 1000 + floor_div 604800000 1000).

Lemma R1_verifies now' :
  floor_div now' 1000 < floor_div 1700000000000 1000 + floor_div 604800000 1000 ->
  verifyRefresh service R1 now' = inr R1_payload.
Proof.
  intros Hlt.
  exact (verifyRefresh_issued service alice_claims (floor_div 1700000000000 1000)
           604800000 now' ltac:(discriminate) alice_userId alice_sessionId Hlt).
Qed.



Lemma a_minute_later :
  floor_div 1700000060000 1000
  < floor_div 1700000000000 1000 + floor_div 604800000 1000.
Proof. vm_compute. reflexivity. Qed.








Definition register_Alice : JObj :=
  [("name", JStr "Alice"); ("email", JStr "Alice@Example.com");
   ("password", JStr "correct horse")].

Definition register_Alice_data : RegisterRequest.t :=
  RegisterRequest.mk "Alice" "Alice@Example.com" "correct horse" developer "UTC".

Lemma register_Alice_parses :
  Zod.RegisterRequestSchema_parse register_Alice = inr register_Alice_data.
Proof. vm_compute. reflexivity. Qed.

Lemma alice_row_accepted : Pg.row_accepted alice_row = true.
Proof. vm_compute. reflexivity. Qed.


Lemma new_hash :
  bcrypt_hash (RegisterRequest.password register_Alice_data)
    (BCRYPT_ROUNDS service) "salt" = inr "$2b$salt$correct horse".
Proof. vm_compute. reflexivity. Qed.

Lemma next_uuid_ok : is_uuid next_uuid = true.
Proof. vm_compute. reflexivity. Qed.

(** The row that [POST /register] writes for Alice: the lower-cased
    address, the hash, the defaults of the columns, and the empty object
    in [skills]. *)
Definition alice_written : UserEntity.t :=
  UserEntity.mk next_uuid "Alice" "alice@example.com" "$2b$salt$correct horse"
    developer "UTC" None None
    (Refused ["skills: Expected array, received object"])
    (Parsed Preferences.default) true false None 1700000000000 1700000000000.

Lemma alice_written_is_new_row :
  alice_written
  = Pg.new_row next_uuid 1700000000000
      (registration register_Alice_data "$2b$salt$correct horse").
Proof. vm_compute. reflexivity. Qed.

(** The limiter's map after the first request of the client. *)
Definition one_attempt : gmap string RateLimit.Entry :=
  {[ "203.0.113.7" :=
       {| RateLimit.count := 1; RateLimit.resetTime := 1700000900000 |} ]}.

Definition two_attempts : gmap string RateLimit.Entry :=
  {[ "203.0.113.7" :=
       {| RateLimit.count := 2; RateLimit.resetTime := 1700000900000 |} ]}.

Lemma first_attempt :
  RateLimit.authRateLimit 5 (15 * 60 * 1000) a_client 1700000000000 ∅
  = (one_attempt, Next a_client).
Proof. apply first_call. Qed.

Lemma second_attempt :
  RateLimit.authRateLimit 5 (15 * 60 * 1000) a_client 1700000060000 one_attempt
  = (two_attempts, Next a_client).
Proof. vm_compute. reflexivity. Qed.

Definition other_uuid : string := "7c9e6679-7425-40de-944b-e07fc1f90ae7".

Definition register_alice : JObj :=
  [("name", JStr "Alice"); ("email", JStr "alice@example.com");
   ("password", JStr "correct horse")].

Definition login_alice_right : JObj :=
  [("email", JStr "alice@example.com"); ("password", JStr "correct horse")].

Lemma registration_runs :
  register_handler service pg register_Alice 1700000000000 "salt" next_uuid []
  = (error_response 500 "REGISTRATION_FAILED" "Failed to register user"
       1700000000000 None, [alice_written]).
Proof. vm_compute. reflexivity. Qed.

(** C9.  The code at the failing input.  On the empty table,
    [POST /register] for [Alice@Example.com], an address that no record
    holds, does not succeed: the row is inserted with the lower-cased
    address and with [{}] in [skills], the entity schema refuses the row
    that [RETURNING *] hands back, and the route answers 500
    [REGISTRATION_FAILED].  A second registration of the address a minute
    later is answered 500 again, not 409 [EMAIL_EXISTS]: the look-up finds
    the active row and throws on it.  And on a table whose only row for
    [alice@example.com] is deactivated, so that the store has no active
    record for the address, the registration is answered 500 and persists
    nothing: the look-up passes and the [INSERT] violates
    [UNIQUE (email)]. *)
Lemma C9_registration_fails :
  Router.post_register service pg a_client register_Alice None 1700000000000
    1700000000000 "salt" next_uuid (∅, [])
  = (error_response 500 "REGISTRATION_FAILED" "Failed to register user"
       1700000000000 None, (one_attempt, [alice_written]))
  /\ UserEntity.email alice_written = "alice@example.com"
  /\ UserEntity.is_active alice_written = true
  /\ Router.post_register service (Pg.repository other_uuid 1700000060000)
       a_client register_Alice None 1700000060000 1700000060000 "salt" other_uuid
       (one_attempt, [alice_written])
     = (error_response 500 "REGISTRATION_FAILED" "Failed to register user"
          1700000060000 None, (two_attempts, [alice_written]))
  /\ UserRepository.findByEmail pg "alice@example.com" [alice_deactivated]
     = (inr None, [alice_deactivated])
  /\ Router.post_register service pg a_client register_alice None 1700000000000
       1700000000000 "salt" next_uuid (∅, [alice_deactivated])
     = (error_response 500 "REGISTRATION_FAILED" "Failed to register user"
          1700000000000 None, (one_attempt, [alice_deactivated])).
Proof.
  split; [|split; [reflexivity|split; [reflexivity|split; [|split]]]];
    vm_compute; reflexivity.
Qed.

(** C2.  The code at the failing input.  The table holds the row that
    [POST /register] wrote for Alice.  [POST /login] with an address that
    no record holds is answered 401 [AUTHENTICATION_FAILED]; with
    Alice's address it is answered 500 [LOGIN_FAILED], whether the
    password is wrong or right: the look-up finds her row, the entity
    schema refuses it, and the handler maps the error to 500.  The two
    answers tell a registered address from an unknown one. *)
Lemma C2_registered_address_answers_500 :
  Router.post_login service (Pg.repository other_uuid 1700000060000) a_client
    login_bob None 1700000060000 1700000060000 other_uuid
    (one_attempt, [alice_written])
  = (error_response 401 "AUTHENTICATION_FAILED" "Invalid email or password"
       1700000060000 None, (two_attempts, [alice_written]))
  /\ Router.post_login service (Pg.repository other_uuid 1700000060000) a_client
       login_alice None 1700000060000 1700000060000 other_uuid
       (one_attempt, [alice_written])
     = (error_response 500 "LOGIN_FAILED" "Failed to authenticate user"
          1700000060000 None, (two_attempts, [alice_written]))
  /\ Router.post_login service (Pg.repository other_uuid 1700000060000) a_client
       login_alice_right None 1700000060000 1700000060000 other_uuid
       (one_attempt, [alice_written])
     = (error_response 500 "LOGIN_FAILED" "Failed to authenticate user"
          1700000060000 None, (two_attempts, [alice_written])).
Proof.
  split; [|split]; vm_compute; reflexivity.
Qed.

End ServiceExamples.

(* --------------------------------------------------------------------- *)
(** ** The [users] table: keys and look-ups                               *)
(* --------------------------------------------------------------------- *)

Module TableFacts.

(** The primary key, the [UNIQUE] constraint on [email], and rows that
    satisfy the entity schema. *)
Definition unique_ids (db : Pg.Table) : Prop := NoDup (map UserEntity.id db).
Definition unique_emails (db : Pg.Table) : Prop := NoDup (map UserEntity.email db).

Lemma filter_by_key {A} (f : A -> string) (p : A -> bool) (l : list A) (r : A) :
  NoDup (map f l) -> In r l -> p r = true ->
  List.filter (fun x => String.eqb (f x) (f r) && p x) l = [r].
Proof.
  induction l as [|a l IH]; intros Hnd Hin Hp; [destruct Hin|].
  cbn [map] in Hnd. apply NoDup_cons in Hnd as [Hnotin Hnd].
  assert (Hnone : forall l', ~ (f r ∈ map f l') ->
            List.filter (fun x => String.eqb (f x) (f r) && p x) l' = []).
  { induction l' as [|b l' IH']; intros Hb; [done|]. cbn.
    destruct (String.eqb_spec (f b) (f r)) as [Heq|_].
    - destruct Hb. rewrite <- Heq. cbn. left.
    - cbn. apply IH'. intros Hc. apply Hb. cbn. by right. }
  destruct Hin as [->|Hin].
  - cbn. rewrite String.eqb_refl, Hp. cbn. f_equal. by apply Hnone.
  - cbn. destruct (String.eqb_spec (f a) (f r)) as [Heq|_].
    + destruct Hnotin. rewrite Heq. apply list_elem_of_In, in_map, Hin.
    + cbn. by apply IH.
Qed.

Lemma filter_no_key {A} (f : A -> string) (p : A -> bool) (k : string) (l : list A) :
  (forall r, In r l -> f r = k -> p r = false) ->
  List.filter (fun x => String.eqb (f x) k && p x) l = [].
Proof.
  induction l as [|a l IH]; intros Hno; [done|]. cbn.
  destruct (String.eqb_spec (f a) k) as [Heq|_]; cbn.
  - rewrite (Hno a) by (by left || done). apply IH. intros r Hr. apply Hno. by right.
  - apply IH. intros r Hr. apply Hno. by right.
Qed.

Lemma unique_key_eq {A} (f : A -> string) (l : list A) (a b : A) :
  NoDup (map f l) -> In a l -> In b l -> f a = f b -> a = b.
Proof.
  intros Hnd Ha Hb Heq.
  assert (Hl : [a] = [b]); [|by injection Hl].
  rewrite <- (filter_by_key f (fun _ => true) l a Hnd Ha eq_refl).
  rewrite Heq. by rewrite (filter_by_key f (fun _ => true) l b Hnd Hb eq_refl).
Qed.

Lemma unique_snoc {A} (f : A -> string) (l : list A) (x : A) :
  NoDup (map f l) -> (forall a, In a l -> f a <> f x) -> NoDup (map f (l ++ [x])).
Proof.
  intros Hnd Hne. rewrite map_app. apply NoDup_app. split; [done|]. split.
  - intros k Hk Hx. cbn in Hx. apply list_elem_of_In in Hk, Hx.
    destruct Hx as [<-|[]]. apply in_map_iff in Hk as (a & Heq & Ha).
    by destruct (Hne a Ha).
  - cbn. apply NoDup_singleton.
Qed.

Section WithLibraries.
Context `{Libraries}.

(** The rows that [UserEntitySchema] accepts. *)
Definition valid_rows (db : Pg.Table) : Prop :=
  Forall (fun r => Pg.validate_row r = inr r) db.

Lemma valid_row_In (db : Pg.Table) r :
  valid_rows db -> In r db -> Pg.validate_row r = inr r.
Proof.
  intros Hv Hin. unfold valid_rows in Hv. rewrite Forall_forall in Hv.
  apply Hv. by apply list_elem_of_In.
Qed.

Lemma valid_row_accepted (db : Pg.Table) r :
  valid_rows db -> In r db -> Pg.row_accepted r = true.
Proof.
  intros Hv Hin. by destruct (PgFacts.validate_row_inv r r (valid_row_In db r Hv Hin)).
Qed.


(** [WHERE id = $1] selects the row with that id and no other. *)
Lemma filter_has_id (db : Pg.Table) r :
  unique_ids db -> In r db -> List.filter (Pg.has_id (UserEntity.id r)) db = [r].
Proof.
  intros Hu Hin.
  pose proof (filter_by_key UserEntity.id (fun _ => true) db r Hu Hin eq_refl) as Hf.
  erewrite filter_ext in Hf; [|intros a; apply andb_true_r]. exact Hf.
Qed.

Lemma filter_has_id_none (db : Pg.Table) c :
  (forall r, In r db -> UserEntity.id r <> c) -> List.filter (Pg.has_id c) db = [].
Proof.
  intros Hno.
  pose proof (filter_no_key UserEntity.id (fun _ => true) c db) as Hf.
  erewrite filter_ext in Hf; [|intros a; apply andb_true_r].
  apply Hf. intros r Hr Heq. by destruct (Hno r Hr).
Qed.

(** [findById], case by case: the parameter is not of UUID syntax; no row
    has the id; the row with the id passes the entity schema, or fails
    it. *)
Lemma findById_not_uuid (db : Pg.Table) id :
  uuid_in id = None ->
  Pg.findById id db = (inl (Pg.database_error (invalid_uuid id)), db).
Proof. intros Hn. unfold Pg.findById. by rewrite Hn. Qed.

Lemma findById_absent (db : Pg.Table) id c :
  uuid_in id = Some c ->
  (forall r, In r db -> UserEntity.id r <> c) ->
  Pg.findById id db = (inr None, db).
Proof.
  intros Hc Hno. unfold Pg.findById. by rewrite Hc, filter_has_id_none.
Qed.

Lemma findById_found (db : Pg.Table) r id :
  unique_ids db -> In r db -> uuid_in id = Some (UserEntity.id r) ->
  Pg.row_accepted r = true ->
  Pg.findById id db = (inr (Some r), db).
Proof.
  intros Hu Hin Hc Ha. unfold Pg.findById. rewrite Hc, (filter_has_id db r Hu Hin).
  cbn. by rewrite (PgFacts.validate_row_accepted r Ha).
Qed.

Lemma findById_refused (db : Pg.Table) r id :
  unique_ids db -> In r db -> uuid_in id = Some (UserEntity.id r) ->
  Pg.row_accepted r = false ->
  Pg.findById id db
  = (inl (Error ("Validation failed: " ++ String.concat ", " (Pg.row_issues r))),
     db).
Proof.
  intros Hu Hin Hc Ha. unfold Pg.findById. rewrite Hc, (filter_has_id db r Hu Hin).
  cbn. by rewrite (PgFacts.validate_row_refused r Ha).
Qed.

(** [findByEmail], likewise, for an address whose lower-case form is a
    legal text value. *)
Lemma findByEmail_found (db : Pg.Table) r email :
  pg_text (toLowerCase email) = true ->
  unique_emails db -> In r db ->
  UserEntity.email r = toLowerCase email -> UserEntity.is_active r = true ->
  Pg.row_accepted r = true ->
  Pg.findByEmail email db = (inr (Some r), db).
Proof.
  intros Ht Hu Hin He Ha Hr. unfold Pg.findByEmail. rewrite Ht, <- He.
  rewrite (filter_by_key UserEntity.email UserEntity.is_active db r Hu Hin Ha).
  cbn. by rewrite (PgFacts.validate_row_accepted r Hr).
Qed.

Lemma findByEmail_refused (db : Pg.Table) r email :
  pg_text (toLowerCase email) = true ->
  unique_emails db -> In r db ->
  UserEntity.email r = toLowerCase email -> UserEntity.is_active r = true ->
  Pg.row_accepted r = false ->
  Pg.findByEmail email db
  = (inl (Error ("Validation failed: " ++ String.concat ", " (Pg.row_issues r))),
     db).
Proof.
  intros Ht Hu Hin He Ha Hr. unfold Pg.findByEmail. rewrite Ht, <- He.
  rewrite (filter_by_key UserEntity.email UserEntity.is_active db r Hu Hin Ha).
  cbn. by rewrite (PgFacts.validate_row_refused r Hr).
Qed.

Lemma findByEmail_absent (db : Pg.Table) email :
  pg_text (toLowerCase email) = true ->
  (forall r, In r db -> UserEntity.email r = toLowerCase email ->
             UserEntity.is_active r = false) ->
  Pg.findByEmail email db = (inr None, db).
Proof.
  intros Ht Hno. unfold Pg.findByEmail. rewrite Ht.
  by rewrite (filter_no_key UserEntity.email UserEntity.is_active _ db Hno).
Qed.

End WithLibraries.
End TableFacts.

(* --------------------------------------------------------------------- *)
(** ** What the updates of a row keep                                     *)
(* --------------------------------------------------------------------- *)

Module UpdateFacts.
Import TableFacts.

(** The columns that neither [SET last_seen], [SET timezone] nor
    [SET is_active] touches. *)
Definition identity (r : UserEntity.t) : string * string * string * string :=
  (UserEntity.id r, UserEntity.email r, UserEntity.password_hash r,
   UserEntity.name r).

Lemma map_keeps {A} (f : UserEntity.t -> A) (g : UserEntity.t -> UserEntity.t)
    (db : Pg.Table) :
  (forall r, f (g r) = f r) -> map f (map g db) = map f db.
Proof.
  intros Hg. rewrite map_map. apply map_ext. intros r. apply Hg.
Qed.

Section WithLibraries.
Context `{Libraries}.


(** What [updateLastSeen] does to a row, for the canonical text [c] of
    its parameter. *)
Definition touch (now : Z) (c : string) (r : UserEntity.t) : UserEntity.t :=
  if Pg.has_id c r && UserEntity.is_active r
  then UserEntity.with_last_seen now r else r.

Lemma updateLastSeen_touch now id c (db : Pg.Table) :
  uuid_in id = Some c ->
  Pg.updateLastSeen now id db = (inr tt, map (touch now c) db).
Proof. intros Hc. unfold Pg.updateLastSeen. by rewrite Hc. Qed.

Lemma updateLastSeen_not_uuid now id (db : Pg.Table) :
  uuid_in id = None ->
  Pg.updateLastSeen now id db = (inl (Pg.database_error (invalid_uuid id)), db).
Proof. intros Hc. unfold Pg.updateLastSeen. by rewrite Hc. Qed.

Lemma touch_id now id r : UserEntity.id (touch now id r) = UserEntity.id r.
Proof. unfold touch. by destruct (_ && _). Qed.

Lemma touch_email now id r : UserEntity.email (touch now id r) = UserEntity.email r.
Proof. unfold touch. by destruct (_ && _). Qed.

Lemma touch_is_active now id r :
  UserEntity.is_active (touch now id r) = UserEntity.is_active r.
Proof. unfold touch. by destruct (_ && _). Qed.

Lemma touch_identity now id r : identity (touch now id r) = identity r.
Proof. unfold touch. by destruct (_ && _). Qed.

Lemma touch_accepted now id r :
  Pg.row_accepted (touch now id r) = Pg.row_accepted r.
Proof. unfold touch. by destruct (_ && _). Qed.

Lemma touch_hit now r :
  UserEntity.is_active r = true ->
  touch now (UserEntity.id r) r = UserEntity.with_last_seen now r.
Proof. intros Ha. unfold touch, Pg.has_id. by rewrite String.eqb_refl, Ha. Qed.

Lemma touch_miss now c r : UserEntity.id r <> c -> touch now c r = r.
Proof.
  intros Hne. unfold touch, Pg.has_id.
  by destruct (String.eqb_spec (UserEntity.id r) c).
Qed.

Lemma touch_unique_ids now id (db : Pg.Table) :
  unique_ids db -> unique_ids (map (touch now id) db).
Proof.
  unfold unique_ids. by rewrite (map_keeps UserEntity.id) by apply touch_id.
Qed.

Lemma touch_unique_emails now id (db : Pg.Table) :
  unique_emails db -> unique_emails (map (touch now id) db).
Proof.
  unfold unique_emails. by rewrite (map_keeps UserEntity.email) by apply touch_email.
Qed.


End WithLibraries.
End UpdateFacts.

(* --------------------------------------------------------------------- *)
(** ** [optionalAuthenticate], [requireRole], [requireOwnershipOrRole],
       [validateSession]                                                  *)
(* --------------------------------------------------------------------- *)

Module GuardFacts.
Import Guards Middleware AuthService TableFacts UpdateFacts.

Section WithService.
Context `{Libraries} (authService : AuthService.t).

(** X1.  [optionalAuthenticate] never sends a response.  It hands on the
    request that [authenticate] would hand on whenever [authenticate]
    accepts, and the request as it came whenever [authenticate] would
    answer 401: a bad token is treated like no token. *)
Theorem optionalAuthenticate_never_rejects (req : Request) (now : Z) :
  (exists req', optionalAuthenticate authService req now = Pass req')
  /\ (forall req', authenticate authService req now = Next req' ->
        optionalAuthenticate authService req now = Pass req')
  /\ (forall status body,
        authenticate authService req now = Respond status body ->
        optionalAuthenticate authService req now = Pass req).
Proof.
  unfold authenticate, optionalAuthenticate.
  destruct (extractToken req) as [token|].
  - destruct (String.eqb token ""); cbn [negb].
    + split; [eauto|]. split; [discriminate|done].
    + destruct (verifyAccessToken authService token now) as [e|p].
      * split; [eauto|]. split; [discriminate|done].
      * split; [eauto|]. split; [by intros ? [= <-]|discriminate].
  - split; [eauto|]. split; [discriminate|done].
Qed.

(** X3.  A route guarded by [authenticate] and [requireRole(required)]:
    a request whose token verifies to payload [p] is handed on, with
    [req.user] taken from [p], exactly when the role in [p] ranks at least
    as high as [required]; otherwise it is answered 403
    [INSUFFICIENT_PERMISSIONS] with both roles in the body.  A request that
    [authenticate] rejects gets that 401 and never reaches the role
    check. *)
Theorem authenticate_then_requireRole (required : UserRole) (req : Request)
    (now : Z) :
  (forall token p,
     extractToken req = Some token -> token <> "" ->
     verifyAccessToken authService token now = inr p ->
     and_then (authenticate authService req now)
       (fun req' => requireRole required req' now)
     = if roleHierarchy (JWTPayload.role p) >=? roleHierarchy required
       then Pass (with_user req p)
       else Fail 403
              (error_body "INSUFFICIENT_PERMISSIONS"
                 ("This action requires " ++ role_name required
                  ++ " role or higher")%string now)
              [("userRole", JStr (role_name (JWTPayload.role p)));
               ("requiredRole", JStr (role_name required))])
  /\ (forall status body,
        authenticate authService req now = Respond status body ->
        status = 401
        /\ and_then (authenticate authService req now)
             (fun req' => requireRole required req' now)
           = Fail 401 body []).
Proof.
  split.
  - intros token p Ht Hne Hv. unfold authenticate. rewrite Ht.
    destruct (String.eqb_spec token ""); [done|]. rewrite Hv.
    cbn [and_then]. unfold requireRole, with_user, hasPermission.
    cbn [user ru_role]. by destruct (_ >=? _).
  - intros status body Ha. rewrite Ha. cbn [and_then].
    assert (Hs : status = 401); [|by rewrite Hs].
    unfold authenticate in Ha.
    destruct (extractToken req) as [token|]; [|by injection Ha].
    destruct (String.eqb token ""); [by injection Ha|].
    destruct (verifyAccessToken authService token now); [by injection Ha|done].
Qed.

End WithService.

(** X2.  [requireRole(required)] decides by rank alone: without
    [req.user] it answers 401 [AUTHENTICATION_REQUIRED]; with a user it
    hands the request on unchanged when the user's role ranks at least as
    high as [required] and answers 403 otherwise.  Hence whoever passes
    [requireRole(required)] passes [requireRole(weaker)] for every role of
    lower or equal rank, a developer passes every role check, and
    [requireRole(stakeholder)] admits every authenticated user. *)
Theorem requireRole_by_rank (required : UserRole) (req : Request) (now : Z) :
  (user req = None ->
   exists body, requireRole required req now = Fail 401 body []
                /\ code body = "AUTHENTICATION_REQUIRED")
  /\ (forall u, user req = Some u ->
        (roleHierarchy required <= roleHierarchy (ru_role u) ->
         requireRole required req now = Pass req)
        /\ (roleHierarchy (ru_role u) < roleHierarchy required ->
            exists body more,
              requireRole required req now = Fail 403 body more
              /\ code body = "INSUFFICIENT_PERMISSIONS"))
  /\ (forall weaker,
        roleHierarchy weaker <= roleHierarchy required ->
        requireRole required req now = Pass req ->
        requireRole weaker req now = Pass req)
  /\ (forall u, user req = Some u -> ru_role u = developer ->
        requireRole required req now = Pass req)
  /\ (forall u, user req = Some u -> requireRole stakeholder req now = Pass req).
Proof.
  unfold requireRole, hasPermission.
  destruct (user req) as [u|].
  - split; [discriminate|]. split; [|split; [|split]].
    + intros ? [= <-]. split; intros Hr.
      * destruct (_ >=? _) eqn:Hge; [done|lia].
      * destruct (_ >=? _) eqn:Hge; [lia|]. cbn [negb]. eauto.
    + intros weaker Hw.
      destruct (roleHierarchy (ru_role u) >=? roleHierarchy required) eqn:Hge;
        [|discriminate].
      intros _. destruct (roleHierarchy (ru_role u) >=? roleHierarchy weaker) eqn:Hge';
        [done|lia].
    + intros ? [= <-] ->. by destruct required.
    + intros ? [= <-]. by destruct (ru_role u).
  - split; [eauto|]. split; [discriminate|]. split; [discriminate|].
    split; discriminate.
Qed.

(** X4.  [requireOwnershipOrRole(getResourceOwnerId, fallbackRole)]:
    the owner of the resource passes whatever their role; anyone else
    passes exactly when a fallback role is given and [requireRole] of that
    role would let them pass, and is answered 403
    [RESOURCE_ACCESS_DENIED] otherwise.  A request without [req.user] is
    answered 401 without the owner being looked up, and a look-up that
    throws is answered 500 [AUTHORIZATION_ERROR]. *)
Theorem requireOwnershipOrRole_access
    (getResourceOwnerId : Request -> Result string)
    (fallbackRole : option UserRole) (req : Request) (now : Z) :
  let guard := requireOwnershipOrRole getResourceOwnerId fallbackRole req now in
  (user req = None ->
   exists body, guard = Fail 401 body [] /\ code body = "AUTHENTICATION_REQUIRED")
  /\ (forall u error,
        user req = Some u -> getResourceOwnerId req = inl error ->
        exists body, guard = Fail 500 body [] /\ code body = "AUTHORIZATION_ERROR")
  /\ (forall u owner,
        user req = Some u -> getResourceOwnerId req = inr owner ->
        (ru_id u = owner -> guard = Pass req)
        /\ (ru_id u <> owner ->
            match fallbackRole with
            | Some role =>
                (guard = Pass req <-> requireRole role req now = Pass req)
                /\ (guard = Pass req
                    \/ exists body, guard = Fail 403 body []
                                    /\ code body = "RESOURCE_ACCESS_DENIED")
            | None =>
                exists body, guard = Fail 403 body []
                             /\ code body = "RESOURCE_ACCESS_DENIED"
            end)).
Proof.
  intros guard. subst guard. unfold requireOwnershipOrRole, canAccessResource.
  destruct (user req) as [u|] eqn:Hu.
  - split; [discriminate|]. split.
    + intros ? error [= <-] ->. eauto.
    + intros ? owner [= <-] ->. split.
      * intros ->. by rewrite String.eqb_refl.
      * intros Hne. destruct (String.eqb_spec (ru_id u) owner); [done|].
        destruct fallbackRole as [role|]; [|cbn; eauto].
        unfold requireRole. rewrite Hu.
        destruct (hasPermission (ru_role u) role); cbn [negb].
        -- split; [done|by left].
        -- split; [split; discriminate|right; eauto].
  - split; [eauto|]. split; discriminate.
Qed.

(** A response of [validateSession] is a 401 or a 500, whatever the
    repository. *)
Lemma validateSession_fail_status {Db} (repo : UserRepository.t Db) req now db
    status body more db' :
  validateSession repo req now db = (Fail status body more, db') ->
  status = 401 \/ status = 500.
Proof.
  unfold validateSession. destruct (user req) as [u|]; [|discriminate].
  unfold bindM, retM.
  destruct (UserRepository.findById repo (ru_id u) db) as [[e|[r|]] d1].
  - intros [= <- _ _ _]. by right.
  - destruct (negb (UserEntity.is_active r)).
    + intros [= <- _ _ _]. by left.
    + destruct (UserRepository.updateLastSeen repo (UserEntity.id r) d1)
        as [[e|[]] d2]; [|discriminate].
      intros [= <- _ _ _]. by right.
  - intros [= <- _ _ _]. by left.
Qed.

Section WithRepository.
Context `{Libraries} `{!StoreOk}.

(** The ways [validateSession] goes for an authenticated request. *)
Lemma validateSession_active uuid dbnow req now (db : Pg.Table) u r :
  unique_ids db ->
  user req = Some u -> In r db -> uuid_in (ru_id u) = Some (UserEntity.id r) ->
  Pg.row_accepted r = true -> UserEntity.is_active r = true ->
  validateSession (Pg.repository uuid dbnow) req now db
  = (Pass req, map (touch dbnow (UserEntity.id r)) db).
Proof.
  intros Hu Hreq Hin Hid Hr Ha. unfold validateSession. rewrite Hreq.
  unfold bindM, retM.
  cbn [UserRepository.findById UserRepository.updateLastSeen Pg.repository].
  rewrite (findById_found db r _ Hu Hin Hid Hr), Ha. cbn [negb].
  by rewrite (updateLastSeen_touch dbnow _ _ db (uuid_in_canonical _ _ Hid)).
Qed.

Lemma validateSession_inactive uuid dbnow req now (db : Pg.Table) u r :
  unique_ids db ->
  user req = Some u -> In r db -> uuid_in (ru_id u) = Some (UserEntity.id r) ->
  Pg.row_accepted r = true -> UserEntity.is_active r = false ->
  validateSession (Pg.repository uuid dbnow) req now db
  = (Fail 401 (error_body "INVALID_SESSION" "Session is no longer valid" now) [],
     db).
Proof.
  intros Hu Hreq Hin Hid Hr Ha. unfold validateSession. rewrite Hreq.
  unfold bindM, retM. cbn [UserRepository.findById Pg.repository].
  by rewrite (findById_found db r _ Hu Hin Hid Hr), Ha.
Qed.

Lemma validateSession_absent uuid dbnow req now (db : Pg.Table) u c :
  user req = Some u -> uuid_in (ru_id u) = Some c ->
  (forall r, In r db -> UserEntity.id r <> c) ->
  validateSession (Pg.repository uuid dbnow) req now db
  = (Fail 401 (error_body "INVALID_SESSION" "Session is no longer valid" now) [],
     db).
Proof.
  intros Hreq Hid Hno. unfold validateSession. rewrite Hreq.
  unfold bindM, retM. cbn [UserRepository.findById Pg.repository].
  by rewrite (findById_absent db _ c Hid Hno).
Qed.

Lemma validateSession_refused uuid dbnow req now (db : Pg.Table) u r :
  unique_ids db ->
  user req = Some u -> In r db -> uuid_in (ru_id u) = Some (UserEntity.id r) ->
  Pg.row_accepted r = false ->
  validateSession (Pg.repository uuid dbnow) req now db
  = (Fail 500
       (error_body "SESSION_VALIDATION_ERROR" "Failed to validate session" now) [],
     db).
Proof.
  intros Hu Hreq Hin Hid Hr. unfold validateSession. rewrite Hreq.
  unfold bindM, retM. cbn [UserRepository.findById Pg.repository].
  by rewrite (findById_refused db r _ Hu Hin Hid Hr).
Qed.

Lemma validateSession_not_uuid uuid dbnow req now (db : Pg.Table) u :
  user req = Some u -> uuid_in (ru_id u) = None ->
  validateSession (Pg.repository uuid dbnow) req now db
  = (Fail 500
       (error_body "SESSION_VALIDATION_ERROR" "Failed to validate session" now) [],
     db).
Proof.
  intros Hreq Hid. unfold validateSession. rewrite Hreq.
  unfold bindM, retM. cbn [UserRepository.findById Pg.repository].
  by rewrite (findById_not_uuid db _ Hid).
Qed.

(** X5.  [validateSession] over the [users] table, when ids are unique.
    A request without [req.user] is handed on and nothing is written.
    With [req.user], PostgreSQL compares the id as a UUID: when the id is
    not of UUID syntax the query raises and the answer is 500
    [SESSION_VALIDATION_ERROR]; when no row has the id the answer is 401
    [INVALID_SESSION]; when the row with the id fails the entity schema
    (as every row written by [create] does) the answer is 500
    [SESSION_VALIDATION_ERROR]; when the row passes the schema and is
    deactivated the answer is 401 [INVALID_SESSION]; in these four cases
    nothing is written.  When the row passes the schema and is active the
    request is handed on and the [last_seen] of that row, and of no
    other, is set to the server clock. *)
Theorem validateSession_pg (uuid : string) (dbnow : Z) (req : Request) (now : Z)
    (db : Pg.Table) :
  unique_ids db ->
  let repo := Pg.repository uuid dbnow in
  let invalid :=
    Fail 401 (error_body "INVALID_SESSION" "Session is no longer valid" now) [] in
  let failed :=
    Fail 500
      (error_body "SESSION_VALIDATION_ERROR" "Failed to validate session" now) [] in
  (user req = None -> validateSession repo req now db = (Pass req, db))
  /\ (forall u, user req = Some u -> uuid_in (ru_id u) = None ->
        validateSession repo req now db = (failed, db))
  /\ (forall u c, user req = Some u -> uuid_in (ru_id u) = Some c ->
        (forall r, In r db -> UserEntity.id r <> c) ->
        validateSession repo req now db = (invalid, db))
  /\ (forall u r,
        user req = Some u -> uuid_in (ru_id u) = Some (UserEntity.id r) ->
        In r db ->
        (Pg.row_accepted r = false ->
         validateSession repo req now db = (failed, db))
        /\ (Pg.row_accepted r = true -> UserEntity.is_active r = false ->
            validateSession repo req now db = (invalid, db))
        /\ (Pg.row_accepted r = true -> UserEntity.is_active r = true ->
            exists db',
              validateSession repo req now db = (Pass req, db')
              /\ In (UserEntity.with_last_seen dbnow r) db'
              /\ (forall r', In r' db -> UserEntity.id r' <> UserEntity.id r ->
                             In r' db')
              /\ length db' = length db)).
Proof.
  intros Hu repo invalid failed. split; [|split; [|split]].
  - intros Hn. unfold validateSession. by rewrite Hn.
  - intros u Hreq Hid. by apply (validateSession_not_uuid uuid dbnow req now db u).
  - intros u c Hreq Hid Hno.
    by apply (validateSession_absent uuid dbnow req now db u c).
  - intros u r Hreq Hid Hin. split; [|split].
    + intros Hr. by apply (validateSession_refused uuid dbnow req now db u r).
    + intros Hr Ha. by apply (validateSession_inactive uuid dbnow req now db u r).
    + intros Hr Ha. eexists. split.
      { by apply (validateSession_active uuid dbnow req now db u r). }
      split; [|split].
      * apply (in_map (touch dbnow (UserEntity.id r))) in Hin.
        by rewrite (touch_hit dbnow r Ha) in Hin.
      * intros r' Hr' Hne. apply (in_map (touch dbnow (UserEntity.id r))) in Hr'.
        by rewrite (touch_miss dbnow _ r' Hne) in Hr'.
      * apply length_map.
Qed.

End WithRepository.
End GuardFacts.

(* --------------------------------------------------------------------- *)
(** ** Sessions: how long a token is good, and what logging out does      *)
(* --------------------------------------------------------------------- *)

Module SessionFacts.
Import Guards Middleware AuthService Routes RateLimit Router.
Import ZodFacts TableFacts UpdateFacts GuardFacts RouterFacts.

Section WithLibraries.
Context `{Libraries}.

Lemma floor_div_mono a b : a <= b -> floor_div a 1000 <= floor_div b 1000.
Proof. intros Hab. unfold floor_div. apply Z.div_le_mono; lia. Qed.

Lemma check_nbf_later payload c c' :
  Jwt.check_nbf payload c = inr tt -> c <= c' ->
  Jwt.check_nbf payload c' = inr tt.
Proof.
  unfold Jwt.check_nbf. destruct (get "nbf" payload) as [[|nbf| |]|]; try done.
  destruct (nbf >? c) eqn:Hc; [discriminate|]. intros _ Hle.
  destruct (nbf >? c') eqn:Hc'; [lia|done].
Qed.

Variable this : AuthService.t.

(** What an accepted access token looks like. *)
Lemma verifyAccessToken_inv token now p :
  verifyAccessToken this token now = inr p ->
  exists payload sg,
    jws_decode token = Some (payload, sg)
    /\ String.eqb (JWT_SECRET this) "" = false
    /\ String.eqb sg (hmac (JWT_SECRET this) payload) = true
    /\ Jwt.check_nbf payload (floor_div now 1000) = inr tt
    /\ Jwt.check_exp payload (floor_div now 1000) = inr tt
    /\ Zod.JWTPayloadSchema_parse payload = inr p.
Proof.
  unfold verifyAccessToken, Jwt.verify. intros Hv.
  destruct (jws_decode token) as [[payload sg]|]; [|discriminate].
  destruct (String.eqb (JWT_SECRET this) "") eqn:Hk; [discriminate|].
  destruct (String.eqb sg _) eqn:Hsg; [|discriminate]. cbn [negb] in Hv.
  destruct (Jwt.check_nbf _ _) as [|[]] eqn:Hnbf; [discriminate|].
  destruct (Jwt.check_exp _ _) as [|[]] eqn:Hexp; [discriminate|].
  cbn [bind ret] in Hv.
  destruct (Zod.JWTPayloadSchema_parse payload) as [|p'] eqn:Hp; [discriminate|].
  injection Hv as <-. exists payload, sg. done.
Qed.

Lemma verifyAccessToken_later token now now' p :
  verifyAccessToken this token now = inr p ->
  now <= now' ->
  floor_div now' 1000 < JWTPayload.exp p ->
  verifyAccessToken this token now' = inr p.
Proof.
  intros Hv Hle Hlt.
  destruct (verifyAccessToken_inv token now p Hv)
    as (payload & sg & Hd & Hk & Hsg & Hnbf & _ & Hp).
  destruct (JWTPayloadSchema_parse_inv payload p Hp)
    as (_ & _ & _ & _ & _ & _ & _ & _ & _ & Hexp).
  unfold verifyAccessToken, Jwt.verify. rewrite Hd, Hk, Hsg. cbn [negb].
  rewrite (check_nbf_later payload _ _ Hnbf (floor_div_mono _ _ Hle)).
  cbn [bind]. unfold Jwt.check_exp. rewrite Hexp.
  destruct (_ >=? _) eqn:Hge; [lia|]. cbn [bind ret try_catch]. by rewrite Hp.
Qed.

(** X6.  An access token is good for an interval of time that ends with
    the second [exp]: if [verifyAccessToken] accepts a token at some
    clock reading and returns payload [p], then that reading is before
    [p.exp], the token is accepted with the same payload at every later
    reading before [p.exp], and it is refused with 'Invalid access token'
    from [p.exp] on. *)
Theorem verifyAccessToken_valid_until_exp (token : string) (now now' : Z)
    (p : JWTPayload.t) :
  verifyAccessToken this token now = inr p ->
  now <= now' ->
  floor_div now 1000 < JWTPayload.exp p
  /\ (floor_div now' 1000 < JWTPayload.exp p ->
      verifyAccessToken this token now' = inr p)
  /\ (JWTPayload.exp p <= floor_div now' 1000 ->
      verifyAccessToken this token now' = inl (Error "Invalid access token")).
Proof.
  intros Hv Hle.
  destruct (verifyAccessToken_inv token now p Hv)
    as (payload & sg & Hd & Hk & Hsg & Hnbf & Hx & Hp).
  destruct (JWTPayloadSchema_parse_inv payload p Hp)
    as (_ & _ & _ & _ & _ & _ & _ & _ & _ & Hexp).
  split; [|split].
  - unfold Jwt.check_exp in Hx. rewrite Hexp in Hx.
    destruct (_ >=? _) eqn:Hge; [discriminate|lia].
  - intros Hlt. by apply (verifyAccessToken_later token now).
  - intros Hge. unfold verifyAccessToken, Jwt.verify. rewrite Hd, Hk, Hsg.
    cbn [negb].
    rewrite (check_nbf_later payload _ _ Hnbf (floor_div_mono _ _ Hle)).
    cbn [bind]. unfold Jwt.check_exp. rewrite Hexp.
    destruct (_ >=? _) eqn:Hge'; [done|lia].
Qed.

(** What [authenticate] stores in [req.user]. *)
Definition user_of (p : JWTPayload.t) : ReqUser :=
  {| ru_id := JWTPayload.userId p;
     ru_email := JWTPayload.email p;
     ru_role := JWTPayload.role p;
     ru_timezone := JWTPayload.timezone p;
     ru_sessionId := JWTPayload.sessionId p |}.

Lemma user_with_user req p : user (with_user req p) = Some (user_of p).
Proof. reflexivity. Qed.

Section OverTheTable.
Context `{!StoreOk}.
Variables (uuid : string).

(** The stack [authenticate, validateSession] on a request whose token
    verifies and whose user is active. *)
Lemma protected_passes dbnow req now (db : Pg.Table) token p r :
  unique_ids db ->
  extractToken req = Some token -> token <> "" ->
  verifyAccessToken this token now = inr p ->
  In r db -> uuid_in (JWTPayload.userId p) = Some (UserEntity.id r) ->
  Pg.row_accepted r = true -> UserEntity.is_active r = true ->
  protected this (Pg.repository uuid dbnow) req now db
  = (Pass (with_user req p), map (touch dbnow (UserEntity.id r)) db).
Proof.
  intros Hu Ht Hne Hver Hin Hid Hr Ha. unfold protected, authenticate.
  rewrite Ht. destruct (String.eqb_spec token ""); [done|]. rewrite Hver.
  by apply (validateSession_active uuid dbnow (with_user req p) now db
              (user_of p) r).
Qed.

(** What a request that got through the stack tells. *)
Lemma protected_inv dbnow req now (db db' : Pg.Table) req' :
  unique_ids db ->
  protected this (Pg.repository uuid dbnow) req now db = (Pass req', db') ->
  exists token p r,
    extractToken req = Some token /\ token <> ""
    /\ verifyAccessToken this token now = inr p
    /\ In r db /\ uuid_in (JWTPayload.userId p) = Some (UserEntity.id r)
    /\ Pg.row_accepted r = true /\ UserEntity.is_active r = true
    /\ req' = with_user req p
    /\ db' = map (touch dbnow (UserEntity.id r)) db.
Proof.
  intros Hu. unfold protected, authenticate.
  destruct (extractToken req) as [token|] eqn:Ht; [|discriminate].
  destruct (String.eqb_spec token "") as [|Hne]; [discriminate|].
  destruct (verifyAccessToken this token now) as [|p] eqn:Hver; [discriminate|].
  intros Hs.
  destruct (uuid_in (JWTPayload.userId p)) as [c|] eqn:Hc.
  - destruct (in_dec string_dec c (map UserEntity.id db)) as [Hin|Hnin].
    + apply in_map_iff in Hin as (r & <- & Hin).
      destruct (Pg.row_accepted r) eqn:Hr.
      * destruct (UserEntity.is_active r) eqn:Ha.
        -- rewrite (validateSession_active uuid dbnow _ now db (user_of p) r Hu
                      (user_with_user req p) Hin Hc Hr Ha) in Hs.
           injection Hs as <- <-. exists token, p, r. done.
        -- by rewrite (validateSession_inactive uuid dbnow _ now db (user_of p) r Hu
                         (user_with_user req p) Hin Hc Hr Ha) in Hs.
      * by rewrite (validateSession_refused uuid dbnow _ now db (user_of p) r Hu
                      (user_with_user req p) Hin Hc Hr) in Hs.
    + rewrite (validateSession_absent uuid dbnow _ now db (user_of p) c
                 (user_with_user req p) Hc) in Hs; [discriminate|].
      intros r Hr Hid. destruct Hnin. rewrite <- Hid. by apply in_map.
  - by rewrite (validateSession_not_uuid uuid dbnow _ now db (user_of p)
                  (user_with_user req p) Hc) in Hs.
Qed.

(** The stack answers 401 or 500 when it answers. *)
Lemma protected_fail_status dbnow req now (db db' : Pg.Table) status body more :
  protected this (Pg.repository uuid dbnow) req now db
  = (Fail status body more, db') ->
  status = 401 \/ status = 500.
Proof.
  unfold protected, authenticate.
  destruct (extractToken req) as [token|]; [|intros [= <- _ _ _]; by left].
  destruct (String.eqb token ""); [intros [= <- _ _ _]; by left|].
  destruct (verifyAccessToken this token now); [intros [= <- _ _ _]; by left|].
  apply validateSession_fail_status.
Qed.

(** X7.  Logging out revokes nothing.  Over the [users] table, when ids
    are unique: if [POST /logout] answers 200 for a request, then the user
    of its token has an active row that passes the entity schema, and all
    the call changed in the table is the [last_seen] of that row.  The
    same request, presented again at any later clock reading before the
    [exp] of its token, is answered 200 again whenever the limiter in
    front of the routes lets it through, and 429 [RATE_LIMIT_EXCEEDED]
    otherwise: no answer of the route depends on the earlier logout. *)
Theorem logout_revokes_nothing (dbnow dbnow' : Z) (req : Request)
    (tick tick' now now' : Z) (st st1 : gmap string Entry * Pg.Table)
    (resp : Response) (token : string) (p : JWTPayload.t) :
  unique_ids st.2 ->
  extractToken req = Some token ->
  verifyAccessToken this token now = inr p ->
  post_logout this (Pg.repository uuid dbnow) req tick now st = (resp, st1) ->
  status resp = 200 ->
  now <= now' -> floor_div now' 1000 < JWTPayload.exp p ->
  exists r,
    In r st.2 /\ uuid_in (JWTPayload.userId p) = Some (UserEntity.id r)
    /\ Pg.row_accepted r = true /\ UserEntity.is_active r = true
    /\ st1.2 = map (touch dbnow (UserEntity.id r)) st.2
    /\ let limiter := authRateLimit 5 (15 * 60 * 1000) req tick' st1.1 in
       let again :=
         post_logout this (Pg.repository uuid dbnow') req tick' now' st1 in
       (limiter.2 = Next req ->
        again = ({| status := 200; body := MessageJson "Logout successful" now' |},
                 (limiter.1, map (touch dbnow' (UserEntity.id r)) st1.2)))
       /\ (forall e,
             limiter.2 = Respond 429 (too_many tick' e) ->
             again = (middleware_response 429 (too_many tick' e) [],
                      (limiter.1, st1.2)))
       /\ (limiter.2 = Next req
           \/ exists e, limiter.2 = Respond 429 (too_many tick' e)).
Proof.
  intros Hu Ht Hver Hlog Hst Hle Hlt. unfold post_logout in Hlog.
  destruct (authRateLimit_outcome 5 (15 * 60 * 1000) req tick st.1) as [Hn|[e He]].
  2:{ rewrite (limited_rejected _ _ _ _ e He) in Hlog. injection Hlog as <- _.
      discriminate. }
  rewrite (limited_admitted _ _ _ _ Hn) in Hlog.
  destruct (protected this (Pg.repository uuid dbnow) req now st.2)
    as [[req'|s b m] d] eqn:Hprot; cbn [fst snd] in Hlog.
  2:{ injection Hlog as <- _. cbn [status middleware_response] in Hst.
      apply protected_fail_status in Hprot. lia. }
  injection Hlog as _ <-. cbn [snd].
  destruct (protected_inv dbnow req now st.2 d req' Hu Hprot)
    as (token' & p' & r & Ht' & Hne & Hver' & Hin & Hid & Hr & Ha & -> & ->).
  rewrite Ht in Ht'. injection Ht' as <-.
  rewrite Hver in Hver'. injection Hver' as <-.
  exists r. do 5 (split; [done|]). cbv zeta.
  assert (Hprot' :
    protected this (Pg.repository uuid dbnow') req now'
      (map (touch dbnow (UserEntity.id r)) st.2)
    = (Pass (with_user req p),
       map (touch dbnow' (UserEntity.id r))
         (map (touch dbnow (UserEntity.id r)) st.2))).
  { pose proof (protected_passes dbnow' req now' _ token p
                  (touch dbnow (UserEntity.id r) r)
                  (touch_unique_ids dbnow (UserEntity.id r) st.2 Hu) Ht Hne
                  (verifyAccessToken_later token now now' p Hver Hle Hlt)
                  (in_map _ _ _ Hin)) as Hpass.
    rewrite touch_id, touch_accepted, touch_is_active in Hpass. by apply Hpass. }
  split; [|split].
  - intros Hnext. unfold post_logout.
    rewrite (limited_admitted _ _ _ _ Hnext). cbn [fst snd]. by rewrite Hprot'.
  - intros e He. unfold post_logout.
    by rewrite (limited_rejected _ _ _ _ e He).
  - apply authRateLimit_outcome.
Qed.

End OverTheTable.
End WithLibraries.
End SessionFacts.

(** Runs of the middleware under the reference libraries. *)
Module GuardExamples.
Import Guards Middleware AuthService Routes Router.
Import ReferenceFacts TokenFacts TokenExamples ServiceExamples.
Import TableFacts UpdateFacts GuardFacts SessionFacts.

#[local] Existing Instance Reference.libraries.
#[local] Existing Instance libraries_ok.
#[local] Existing Instance store_ok.
#[local] Opaque Reference.libraries.

(** Alice's request: her access token, issued at second 1700000000, in the
    [Authorization] header. *)
Definition alice_token : string := AuthTokens.accessToken alice_tokens.

Definition alice_payload : JWTPayload.t :=
  JWTPayload.mk (TokenClaims.userId alice_claims) (TokenClaims.email alice_claims)
    (TokenClaims.role alice_claims) (TokenClaims.timezone alice_claims)
    (TokenClaims.sessionId alice_claims) (floor_div 1700000000000 1000)
    (floor_div 1700000000000 1000 + floor_div 900000 1000).

Definition alice_request : Request :=
  {| authorization := Some (String.append "Bearer " alice_token);
     ip := Some "203.0.113.7";
     remoteAddress := None;
     user := None |}.

Definition alice_authenticated : Request := with_user alice_request alice_payload.

Lemma extractToken_bearer (token : string) ip remoteAddress user :
  extractToken {| authorization := Some (String.append "Bearer " token);
                  ip := ip; remoteAddress := remoteAddress; user := user |}
  = Some token.
Proof. by destruct token. Qed.

Lemma alice_token_extracted : extractToken alice_request = Some alice_token.
Proof. exact (extractToken_bearer alice_token _ _ _). Qed.

Lemma alice_token_nonempty : alice_token <> "".
Proof. apply jws_encode_nonempty. Qed.

Lemma alice_token_verifies now' :
  floor_div now' 1000 < floor_div 1700000000000 1000 + floor_div 900000 1000 ->
  verifyAccessToken service alice_token now' = inr alice_payload.
Proof.
  intros Hlt.
  exact (verifyAccessToken_issued service alice_claims (floor_div 1700000000000 1000)
           900000 now' ltac:(discriminate) alice_userId alice_email alice_sessionId
           Hlt).
Qed.

Lemma at_issue :
  floor_div 1700000000000 1000
  < floor_div 1700000000000 1000 + floor_div 900000 1000.
Proof. vm_compute. reflexivity. Qed.

Lemma a_minute_after_issue :
  floor_div 1700000060000 1000
  < floor_div 1700000000000 1000 + floor_div 900000 1000.
Proof. vm_compute. reflexivity. Qed.

Lemma alice_unique : unique_ids [alice_row].
Proof. repeat constructor. cbn. set_solver. Qed.

Lemma alice_unique_email : unique_emails [alice_row].
Proof. repeat constructor. cbn. set_solver. Qed.

Lemma alice_id_canonical :
  uuid_in (ru_id (user_of alice_payload)) = Some (UserEntity.id alice_row).
Proof. vm_compute. reflexivity. Qed.

(** [validateSession] on Alice's authenticated request stamps her row. *)
Lemma validateSession_pg_witness :
  exists db',
    validateSession (Pg.repository next_uuid 1700000001000) alice_authenticated
      1700000001000 [alice_row]
    = (Pass alice_authenticated, db')
    /\ In (UserEntity.with_last_seen 1700000001000 alice_row) db'
    /\ (forall r', In r' [alice_row] ->
                   UserEntity.id r' <> UserEntity.id alice_row -> In r' db')
    /\ length db' = length [alice_row].
Proof.
  exact (proj2 (proj2 (proj2 (proj2 (proj2 (validateSession_pg next_uuid
                                              1700000001000 alice_authenticated
                                              1700000001000 [alice_row]
                                              alice_unique)))
                               (user_of alice_payload) alice_row eq_refl
                               alice_id_canonical (or_introl eq_refl)))
           alice_row_accepted eq_refl).
Defined.

(** Alice's token, a minute after it was issued. *)
Lemma verifyAccessToken_valid_until_exp_witness :
  floor_div 1700000000000 1000 < JWTPayload.exp alice_payload
  /\ (floor_div 1700000060000 1000 < JWTPayload.exp alice_payload ->
      verifyAccessToken service alice_token 1700000060000 = inr alice_payload)
  /\ (JWTPayload.exp alice_payload <= floor_div 1700000060000 1000 ->
      verifyAccessToken service alice_token 1700000060000
      = inl (Error "Invalid access token")).
Proof.
  exact (verifyAccessToken_valid_until_exp service alice_token 1700000000000
           1700000060000 alice_payload (alice_token_verifies 1700000000000 at_issue)
           ltac:(lia)).
Defined.

(** The limiter's map after Alice's first and second request. *)
Definition alice_once : gmap string RateLimit.Entry :=
  {[ "203.0.113.7" :=
       {| RateLimit.count := 1; RateLimit.resetTime := 1700000901000 |} ]}.

Definition alice_twice : gmap string RateLimit.Entry :=
  {[ "203.0.113.7" :=
       {| RateLimit.count := 2; RateLimit.resetTime := 1700000901000 |} ]}.

Definition alice_seen_once : Pg.Table :=
  map (touch 1700000001000 (UserEntity.id alice_row)) [alice_row].

Lemma alice_token_verifies_at_logout :
  verifyAccessToken service alice_token 1700000001000 = inr alice_payload.
Proof. apply alice_token_verifies. vm_compute. reflexivity. Qed.

Lemma alice_logs_out :
  post_logout service (Pg.repository next_uuid 1700000001000) alice_request
    1700000001000 1700000001000 (∅, [alice_row])
  = ({| status := 200; body := MessageJson "Logout successful" 1700000001000 |},
     (alice_once, alice_seen_once)).
Proof.
  unfold post_logout.
  rewrite (RouterFacts.limited_admitted alice_request 1700000001000 _
             (∅, [alice_row])) by (cbn [fst]; by rewrite RouterFacts.first_call).
  cbn [fst snd]. rewrite RouterFacts.first_call. cbn [fst].
  rewrite (protected_passes service next_uuid 1700000001000 alice_request
             1700000001000 [alice_row] alice_token alice_payload alice_row
             alice_unique alice_token_extracted alice_token_nonempty
             alice_token_verifies_at_logout (or_introl eq_refl)
             alice_id_canonical alice_row_accepted eq_refl).
  reflexivity.
Qed.

Lemma a_minute_before_exp :
  floor_div 1700000060000 1000 < JWTPayload.exp alice_payload.
Proof. vm_compute. reflexivity. Qed.

Lemma replay_admitted :
  RateLimit.authRateLimit 5 (15 * 60 * 1000) alice_request 1700000060000 alice_once
  = (alice_twice, Next alice_request).
Proof.
  rewrite (RateLimitFacts.step_live 5 _ alice_request 1700000060000 alice_once
             {| RateLimit.count := 1; RateLimit.resetTime := 1700000901000 |}
             eq_refl ltac:(cbn; lia)).
  change (RateLimit.clientId alice_request) with "203.0.113.7".
  cbn [RateLimit.count RateLimit.resetTime]. change (1 >=? 5) with false.
  cbv iota. by f_equal.
Qed.

(** Alice logs out, and a minute later the same request is answered 200
    again. *)
Lemma logout_revokes_nothing_witness :
  post_logout service (Pg.repository next_uuid 1700000060000) alice_request
    1700000060000 1700000060000 (alice_once, alice_seen_once)
  = ({| status := 200; body := MessageJson "Logout successful" 1700000060000 |},
     (alice_twice,
      map (touch 1700000060000 (UserEntity.id alice_row)) alice_seen_once)).
Proof.
  destruct (logout_revokes_nothing service next_uuid 1700000001000 1700000060000
              alice_request 1700000001000 1700000060000 1700000001000
              1700000060000 (∅, [alice_row]) (alice_once, alice_seen_once) _
              alice_token alice_payload alice_unique alice_token_extracted
              alice_token_verifies_at_logout alice_logs_out eq_refl ltac:(lia)
              a_minute_before_exp)
    as (r & Hin & _ & _ & _ & _ & Hadmit & _).
  destruct Hin as [<-|[]]. cbn [fst snd] in Hadmit.
  rewrite replay_admitted in Hadmit. exact (Hadmit eq_refl).
Defined.

End GuardExamples.

(* --------------------------------------------------------------------- *)
(** ** The services over the table: what they write                       *)
(* --------------------------------------------------------------------- *)

Module StoreFacts.
Import AuthService Guards TableFacts UpdateFacts.

(** [m] relates the store it starts from to the store it leaves by
    [I]. *)
Definition keeps {Db A} (I : Db -> Db -> Prop) (m : M Db A) : Prop :=
  forall db r db', m db = (r, db') -> I db db'.

Section Keeps.
Context {Db : Type} (I : Db -> Db -> Prop).
Hypothesis I_refl : forall db, I db db.
Hypothesis I_trans : forall a b c, I a b -> I b c -> I a c.

Lemma keeps_retM {A} (a : A) : keeps I (retM a).
Proof. intros db r db' [= _ <-]. apply I_refl. Qed.

Lemma keeps_throwM {A} e : keeps I (throwM (A := A) e).
Proof. intros db r db' [= _ <-]. apply I_refl. Qed.

Lemma keeps_liftM {A} (x : Result A) : keeps I (liftM x).
Proof. intros db r db' [= _ <-]. apply I_refl. Qed.

Lemma keeps_bindM {A B} (m : M Db A) (k : A -> M Db B) :
  keeps I m -> (forall a, keeps I (k a)) -> keeps I (bindM m k).
Proof.
  intros Hm Hk db r db'. unfold bindM.
  destruct (m db) as [[e|a] db1] eqn:Hmdb.
  - intros [= _ <-]. by apply (Hm db (inl e)).
  - intros Hka. apply (I_trans _ db1); [by apply (Hm db (inr a))|].
    by apply (Hk a db1 r).
Qed.

Lemma keeps_try_catchM {A} (m : M Db A) (h : JsError -> M Db A) :
  keeps I m -> (forall e, keeps I (h e)) -> keeps I (try_catchM m h).
Proof.
  intros Hm Hh db r db'. unfold try_catchM.
  destruct (m db) as [[e|a] db1] eqn:Hmdb.
  - intros Hhe. apply (I_trans _ db1); [by apply (Hm db (inl e))|].
    by apply (Hh e db1 r).
  - intros [= _ <-]. by apply (Hm db (inr a)).
Qed.

Context `{Libraries} (this : AuthService.t) (repo : UserRepository.t Db).

(** [login] writes through [findByEmail], [updateById] and
    [updateLastSeen] only. *)
Lemma login_keeps loginData now sessionId :
  (forall e, keeps I (UserRepository.findByEmail repo e)) ->
  (forall id tz, keeps I (UserRepository.updateById repo id tz)) ->
  (forall id, keeps I (UserRepository.updateLastSeen repo id)) ->
  keeps I (login this repo loginData now sessionId).
Proof.
  intros Hf Hu Hs. unfold login.
  apply keeps_try_catchM; [|intros e; apply keeps_throwM].
  apply keeps_bindM; [apply keeps_liftM|]. intros data.
  apply keeps_bindM; [apply Hf|]. intros [user|]; [|apply keeps_throwM].
  destruct (negb (UserEntity.is_active user)); [apply keeps_throwM|].
  destruct (negb (bcrypt_compare _ _)); [apply keeps_throwM|].
  apply keeps_bindM.
  - destruct (LoginRequest.timezone data) as [tz|]; [|apply keeps_retM].
    destruct (_ && _); [|apply keeps_retM].
    apply keeps_bindM; [apply Hu|]. intros _. apply keeps_retM.
  - intros user'. apply keeps_bindM; [apply keeps_liftM|]. intros tokens.
    apply keeps_bindM; [apply Hs|]. intros _. apply keeps_retM.
Qed.

(** [refreshToken] writes through [findById] and [updateLastSeen]
    only. *)
Lemma refreshToken_keeps refreshTokenData now :
  (forall id, keeps I (UserRepository.findById repo id)) ->
  (forall id, keeps I (UserRepository.updateLastSeen repo id)) ->
  keeps I (refreshToken this repo refreshTokenData now).
Proof.
  intros Hf Hs. unfold refreshToken.
  apply keeps_try_catchM; [|intros e; apply keeps_throwM].
  apply keeps_bindM; [apply keeps_liftM|]. intros data.
  apply keeps_bindM; [apply keeps_liftM|]. intros payload.
  apply keeps_bindM; [apply Hf|]. intros [user|]; [|apply keeps_throwM].
  destruct (negb (UserEntity.is_active user)); [apply keeps_throwM|].
  apply keeps_bindM; [apply keeps_liftM|]. intros tokens.
  apply keeps_bindM; [apply Hs|]. intros _. apply keeps_retM.
Qed.

(** [register] writes through [findByEmail], [create] and
    [updateLastSeen] only. *)
Lemma register_keeps userData now salt sessionId :
  (forall e, keeps I (UserRepository.findByEmail repo e)) ->
  (forall d, keeps I (UserRepository.create repo d)) ->
  (forall id, keeps I (UserRepository.updateLastSeen repo id)) ->
  keeps I (register this repo userData now salt sessionId).
Proof.
  intros Hf Hc Hs. unfold register.
  apply keeps_try_catchM; [|intros e; apply keeps_throwM].
  apply keeps_bindM; [apply keeps_liftM|]. intros data.
  apply keeps_bindM; [apply Hf|]. intros [user|]; [apply keeps_throwM|].
  apply keeps_bindM; [apply keeps_liftM|]. intros hash.
  apply keeps_bindM; [apply Hc|]. intros newUser.
  apply keeps_bindM; [apply keeps_liftM|]. intros tokens.
  apply keeps_bindM; [apply Hs|]. intros _. apply keeps_retM.
Qed.

(** [validateSession] writes through [findById] and [updateLastSeen]
    only. *)
Lemma validateSession_keeps req now db reply db' :
  (forall id, keeps I (UserRepository.findById repo id)) ->
  (forall id, keeps I (UserRepository.updateLastSeen repo id)) ->
  validateSession repo req now db = (reply, db') -> I db db'.
Proof.
  intros Hf Hs. unfold validateSession.
  destruct (user req) as [u|]; [|intros [= _ <-]; apply I_refl].
  match goal with |- context [bindM ?m ?k db] => set (body := bindM m k) end.
  assert (Hbody : keeps I body).
  { apply keeps_bindM; [apply Hf|]. intros [user|]; [|apply keeps_retM].
    destruct (negb (UserEntity.is_active user)); [apply keeps_retM|].
    apply keeps_bindM; [apply Hs|]. intros _. apply keeps_retM. }
  destruct (body db) as [[e|rep] d] eqn:Hb; intros [= _ <-];
    by apply (Hbody db _ d Hb).
Qed.

End Keeps.

(** The columns that make an account what it is: everything but
    [timezone], [last_seen] and [updated_at]. *)
Definition account (r : UserEntity.t)
  : string * string * string * string * UserRole * option string
    * option string * bool * bool * Z :=
  (UserEntity.id r, UserEntity.name r, UserEntity.email r,
   UserEntity.password_hash r, UserEntity.role r, UserEntity.avatar_url r,
   UserEntity.bio r, UserEntity.is_active r, UserEntity.email_verified r,
   UserEntity.created_at r).

Definition same_accounts (db db' : Pg.Table) : Prop :=
  map account db' = map account db.

Definition accounts_kept (db db' : Pg.Table) : Prop :=
  exists added, map account db' = map account db ++ added.

Lemma same_accounts_refl db : same_accounts db db.
Proof. reflexivity. Qed.

Lemma same_accounts_trans a b c :
  same_accounts a b -> same_accounts b c -> same_accounts a c.
Proof. unfold same_accounts. congruence. Qed.

Lemma accounts_kept_refl db : accounts_kept db db.
Proof. exists []. by rewrite app_nil_r. Qed.

Lemma accounts_kept_trans a b c :
  accounts_kept a b -> accounts_kept b c -> accounts_kept a c.
Proof.
  intros [x Hx] [y Hy]. exists (x ++ y). by rewrite Hy, Hx, <- app_assoc.
Qed.

Lemma same_accounts_kept db db' : same_accounts db db' -> accounts_kept db db'.
Proof. intros Hs. exists []. by rewrite app_nil_r. Qed.

Section WithLibraries.
Context `{Libraries}.

Lemma findByEmail_same e : keeps same_accounts (Pg.findByEmail e).
Proof.
  intros db r db'. unfold Pg.findByEmail.
  destruct (pg_text _); intros [= _ <-]; reflexivity.
Qed.

Lemma findById_same id : keeps same_accounts (Pg.findById id).
Proof.
  intros db r db'. unfold Pg.findById.
  destruct (uuid_in id); intros [= _ <-]; reflexivity.
Qed.

Lemma updateLastSeen_same dbnow id : keeps same_accounts (Pg.updateLastSeen dbnow id).
Proof.
  intros db r db'. unfold Pg.updateLastSeen.
  destruct (uuid_in id) as [c|]; intros [= _ <-]; [|reflexivity].
  unfold same_accounts. apply map_keeps. intros x. by destruct (_ && _).
Qed.

Lemma updateById_same dbnow id tz : keeps same_accounts (Pg.updateById dbnow id tz).
Proof.
  intros db r db'. unfold Pg.updateById.
  destruct (uuid_in id) as [c|]; [|intros [= _ <-]; reflexivity].
  destruct (negb (pg_text tz)); [intros [= _ <-]; reflexivity|].
  destruct (negb (existsb _ db)); [intros [= _ <-]; reflexivity|].
  destruct (negb (Pg.fits 50 tz)); intros [= _ <-]; [reflexivity|].
  unfold same_accounts. apply map_keeps. intros x. by destruct (Pg.has_id c x).
Qed.

Lemma create_kept uuid dbnow d : keeps accounts_kept (Pg.create uuid dbnow d).
Proof.
  intros db r db'. unfold Pg.create, bindM, liftM.
  destruct (Pg.validate_create d) as [|d']; [intros [= _ <-]; apply accounts_kept_refl|].
  destruct (Pg.insert_error uuid d' db); intros [= _ <-];
    [apply accounts_kept_refl|].
  eexists. by rewrite map_app.
Qed.

(** X8.  What the services never write.  Over the [users] table, for every
    input and whether they succeed or fail: [login], [refreshToken] and
    [validateSession] neither add, remove nor reorder rows and leave the
    id, name, e-mail, password hash, role, avatar, bio, activation,
    verification and creation time of every row as they were (only
    [timezone], [last_seen] and [updated_at] can change); [register] keeps
    all of that for the rows that were there and at most appends rows
    after them. *)
Theorem services_keep_accounts (this : AuthService.t) (uuid : string)
    (dbnow now : Z) (db : Pg.Table) :
  let repo := Pg.repository uuid dbnow in
  (forall loginData sessionId,
     same_accounts db (login this repo loginData now sessionId db).2)
  /\ (forall refreshTokenData,
        same_accounts db (refreshToken this repo refreshTokenData now db).2)
  /\ (forall req, same_accounts db (validateSession repo req now db).2)
  /\ (forall userData salt sessionId,
        accounts_kept db (register this repo userData now salt sessionId db).2).
Proof.
  intros repo. split; [|split; [|split]].
  - intros loginData sessionId.
    destruct (login this repo loginData now sessionId db) as [r db'] eqn:Hl.
    apply (login_keeps same_accounts same_accounts_refl same_accounts_trans this repo
             loginData now sessionId) in Hl; [done|..].
    + intros e. apply findByEmail_same.
    + intros id tz. apply updateById_same.
    + intros id. apply updateLastSeen_same.
  - intros refreshTokenData.
    destruct (refreshToken this repo refreshTokenData now db) as [r db'] eqn:Hr.
    apply (refreshToken_keeps same_accounts same_accounts_refl same_accounts_trans
             this repo refreshTokenData now) in Hr; [done|..].
    + intros id. apply findById_same.
    + intros id. apply updateLastSeen_same.
  - intros req.
    destruct (validateSession repo req now db) as [r db'] eqn:Hv.
    apply (validateSession_keeps same_accounts same_accounts_refl
             same_accounts_trans repo req now) in Hv; [done|..].
    + intros id. apply findById_same.
    + intros id. apply updateLastSeen_same.
  - intros userData salt sessionId.
    destruct (register this repo userData now salt sessionId db) as [r db'] eqn:Hr.
    apply (register_keeps accounts_kept accounts_kept_refl accounts_kept_trans
             this repo userData now salt sessionId) in Hr; [done|..].
    + intros e db0 r0 db1 Hf. apply same_accounts_kept.
      by apply (findByEmail_same e db0 r0).
    + intros d. apply create_kept.
    + intros id db0 r0 db1 Hf. apply same_accounts_kept.
      by apply (updateLastSeen_same dbnow id db0 r0).
Qed.

End WithLibraries.
End StoreFacts.

(* --------------------------------------------------------------------- *)
(** ** More of AuthService.ts and routes/auth.ts                          *)
(* --------------------------------------------------------------------- *)

Module ServiceFacts.
Import AuthService Routes RateLimit Router ZodFacts TokenFacts RouterFacts.

Section WithLibraries.
Context `{Libraries}.

Lemma or_default_spec v d :
  or_default v d = if Js.truthy v then default "" v else d.
Proof.
  unfold or_default, Js.or. destruct v as [s|]; [|done].
  by destruct (Js.truthy (Some s)).
Qed.

(** X9.  [new AuthService()] throws exactly when [JWT_SECRET] is unset or
    empty.  Otherwise the service signs access tokens with [JWT_SECRET] and
    refresh tokens with [JWT_REFRESH_SECRET] or, when that is unset or
    empty, with [JWT_SECRET] again, so that neither key is ever empty;
    the lifetimes default to '15m' and '7d' and the bcrypt rounds to
    [parseInt('12')] when unset or empty. *)
Theorem constructor_requires_secret (env : Env.t) :
  (Js.truthy (Env.JWT_SECRET env) = false ->
   constructor env = inl (Error "JWT_SECRET environment variable is required"))
  /\ (Js.truthy (Env.JWT_SECRET env) = true ->
      exists this,
        constructor env = inr this
        /\ Env.JWT_SECRET env = Some (JWT_SECRET this)
        /\ JWT_SECRET this <> ""
        /\ JWT_REFRESH_SECRET this <> ""
        /\ JWT_REFRESH_SECRET this
           = (if Js.truthy (Env.JWT_REFRESH_SECRET env)
              then default "" (Env.JWT_REFRESH_SECRET env)
              else JWT_SECRET this)
        /\ JWT_EXPIRES_IN this
           = (if Js.truthy (Env.JWT_EXPIRES_IN env)
              then default "" (Env.JWT_EXPIRES_IN env) else "15m")
        /\ JWT_REFRESH_EXPIRES_IN this
           = (if Js.truthy (Env.JWT_REFRESH_EXPIRES_IN env)
              then default "" (Env.JWT_REFRESH_EXPIRES_IN env) else "7d")
        /\ BCRYPT_ROUNDS this
           = parseInt (if Js.truthy (Env.BCRYPT_ROUNDS env)
                       then default "" (Env.BCRYPT_ROUNDS env) else "12")).
Proof.
  unfold constructor. rewrite !or_default_spec. unfold Js.or.
  destruct env as [sec rs ei rei br].
  cbn [Env.JWT_SECRET Env.JWT_REFRESH_SECRET Env.JWT_EXPIRES_IN
       Env.JWT_REFRESH_EXPIRES_IN Env.BCRYPT_ROUNDS].
  split.
  - intros Hs. rewrite Hs. destruct sec as [sec|].
    + destruct (Js.truthy rs); [destruct rs; [|done]|]; cbn [negb]; done.
    + destruct (Js.truthy rs); by destruct rs.
  - intros Hs. rewrite Hs. destruct sec as [sec|]; [|discriminate].
    assert (Hne : sec <> "").
    { intros ->. discriminate. }
    destruct (Js.truthy rs) eqn:Hrs.
    + destruct rs as [r|]; [|discriminate]. cbn [negb].
      eexists. split; [reflexivity|].
      cbn [JWT_SECRET JWT_REFRESH_SECRET JWT_EXPIRES_IN JWT_REFRESH_EXPIRES_IN
           BCRYPT_ROUNDS default].
      split; [done|]. split; [done|]. split; [by intros ->|]. done.
    + cbn [negb]. eexists. split; [reflexivity|].
      cbn [JWT_SECRET JWT_REFRESH_SECRET JWT_EXPIRES_IN JWT_REFRESH_EXPIRES_IN
           BCRYPT_ROUNDS default].
      done.
Qed.

Variable this : AuthService.t.

Section WithRepository.
Context {Db : Type} (repo : UserRepository.t Db).

(** Whatever goes wrong in [refreshToken], the error is the same. *)
Lemma refreshToken_error refreshTokenData now db e db' :
  refreshToken this repo refreshTokenData now db = (inl e, db') ->
  e = Error "Invalid refresh token".
Proof.
  unfold refreshToken, try_catchM.
  match goal with |- context [bindM ?m ?k db] => destruct (bindM m k db) as [[?|?] ?] end;
    [|discriminate].
  unfold throwM. by intros [= <- _].
Qed.

(** The handler of [POST /refresh], by what the body and the service
    do. *)
Lemma refresh_handler_invalid body now db error :
  Zod.RefreshTokenRequestSchema_parse body = inl error ->
  refresh_handler this repo body now db
  = (error_response 400 "VALIDATION_ERROR" "Invalid refresh token data" now None,
     db).
Proof.
  intros Hp. unfold refresh_handler. rewrite Hp.
  unfold Zod.RefreshTokenRequestSchema_parse in Hp.
  destruct (Zod.string_at _ _ _); [discriminate|]. by injection Hp as <-.
Qed.

Lemma refresh_handler_throws body now db data error db' :
  Zod.RefreshTokenRequestSchema_parse body = inr data ->
  refreshToken this repo (Zod.RefreshTokenRequest_obj data) now db
  = (inl error, db') ->
  refresh_handler this repo body now db
  = (error_response 401 "INVALID_REFRESH_TOKEN" "Invalid or expired refresh token"
       now None, db').
Proof.
  intros Hp Hr. unfold refresh_handler. rewrite Hp, Hr.
  by rewrite (refreshToken_error _ _ _ _ _ Hr).
Qed.

Lemma refresh_handler_returns body now db data tokens db' :
  Zod.RefreshTokenRequestSchema_parse body = inr data ->
  refreshToken this repo (Zod.RefreshTokenRequest_obj data) now db
  = (inr tokens, db') ->
  refresh_handler this repo body now db
  = ({| status := 200;
        body := TokensJson "Token refreshed successfully" tokens now |}, db').
Proof. intros Hp Hr. unfold refresh_handler. by rewrite Hp, Hr. Qed.

(** X10.  [POST /refresh] answers 200, 400, 401 or 429 and nothing
    else.  It answers 429 [RATE_LIMIT_EXCEEDED] exactly when the limiter
    in front of the routes stops the request, and then the store is not
    touched.  When the limiter lets the request through: it answers 400
    [VALIDATION_ERROR] exactly when the body has no non-empty string
    [refreshToken], and then the store is not touched; it answers 200
    exactly when [refreshToken] returns, and then the body holds the
    tokens that [refreshToken] returned and the store is the one it left;
    every other failure, a repository that throws included, is answered
    401 [INVALID_REFRESH_TOKEN]. *)
Theorem post_refresh_status (req : Request) (body : JObj) (tick now : Z)
    (st : gmap string Entry * Db) :
  let limiter := authRateLimit 5 (15 * 60 * 1000) req tick st.1 in
  let out := post_refresh this repo req body tick now st in
  (status out.1 = 200 \/ status out.1 = 400 \/ status out.1 = 401
   \/ status out.1 = 429)
  /\ (status out.1 = 429 <->
      exists e, limiter.2 = Respond 429 (too_many tick e))
  /\ (forall e, limiter.2 = Respond 429 (too_many tick e) ->
        out = (middleware_response 429 (too_many tick e) [], (limiter.1, st.2)))
  /\ (limiter.2 = Next req ->
      (status out.1 = 400 <->
       exists error, Zod.RefreshTokenRequestSchema_parse body = inl error)
      /\ (status out.1 = 400 ->
          out = (error_response 400 "VALIDATION_ERROR" "Invalid refresh token data"
                   now None, (limiter.1, st.2)))
      /\ (status out.1 = 401 ->
          out.1 = error_response 401 "INVALID_REFRESH_TOKEN"
                    "Invalid or expired refresh token" now None)
      /\ (status out.1 = 200 <->
          exists data tokens db',
            Zod.RefreshTokenRequestSchema_parse body = inr data
            /\ refreshToken this repo (Zod.RefreshTokenRequest_obj data) now st.2
               = (inr tokens, db')
            /\ out = ({| status := 200;
                         body := TokensJson "Token refreshed successfully"
                                   tokens now |}, (limiter.1, db')))).
Proof.
  intros limiter out. subst limiter out. unfold post_refresh.
  assert (Hroute : forall db,
            status (refresh_handler this repo body now db).1 = 200
            \/ status (refresh_handler this repo body now db).1 = 400
            \/ status (refresh_handler this repo body now db).1 = 401).
  { intros db.
    destruct (Zod.RefreshTokenRequestSchema_parse body) as [error|data] eqn:Hp.
    - rewrite (refresh_handler_invalid _ _ _ _ Hp). auto.
    - destruct (refreshToken this repo (Zod.RefreshTokenRequest_obj data) now db)
        as [[e|tokens] db'] eqn:Hr.
      + rewrite (refresh_handler_throws _ _ _ _ _ _ Hp Hr). auto.
      + rewrite (refresh_handler_returns _ _ _ _ _ _ Hp Hr). auto. }
  split; [|split; [|split]].
  - destruct (authRateLimit_outcome 5 (15 * 60 * 1000) req tick st.1)
      as [Hn|[e He]].
    + rewrite (limited_admitted _ _ _ _ Hn). cbn [fst].
      destruct (Hroute st.2) as [?|[?|?]]; auto.
    + rewrite (limited_rejected _ _ _ _ e He). cbn. auto.
  - apply limited_429. destruct (Hroute st.2) as [Hs|[Hs|Hs]]; rewrite Hs; lia.
  - intros e He. by rewrite (limited_rejected _ _ _ _ e He).
  - intros Hn. rewrite (limited_admitted _ _ _ _ Hn). cbn [fst snd].
    destruct (Zod.RefreshTokenRequestSchema_parse body) as [error|data] eqn:Hp.
    + rewrite (refresh_handler_invalid _ _ _ _ Hp). cbn.
      split; [split; eauto|]. split; [done|]. split; [discriminate|].
      split; [discriminate|]. by intros (? & ? & ? & ? & _).
    + destruct (refreshToken this repo (Zod.RefreshTokenRequest_obj data) now st.2)
        as [[e|tokens] db'] eqn:Hr.
      * rewrite (refresh_handler_throws _ _ _ _ _ _ Hp Hr). cbn.
        split; [split; [discriminate|by intros [? ?]]|].
        split; [discriminate|]. split; [done|].
        split; [discriminate|].
        intros (data' & tokens & db'' & [= <-] & Hr' & _). congruence.
      * rewrite (refresh_handler_returns _ _ _ _ _ _ Hp Hr). cbn.
        split; [split; [discriminate|by intros [? ?]]|].
        split; [discriminate|]. split; [discriminate|].
        split; [|done]. intros _. exists data, tokens, db'. done.
Qed.

End WithRepository.

Context `{!LibrariesOk}.

(** The lifetime a token states: [exp - iat], in seconds. *)
Definition lifetime (token : string) : option Z :=
  match Jwt.decode token with
  | Some payload =>
      match get "iat" payload, get "exp" payload with
      | Some (JNum iat), Some (JNum exp) => Some (exp - iat)
      | _, _ => None
      end
  | None => None
  end.

(** The lifetimes of the tokens [generateTokens] returns. *)
Lemma generateTokens_lifetime claims longLived now tokens :
  generateTokens this claims longLived now = inr tokens ->
  exists da dr,
    ms (JWT_EXPIRES_IN this) = Some da
    /\ ms (refreshTokenExpiry this longLived) = Some dr
    /\ lifetime (AuthTokens.accessToken tokens) = Some (floor_div da 1000)
    /\ lifetime (AuthTokens.refreshToken tokens) = Some (floor_div dr 1000).
Proof.
  intros Hg.
  destruct (generateTokens_inv this claims longLived now tokens Hg)
    as (Hk & Hkr & da & dr & Hda & Hdr).
  rewrite (generateTokens_ok this claims longLived now da dr Hk Hkr Hda Hdr) in Hg.
  injection Hg as <-. exists da, dr.
  cbn [AuthTokens.accessToken AuthTokens.refreshToken].
  unfold lifetime, Jwt.decode. rewrite !jws_decode_encode.
  split; [done|]. split; [done|]. cbn. split; f_equal; lia.
Qed.

Section WithRepository.
Context {Db : Type} (repo : UserRepository.t Db).

(** The tokens of a successful [login] come from [generateTokens], called
    with the [rememberMe] of the request. *)
Lemma login_inv loginData now sessionId db user tokens db' :
  login this repo loginData now sessionId db = (inr (user, tokens), db') ->
  exists data claims,
    Zod.LoginRequestSchema_parse loginData = inr data
    /\ generateTokens this claims (LoginRequest.rememberMe data) now = inr tokens.
Proof.
  unfold login, try_catchM, bindM, liftM, retM, throwM.
  destruct (Zod.LoginRequestSchema_parse loginData) as [|data]; [discriminate|].
  destruct (UserRepository.findByEmail repo _ db) as [[|[u|]] d1]; try discriminate.
  destruct (negb (UserEntity.is_active u)); [discriminate|].
  destruct (negb (bcrypt_compare _ _)); [discriminate|].
  match goal with
  | |- context [match ?m d1 with _ => _ end] => destruct (m d1) as [[|u'] d2]
  end; [discriminate|].
  destruct (generateTokens this _ _ now) as [|t] eqn:Hg; [discriminate|].
  destruct (UserRepository.updateLastSeen repo _ d2) as [[|[]] d3]; [discriminate|].
  intros [= _ <- _]. eauto.
Qed.

(** The tokens of a successful [refreshToken] come from [generateTokens],
    called without [longLived]. *)
Lemma refreshToken_inv refreshTokenData now db tokens db' :
  refreshToken this repo refreshTokenData now db = (inr tokens, db') ->
  exists claims, generateTokens this claims false now = inr tokens.
Proof.
  unfold refreshToken, try_catchM, bindM, liftM, retM, throwM.
  destruct (Zod.RefreshTokenRequestSchema_parse refreshTokenData) as [|data];
    [discriminate|].
  destruct (verifyRefresh this _ now) as [|payload]; [discriminate|].
  destruct (UserRepository.findById repo _ db) as [[|[u|]] d1]; try discriminate.
  destruct (negb (UserEntity.is_active u)); [discriminate|].
  destruct (generateTokens this _ _ now) as [|t] eqn:Hg; [discriminate|].
  destruct (UserRepository.updateLastSeen repo _ d1) as [[|[]] d2]; [discriminate|].
  intros [= <- _]. eauto.
Qed.

(** X11.  'Remember me' lasts until the first refresh.  The lifetime
    that a token states is its [exp] minus its [iat].  A [login] with
    [rememberMe] returns a refresh token with the lifetime of the time
    span '30d', whatever [JWT_REFRESH_EXPIRES_IN] says; a [login] without
    it, and every [refreshToken], the one that trades in a 30-day token
    included, returns a refresh token with the lifetime
    [JWT_REFRESH_EXPIRES_IN].  The access token always has the lifetime
    [JWT_EXPIRES_IN]. *)
Theorem rememberMe_until_refresh (now : Z) (db : Db) :
  (forall loginData sessionId user tokens db' data,
     login this repo loginData now sessionId db = (inr (user, tokens), db') ->
     Zod.LoginRequestSchema_parse loginData = inr data ->
     exists da dr,
       ms (JWT_EXPIRES_IN this) = Some da
       /\ ms (if LoginRequest.rememberMe data then "30d"
              else JWT_REFRESH_EXPIRES_IN this) = Some dr
       /\ lifetime (AuthTokens.accessToken tokens) = Some (floor_div da 1000)
       /\ lifetime (AuthTokens.refreshToken tokens) = Some (floor_div dr 1000))
  /\ (forall refreshTokenData tokens db',
        refreshToken this repo refreshTokenData now db = (inr tokens, db') ->
        exists da dr,
          ms (JWT_EXPIRES_IN this) = Some da
          /\ ms (JWT_REFRESH_EXPIRES_IN this) = Some dr
          /\ lifetime (AuthTokens.accessToken tokens) = Some (floor_div da 1000)
          /\ lifetime (AuthTokens.refreshToken tokens) = Some (floor_div dr 1000)).
Proof.
  split.
  - intros loginData sessionId user tokens db' data Hl Hp.
    destruct (login_inv _ _ _ _ _ _ _ Hl) as (data' & claims & Hp' & Hg).
    rewrite Hp in Hp'. injection Hp' as <-.
    exact (generateTokens_lifetime claims _ now tokens Hg).
  - intros refreshTokenData tokens db' Hr.
    destruct (refreshToken_inv _ _ _ _ _ Hr) as (claims & Hg).
    exact (generateTokens_lifetime claims false now tokens Hg).
Qed.

End WithRepository.

(** The claims for which the service issues tokens over the [users]
    table are those of a row that passed the entity schema, with the
    session id that was drawn or, in [refreshToken], the one of the
    verified token: the user id is a UUID and the e-mail an e-mail
    address.  [register] over the table issues none. *)
Lemma login_issues_valid_claims uuid dbnow loginData now sessionId
    (db db' : Pg.Table) user tokens :
  login this (Pg.repository uuid dbnow) loginData now sessionId db
  = (inr (user, tokens), db') ->
  exists data claims,
    Zod.LoginRequestSchema_parse loginData = inr data
    /\ generateTokens this claims (LoginRequest.rememberMe data) now = inr tokens
    /\ is_uuid (TokenClaims.userId claims) = true
    /\ is_email (TokenClaims.email claims) = true
    /\ TokenClaims.sessionId claims = sessionId.
Proof.
  unfold login, try_catchM, bindM, liftM, retM, throwM.
  destruct (Zod.LoginRequestSchema_parse loginData) as [|data]; [discriminate|].
  cbn [UserRepository.findByEmail UserRepository.updateById
       UserRepository.updateLastSeen Pg.repository].
  destruct (Pg.findByEmail _ db) as [[|[u|]] d1] eqn:Hf; try discriminate.
  destruct (PgFacts.findByEmail_valid _ _ _ _ Hf) as [Hid Hem].
  destruct (negb (UserEntity.is_active u)); [discriminate|].
  destruct (negb (bcrypt_compare _ _)); [discriminate|].
  match goal with
  | |- context [match ?m d1 with _ => _ end] =>
      destruct (m d1) as [[|u'] d2] eqn:Hu'
  end; [discriminate|].
  assert (Hsame : UserEntity.id u' = UserEntity.id u
                  /\ UserEntity.email u' = UserEntity.email u).
  { destruct (LoginRequest.timezone data) as [tz|]; [|by injection Hu' as <- _].
    destruct (_ && _); [|by injection Hu' as <- _].
    destruct (Pg.updateById dbnow _ tz d1) as [[|] ?]; [discriminate|].
    by injection Hu' as <- _. }
  destruct Hsame as [Hid' Hem'].
  destruct (generateTokens this _ _ now) as [|t] eqn:Hg; [discriminate|].
  destruct (Pg.updateLastSeen dbnow _ d2) as [[|[]] d3]; [discriminate|].
  intros [= _ <- _]. eexists data, _. split; [done|]. split; [exact Hg|].
  cbn. by rewrite Hid', Hem'.
Qed.

Lemma refreshToken_issues_valid_claims uuid dbnow refreshTokenData now
    (db db' : Pg.Table) tokens :
  refreshToken this (Pg.repository uuid dbnow) refreshTokenData now db
  = (inr tokens, db') ->
  exists claims,
    generateTokens this claims false now = inr tokens
    /\ is_uuid (TokenClaims.userId claims) = true
    /\ is_email (TokenClaims.email claims) = true
    /\ is_uuid (TokenClaims.sessionId claims) = true.
Proof.
  unfold refreshToken, try_catchM, bindM, liftM, retM, throwM.
  destruct (Zod.RefreshTokenRequestSchema_parse refreshTokenData) as [|data];
    [discriminate|].
  destruct (verifyRefresh this _ now) as [|payload] eqn:Hv; [discriminate|].
  cbn [UserRepository.findById UserRepository.updateLastSeen Pg.repository].
  destruct (Pg.findById _ db) as [[|[u|]] d1] eqn:Hf; try discriminate.
  destruct (PgFacts.findById_valid _ _ _ _ Hf) as [Hid Hem].
  destruct (negb (UserEntity.is_active u)); [discriminate|].
  destruct (generateTokens this _ _ now) as [|t] eqn:Hg; [discriminate|].
  destruct (Pg.updateLastSeen dbnow _ d1) as [[|[]] d2]; [discriminate|].
  intros [= <- _]. eexists. split; [exact Hg|]. cbn. split; [done|].
  split; [done|].
  unfold verifyRefresh in Hv.
  destruct (Jwt.verify _ _ now) as [|o]; [discriminate|]. cbn [bind] in Hv.
  by destruct (RefreshTokenPayloadSchema_parse_inv o payload Hv)
    as (_ & _ & _ & ? & _).
Qed.

End WithLibraries.
End ServiceFacts.

(* --------------------------------------------------------------------- *)
(** ** [login] over the [users] table                                     *)
(* --------------------------------------------------------------------- *)

Module AccountFacts.
Import AuthService ZodFacts TokenFacts TableFacts UpdateFacts.

Section WithLibraries.
Context `{Libraries}.

Variable this : AuthService.t.

Section WithRepository.
Context {Db : Type} (repo : UserRepository.t Db).

(** The successful path of [login] when the time zone stays. *)
Lemma login_ok loginData data now sessionId db db1 db2 user tokens :
  Zod.LoginRequestSchema_parse loginData = inr data ->
  UserRepository.findByEmail repo (LoginRequest.email data) db
  = (inr (Some user), db1) ->
  UserEntity.is_active user = true ->
  bcrypt_compare (LoginRequest.password data) (UserEntity.password_hash user) = true ->
  (LoginRequest.timezone data = None
   \/ LoginRequest.timezone data = Some ""
   \/ LoginRequest.timezone data = Some (UserEntity.timezone user)) ->
  generateTokens this
    (TokenClaims.mk (UserEntity.id user) (UserEntity.email user)
       (UserEntity.role user) (UserEntity.timezone user) sessionId)
    (LoginRequest.rememberMe data) now = inr tokens ->
  UserRepository.updateLastSeen repo (UserEntity.id user) db1 = (inr tt, db2) ->
  login this repo loginData now sessionId db
  = (inr (mapToAuthenticatedUser user, tokens), db2).
Proof.
  intros Hp Hf Ha Hc Htz Hg Hs.
  unfold login, try_catchM, bindM, liftM, retM, throwM.
  rewrite Hp, Hf, Ha, Hc. cbn [negb].
  destruct Htz as [-> | [-> | ->]].
  - by rewrite Hg, Hs.
  - cbn [String.eqb negb andb]. by rewrite Hg, Hs.
  - rewrite String.eqb_refl. cbn [negb]. rewrite andb_false_r. by rewrite Hg, Hs.
Qed.

(** The successful path of [login] when the request brings another time
    zone. *)
Lemma login_ok_timezone loginData data now sessionId db db1 db2 db3 user tz
    updated tokens :
  Zod.LoginRequestSchema_parse loginData = inr data ->
  UserRepository.findByEmail repo (LoginRequest.email data) db
  = (inr (Some user), db1) ->
  UserEntity.is_active user = true ->
  bcrypt_compare (LoginRequest.password data) (UserEntity.password_hash user) = true ->
  LoginRequest.timezone data = Some tz ->
  tz <> "" -> tz <> UserEntity.timezone user ->
  UserRepository.updateById repo (UserEntity.id user) tz db1 = (inr updated, db2) ->
  generateTokens this
    (TokenClaims.mk (UserEntity.id user) (UserEntity.email user)
       (UserEntity.role user) tz sessionId)
    (LoginRequest.rememberMe data) now = inr tokens ->
  UserRepository.updateLastSeen repo (UserEntity.id user) db2 = (inr tt, db3) ->
  login this repo loginData now sessionId db
  = (inr (mapToAuthenticatedUser
            (UserEntity.with_timezone tz (UserEntity.updated_at user) user),
          tokens), db3).
Proof.
  intros Hp Hf Ha Hc Htz Hne Hdiff Hu Hg Hs.
  unfold login, try_catchM, bindM, liftM, retM, throwM.
  rewrite Hp, Hf, Ha, Hc, Htz. cbn [negb].
  destruct (String.eqb_spec tz ""); [done|].
  destruct (String.eqb_spec tz (UserEntity.timezone user)); [done|].
  cbn [negb andb]. rewrite Hu.
  cbn [UserEntity.with_timezone UserEntity.id UserEntity.email UserEntity.role
       UserEntity.timezone].
  by rewrite Hg, Hs.
Qed.

End WithRepository.

(** What [updateById(id, { timezone })] does to a row, for the canonical
    text [c] of the id. *)
Definition set_timezone (now : Z) (c tz : string) (r : UserEntity.t)
  : UserEntity.t :=
  if Pg.has_id c r then UserEntity.with_timezone tz now r else r.

Lemma set_timezone_id now id tz r :
  UserEntity.id (set_timezone now id tz r) = UserEntity.id r.
Proof. unfold set_timezone. by destruct (Pg.has_id _ _). Qed.



Lemma set_timezone_hit now tz r :
  set_timezone now (UserEntity.id r) tz r = UserEntity.with_timezone tz now r.
Proof. unfold set_timezone, Pg.has_id. by rewrite String.eqb_refl. Qed.

Lemma set_timezone_miss now c tz r :
  UserEntity.id r <> c -> set_timezone now c tz r = r.
Proof.
  intros Hne. unfold set_timezone, Pg.has_id.
  by destruct (String.eqb_spec (UserEntity.id r) c).
Qed.

(** [updateById(id, { timezone })] on the row with that id. *)
Lemma updateById_found dbnow (db : Pg.Table) r id tz :
  unique_ids db -> In r db -> uuid_in id = Some (UserEntity.id r) ->
  Pg.row_accepted r = true ->
  pg_text tz = true -> Pg.fits 50 tz = true ->
  Pg.updateById dbnow id tz db
  = (inr (Some (UserEntity.with_timezone tz dbnow r)),
     map (set_timezone dbnow (UserEntity.id r) tz) db).
Proof.
  intros Hu Hin Hc Hr Ht Hfit. unfold Pg.updateById. rewrite Hc, Ht, Hfit.
  assert (Hex : existsb (Pg.has_id (UserEntity.id r)) db = true).
  { apply existsb_exists. exists r. split; [done|].
    unfold Pg.has_id. by rewrite String.eqb_refl. }
  rewrite Hex. cbn [negb].
  fold (set_timezone dbnow (UserEntity.id r) tz).
  set (db' := map (set_timezone dbnow (UserEntity.id r) tz) db).
  assert (Hu' : unique_ids db').
  { unfold unique_ids, db'.
    by rewrite (map_keeps UserEntity.id) by apply set_timezone_id. }
  assert (Hin' : In (UserEntity.with_timezone tz dbnow r) db').
  { apply (in_map (set_timezone dbnow (UserEntity.id r) tz)) in Hin.
    by rewrite set_timezone_hit in Hin. }
  pose proof (filter_has_id db' _ Hu' Hin') as Hf.
  cbn [UserEntity.with_timezone UserEntity.id] in Hf. rewrite Hf.
  cbn [Pg.first_row].
  rewrite (PgFacts.validate_row_accepted (UserEntity.with_timezone tz dbnow r));
    [done|]. exact Hr.
Qed.

(** X12.  A [login] that brings a time zone.  Over the [users] table,
    when ids and e-mails are unique, for an active account with the
    lower-cased e-mail of the request whose row passes the entity schema
    (so not a row written by [create]) and whose id is the canonical text
    of a UUID, and for a password that verifies: when the request
    carries a non-empty [timezone] other than the stored one that is
    legal text of at most 50 characters, [login] stores it in the
    account's row (and in no other row), and the user and the tokens it
    returns carry the new time zone; after it the row also has
    [last_seen] set.  When the request carries no time zone, an empty
    one, or the stored one, the row keeps its time zone and is only
    stamped with [last_seen]. *)
Theorem login_updates_timezone `{!StoreOk} (uuid : string) (dbnow now : Z)
    (loginData : JObj) (data : LoginRequest.t) (sessionId : string)
    (db : Pg.Table) (r : UserEntity.t) :
  unique_ids db -> unique_emails db ->
  Zod.LoginRequestSchema_parse loginData = inr data ->
  In r db ->
  UserEntity.email r = toLowerCase (LoginRequest.email data) ->
  Pg.row_accepted r = true ->
  uuid_in (UserEntity.id r) = Some (UserEntity.id r) ->
  UserEntity.is_active r = true ->
  bcrypt_compare (LoginRequest.password data) (UserEntity.password_hash r) = true ->
  let repo := Pg.repository uuid dbnow in
  (forall tz tokens,
     LoginRequest.timezone data = Some tz ->
     tz <> "" -> tz <> UserEntity.timezone r ->
     pg_text tz = true -> (char_length tz <= 50)%nat ->
     generateTokens this
       (TokenClaims.mk (UserEntity.id r) (UserEntity.email r) (UserEntity.role r)
          tz sessionId) (LoginRequest.rememberMe data) now = inr tokens ->
     let db' :=
       map (touch dbnow (UserEntity.id r))
         (map (set_timezone dbnow (UserEntity.id r) tz) db) in
     login this repo loginData now sessionId db
     = (inr (mapToAuthenticatedUser
               (UserEntity.with_timezone tz (UserEntity.updated_at r) r),
             tokens), db')
     /\ In (UserEntity.with_last_seen dbnow (UserEntity.with_timezone tz dbnow r)) db'
     /\ (forall r', In r' db -> UserEntity.id r' <> UserEntity.id r -> In r' db'))
  /\ (forall tokens,
        LoginRequest.timezone data = None
        \/ LoginRequest.timezone data = Some ""
        \/ LoginRequest.timezone data = Some (UserEntity.timezone r) ->
        generateTokens this
          (TokenClaims.mk (UserEntity.id r) (UserEntity.email r) (UserEntity.role r)
             (UserEntity.timezone r) sessionId) (LoginRequest.rememberMe data) now
        = inr tokens ->
        let db' := map (touch dbnow (UserEntity.id r)) db in
        login this repo loginData now sessionId db
        = (inr (mapToAuthenticatedUser r, tokens), db')
        /\ In (UserEntity.with_last_seen dbnow r) db').
Proof.
  intros Hu Hue Hp Hin He Hr Hid Ha Hc repo.
  pose proof (is_email_text _ (LoginFacts.LoginRequest_email _ _ Hp)) as Htext.
  pose proof (findByEmail_found db r _ Htext Hue Hin He Ha Hr) as Hf.
  split.
  - intros tz tokens Htz Hne Hdiff Hlegal Hlen Hg db'. split; [|split].
    + apply (login_ok_timezone repo loginData data now sessionId db db
               (map (set_timezone dbnow (UserEntity.id r) tz) db) db' r tz
               (Some (UserEntity.with_timezone tz dbnow r)) tokens);
        try done.
      * cbn [UserRepository.updateById repo Pg.repository].
        apply updateById_found; try done. unfold Pg.fits. by apply Nat.leb_le.
      * cbn [UserRepository.updateLastSeen repo Pg.repository].
        by apply updateLastSeen_touch.
    + unfold db'.
      apply (in_map (set_timezone dbnow (UserEntity.id r) tz)) in Hin.
      rewrite set_timezone_hit in Hin.
      apply (in_map (touch dbnow (UserEntity.id r))) in Hin.
      change (UserEntity.id r)
        with (UserEntity.id (UserEntity.with_timezone tz dbnow r)) in Hin at 1.
      by rewrite touch_hit in Hin.
    + intros r' Hr' Hne'. unfold db'.
      apply (in_map (set_timezone dbnow (UserEntity.id r) tz)) in Hr'.
      rewrite (set_timezone_miss _ _ _ _ Hne') in Hr'.
      apply (in_map (touch dbnow (UserEntity.id r))) in Hr'.
      by rewrite (touch_miss _ _ _ Hne') in Hr'.
  - intros tokens Htz Hg db'. split.
    + apply (login_ok repo loginData data now sessionId db db db' r tokens);
        try done.
      cbn [UserRepository.updateLastSeen repo Pg.repository].
      by apply updateLastSeen_touch.
    + unfold db'. apply (in_map (touch dbnow (UserEntity.id r))) in Hin.
      by rewrite touch_hit in Hin.
Qed.

End WithLibraries.
End AccountFacts.

(* --------------------------------------------------------------------- *)
(** ** Registering, then logging in                                       *)
(* --------------------------------------------------------------------- *)

Module RoundTripFacts.
Import AuthService Routes ZodFacts TokenFacts TableFacts UpdateFacts AccountFacts.
Import RegisterFacts.

Section WithLibraries.
Context `{Libraries} `{!StoreOk}.

Variable this : AuthService.t.

(** What the entity schema says of the row that [register] wrote. *)
Definition skills_refused : JsError :=
  Error "Validation failed: skills: Expected array, received object".

Lemma new_row_error uuid dbnow d :
  is_uuid uuid = true -> Pg.validate_create d = inr d ->
  Error ("Validation failed: "
         ++ String.concat ", " (Pg.row_issues (Pg.new_row uuid dbnow d)))
  = skills_refused.
Proof.
  intros Hu Hv. destruct (validate_create_inv d d Hv) as (_ & _ & _ & He & _).
  by rewrite (new_row_issues uuid dbnow d Hu He).
Qed.

(** The table after an insertion still has unique keys. *)
Lemma insert_keeps_keys uuid dbnow d (db : Pg.Table) :
  unique_ids db -> unique_emails db ->
  Pg.insert_error uuid d db = None ->
  unique_ids (db ++ [Pg.new_row uuid dbnow d])
  /\ unique_emails (db ++ [Pg.new_row uuid dbnow d]).
Proof.
  intros Hu Hue Hi. destruct (insert_error_None uuid d db Hi) as [Hpk Hfree].
  split; by apply unique_snoc.
Qed.

(** What PostgreSQL took as the e-mail of an inserted row is legal
    text. *)
Lemma insert_error_text uuid d (db : Pg.Table) :
  Pg.insert_error uuid d db = None -> pg_text (CreateUserInput.email d) = true.
Proof.
  unfold Pg.insert_error. destruct (pg_text (CreateUserInput.name d)); [|done].
  by destruct (pg_text (CreateUserInput.email d)).
Qed.

(** X13.  Registering, then logging in.  Over the [users] table, when
    ids and e-mails are unique: a [register] whose look-up finds nothing,
    whose hashing returns, whose input passes [CreateUserSchema] and whose
    [INSERT] raises nothing (the id drawn being a UUID) does not return:
    it inserts the row with the lower-cased e-mail and throws the error of
    the entity schema on that row, which [POST /register] answers with 500
    [REGISTRATION_FAILED].  From then on the address is registered and
    unusable: a [login] with any spelling of it that differs in letter
    case only, whatever the password, throws the same error, which
    [POST /login] answers with 500 [LOGIN_FAILED]; a second [register]
    of the address throws it too, not 'Email already registered'; and
    none of these calls changes the table again. *)
Theorem register_then_login (uuid uuid' : string) (dbnow dbnow' now now' : Z)
    (userData loginData : JObj) (salt salt' sessionId sessionId' : string)
    (db : Pg.Table) (data : RegisterRequest.t) (ldata : LoginRequest.t)
    (hash : string) :
  unique_ids db -> unique_emails db ->
  Zod.RegisterRequestSchema_parse userData = inr data ->
  Pg.findByEmail (RegisterRequest.email data) db = (inr None, db) ->
  bcrypt_hash (RegisterRequest.password data) (BCRYPT_ROUNDS this) salt = inr hash ->
  Pg.validate_create (registration data hash) = inr (registration data hash) ->
  Pg.insert_error uuid (registration data hash) db = None ->
  is_uuid uuid = true ->
  Zod.LoginRequestSchema_parse loginData = inr ldata ->
  toLowerCase (LoginRequest.email ldata) = toLowerCase (RegisterRequest.email data) ->
  let row := Pg.new_row uuid dbnow (registration data hash) in
  let db1 := db ++ [row] in
  register this (Pg.repository uuid dbnow) userData now salt sessionId db
  = (inl skills_refused, db1)
  /\ UserEntity.email row = toLowerCase (RegisterRequest.email data)
  /\ UserEntity.is_active row = true
  /\ login this (Pg.repository uuid' dbnow') loginData now' sessionId' db1
     = (inl skills_refused, db1)
  /\ register this (Pg.repository uuid' dbnow') userData now' salt' sessionId' db1
     = (inl skills_refused, db1)
  /\ register_error skills_refused now
     = error_response 500 "REGISTRATION_FAILED" "Failed to register user" now None
  /\ login_error skills_refused now'
     = error_response 500 "LOGIN_FAILED" "Failed to authenticate user" now' None.
Proof.
  intros Hu Hue Hp Hf Hh Hv Hi Huuid Hlp Hemail row db1.
  destruct (insert_keeps_keys uuid dbnow _ db Hu Hue Hi) as [Hu1 Hue1].
  fold row db1 in Hu1, Hue1.
  assert (Hin : In row db1) by (apply in_or_app; right; by left).
  pose proof (new_row_error uuid dbnow _ Huuid Hv) as Herr. fold row in Herr.
  pose proof (PgFacts.new_row_refused uuid dbnow (registration data hash)) as Hr.
  fold row in Hr.
  split; [|split; [done|split; [done|split; [|split; [|done]]]]].
  - rewrite (register_inserts this uuid dbnow userData data now salt sessionId db hash
               Hp Hf Hh Hv Hi).
    fold row db1. by rewrite Herr.
  - apply (LoginFacts.login_lookup_throws this _ loginData ldata); [done|].
    cbn [UserRepository.findByEmail Pg.repository].
    rewrite (findByEmail_refused db1 row (LoginRequest.email ldata)); try done.
    + by rewrite Herr.
    + apply is_email_text. by apply (LoginFacts.LoginRequest_email loginData).
  - unfold register, try_catchM, bindM, liftM, throwM. rewrite Hp.
    cbn [UserRepository.findByEmail Pg.repository].
    rewrite (findByEmail_refused db1 row (RegisterRequest.email data)); try done.
    + by rewrite Herr.
    + apply is_email_text.
      by destruct (RegisterRequest_bounds userData data Hp) as (_ & _ & ? & _).
Qed.

End WithLibraries.
End RoundTripFacts.

(** Alice registers and cannot log in; a seeded Alice logs in from
    Vienna. *)
Module AccountExamples.
Import AuthService Routes ReferenceFacts TokenFacts TokenExamples ServiceExamples.
Import TableFacts UpdateFacts AccountFacts RoundTripFacts RegisterFacts.

#[local] Existing Instance Reference.libraries.
#[local] Existing Instance libraries_ok.
#[local] Existing Instance store_ok.
#[local] Opaque Reference.libraries.

Lemma nothing_unique : unique_ids [] /\ unique_emails [].
Proof. split; constructor. Qed.

Lemma nobody_yet :
  Pg.findByEmail (RegisterRequest.email register_Alice_data) []
  = (inr None, []).
Proof. vm_compute. reflexivity. Qed.

Lemma Alice_input_valid :
  Pg.validate_create (registration register_Alice_data "$2b$salt$correct horse")
  = inr (registration register_Alice_data "$2b$salt$correct horse").
Proof. vm_compute. reflexivity. Qed.

Lemma Alice_insert_passes :
  Pg.insert_error next_uuid
    (registration register_Alice_data "$2b$salt$correct horse") [] = None.
Proof. vm_compute. reflexivity. Qed.

Definition login_ALICE : JObj :=
  [("email", JStr "ALICE@Example.COM"); ("password", JStr "correct horse")].

Definition login_ALICE_data : LoginRequest.t :=
  LoginRequest.mk "ALICE@Example.COM" "correct horse" None false.

Lemma login_ALICE_parses :
  Zod.LoginRequestSchema_parse login_ALICE = inr login_ALICE_data.
Proof. vm_compute. reflexivity. Qed.

Lemma same_address :
  toLowerCase (LoginRequest.email login_ALICE_data)
  = toLowerCase (RegisterRequest.email register_Alice_data).
Proof. vm_compute. reflexivity. Qed.

(** She registers as [Alice@Example.com]; a minute later neither a login
    as [ALICE@Example.COM] with her password nor a second registration
    gets past her row. *)
Lemma register_then_login_witness :
  let row :=
    Pg.new_row next_uuid 1700000000000
      (registration register_Alice_data "$2b$salt$correct horse") in
  let db1 := [] ++ [row] in
  register service (Pg.repository next_uuid 1700000000000) register_Alice
    1700000000000 "salt" next_uuid []
  = (inl skills_refused, db1)
  /\ UserEntity.email row = toLowerCase (RegisterRequest.email register_Alice_data)
  /\ UserEntity.is_active row = true
  /\ login service (Pg.repository other_uuid 1700000060000) login_ALICE
       1700000060000 other_uuid db1
     = (inl skills_refused, db1)
  /\ register service (Pg.repository other_uuid 1700000060000) register_Alice
       1700000060000 "pepper" other_uuid db1
     = (inl skills_refused, db1)
  /\ register_error skills_refused 1700000000000
     = error_response 500 "REGISTRATION_FAILED" "Failed to register user"
         1700000000000 None
  /\ login_error skills_refused 1700000060000
     = error_response 500 "LOGIN_FAILED" "Failed to authenticate user"
         1700000060000 None.
Proof.
  exact (register_then_login service next_uuid other_uuid 1700000000000
           1700000060000 1700000000000 1700000060000 register_Alice login_ALICE
           "salt" "pepper" next_uuid other_uuid [] register_Alice_data
           login_ALICE_data "$2b$salt$correct horse"
           (proj1 nothing_unique) (proj2 nothing_unique) register_Alice_parses
           nobody_yet new_hash Alice_input_valid Alice_insert_passes next_uuid_ok
           login_ALICE_parses same_address).
Defined.

(** A table with a row for Alice that the entity schema accepts, and a
    login that brings a time zone. *)
Definition stored_alice : UserEntity.t :=
  UserEntity.mk "123e4567-e89b-12d3-a456-426614174000" "Alice"
    "alice@example.com" "$2b$salt$correct horse" developer "UTC" None None
    (Parsed []) (Parsed Preferences.default) true true (Some 1700000000000) 0
    1700000000000.

Definition seeded : Pg.Table := [stored_alice].

Definition login_vienna : JObj :=
  [("email", JStr "alice@example.com"); ("password", JStr "correct horse");
   ("timezone", JStr "Europe/Vienna")].

Definition login_vienna_data : LoginRequest.t :=
  LoginRequest.mk "alice@example.com" "correct horse" (Some "Europe/Vienna") false.

Lemma login_vienna_parses :
  Zod.LoginRequestSchema_parse login_vienna = inr login_vienna_data.
Proof. vm_compute. reflexivity. Qed.

Lemma seeded_unique : unique_ids seeded /\ unique_emails seeded.
Proof. split; repeat constructor; cbn; set_solver. Qed.

Lemma stored_alice_accepted : Pg.row_accepted stored_alice = true.
Proof. vm_compute. reflexivity. Qed.

Lemma stored_alice_canonical :
  uuid_in (UserEntity.id stored_alice) = Some (UserEntity.id stored_alice).
Proof. vm_compute. reflexivity. Qed.

Lemma stored_alice_address :
  UserEntity.email stored_alice
  = toLowerCase (LoginRequest.email login_vienna_data).
Proof. vm_compute. reflexivity. Qed.

Lemma stored_alice_password :
  bcrypt_compare (LoginRequest.password login_vienna_data)
    (UserEntity.password_hash stored_alice) = true.
Proof. vm_compute. reflexivity. Qed.

Definition vienna_claims : TokenClaims.t :=
  TokenClaims.mk (UserEntity.id stored_alice) (UserEntity.email stored_alice)
    (UserEntity.role stored_alice) "Europe/Vienna" next_uuid.

Definition vienna_access : JObj :=
  Jwt.with_dates (accessTokenPayload vienna_claims) (floor_div 1700000060000 1000)
    900000.

Definition vienna_refresh : JObj :=
  Jwt.with_dates (refreshTokenPayload vienna_claims) (floor_div 1700000060000 1000)
    604800000.

Definition vienna_tokens : AuthTokens.t :=
  AuthTokens.mk (jws_encode vienna_access (hmac "access-secret" vienna_access))
    (jws_encode vienna_refresh (hmac "refresh-secret" vienna_refresh))
    (floor_div 900000 1000) "Bearer".

Lemma vienna_tokens_issued :
  generateTokens service vienna_claims
    (LoginRequest.rememberMe login_vienna_data) 1700000060000
  = inr vienna_tokens.
Proof.
  apply (generateTokens_ok service vienna_claims false 1700000060000
           900000 604800000); [discriminate|discriminate|exact ms_15m|exact ms_7d].
Qed.

Lemma vienna_is_new : "Europe/Vienna" <> UserEntity.timezone stored_alice.
Proof. vm_compute. discriminate. Qed.

Lemma vienna_is_text : pg_text "Europe/Vienna" = true.
Proof. vm_compute. reflexivity. Qed.

Lemma vienna_fits : (char_length "Europe/Vienna" <= 50)%nat.
Proof. vm_compute. repeat constructor. Qed.

Lemma login_updates_timezone_witness :
  let db' :=
    map (touch 1700000060000 (UserEntity.id stored_alice))
      (map (set_timezone 1700000060000 (UserEntity.id stored_alice) "Europe/Vienna")
         seeded) in
  login service (Pg.repository next_uuid 1700000060000) login_vienna
    1700000060000 next_uuid seeded
  = (inr (mapToAuthenticatedUser
            (UserEntity.with_timezone "Europe/Vienna"
               (UserEntity.updated_at stored_alice) stored_alice),
          vienna_tokens), db')
  /\ In (UserEntity.with_last_seen 1700000060000
           (UserEntity.with_timezone "Europe/Vienna" 1700000060000 stored_alice))
        db'
  /\ (forall r', In r' seeded ->
                 UserEntity.id r' <> UserEntity.id stored_alice -> In r' db').
Proof.
  exact (proj1 (login_updates_timezone service next_uuid 1700000060000
                  1700000060000 login_vienna login_vienna_data next_uuid seeded
                  stored_alice (proj1 seeded_unique) (proj2 seeded_unique)
                  login_vienna_parses (or_introl eq_refl) stored_alice_address
                  stored_alice_accepted stored_alice_canonical eq_refl
                  stored_alice_password)
           "Europe/Vienna" vienna_tokens eq_refl ltac:(discriminate) vienna_is_new
           vienna_is_text vienna_fits vienna_tokens_issued).
Defined.

End AccountExamples.

(** A login with [rememberMe] over the seeded table, and the refresh that
    follows it. *)
Module RememberExamples.
Import AuthService ReferenceFacts TokenFacts TokenExamples ServiceExamples.
Import TableFacts UpdateFacts RefreshFacts AccountFacts AccountExamples ServiceFacts.

#[local] Existing Instance Reference.libraries.
#[local] Existing Instance libraries_ok.
#[local] Existing Instance store_ok.
#[local] Opaque Reference.libraries.

Definition login_remember : JObj :=
  [("email", JStr "alice@example.com"); ("password", JStr "correct horse");
   ("rememberMe", JBool true)].

Definition login_remember_data : LoginRequest.t :=
  LoginRequest.mk "alice@example.com" "correct horse" None true.

Lemma login_remember_parses :
  Zod.LoginRequestSchema_parse login_remember = inr login_remember_data.
Proof. vm_compute. reflexivity. Qed.

Lemma ms_30d : ms "30d" = Some 2592000000.
Proof. vm_compute. reflexivity. Qed.

Definition remember_claims : TokenClaims.t :=
  TokenClaims.mk (UserEntity.id stored_alice) (UserEntity.email stored_alice)
    (UserEntity.role stored_alice) (UserEntity.timezone stored_alice) next_uuid.

Definition remember_access : JObj :=
  Jwt.with_dates (accessTokenPayload remember_claims)
    (floor_div 1700000060000 1000) 900000.

Definition remember_refresh : JObj :=
  Jwt.with_dates (refreshTokenPayload remember_claims)
    (floor_div 1700000060000 1000) 2592000000.

Definition remember_tokens : AuthTokens.t :=
  AuthTokens.mk (jws_encode remember_access (hmac "access-secret" remember_access))
    (jws_encode remember_refresh (hmac "refresh-secret" remember_refresh))
    (floor_div 900000 1000) "Bearer".

Lemma remember_tokens_issued :
  generateTokens service remember_claims true 1700000060000 = inr remember_tokens.
Proof.
  apply (generateTokens_ok service remember_claims true 1700000060000
           900000 2592000000); [discriminate|discriminate|exact ms_15m|exact ms_30d].
Qed.

Definition seen_at_login : Pg.Table :=
  map (touch 1700000060000 (UserEntity.id stored_alice)) seeded.

Lemma stored_alice_found :
  Pg.findByEmail (LoginRequest.email login_remember_data) seeded
  = (inr (Some stored_alice), seeded).
Proof. vm_compute. reflexivity. Qed.

(** Alice logs in with [rememberMe]. *)
Lemma Alice_logs_in :
  login service (Pg.repository next_uuid 1700000060000) login_remember
    1700000060000 next_uuid seeded
  = (inr (mapToAuthenticatedUser stored_alice, remember_tokens), seen_at_login).
Proof.
  apply (login_ok service (Pg.repository next_uuid 1700000060000) login_remember
           login_remember_data 1700000060000 next_uuid seeded seeded seen_at_login
           stored_alice remember_tokens login_remember_parses stored_alice_found
           eq_refl stored_alice_password (or_introl eq_refl) remember_tokens_issued).
  exact (updateLastSeen_touch 1700000060000 _ _ seeded stored_alice_canonical).
Qed.

(** The refresh token of that login, and what it verifies to an hour
    later. *)
Definition remembered : string := AuthTokens.refreshToken remember_tokens.

Definition remembered_payload : RefreshTokenPayload.t :=
  RefreshTokenPayload.mk (TokenClaims.userId remember_claims)
    (TokenClaims.sessionId remember_claims) 1 (floor_div 1700000060000 1000)
    (floor_div 1700000060000 1000 + floor_div 2592000000 1000).

Lemma remembered_verifies :
  verifyRefresh service remembered 1700003660000 = inr remembered_payload.
Proof.
  exact (verifyRefresh_issued service remember_claims (floor_div 1700000060000 1000)
           2592000000 1700003660000 ltac:(discriminate) eq_refl eq_refl
           ltac:(vm_compute; reflexivity)).
Qed.

Definition stamped_alice : UserEntity.t :=
  UserEntity.with_last_seen 1700000060000 stored_alice.

Lemma stamped_alice_found :
  Pg.findById (RefreshTokenPayload.userId remembered_payload) seen_at_login
  = (inr (Some stamped_alice), seen_at_login).
Proof. vm_compute. reflexivity. Qed.

Definition traded_claims : TokenClaims.t :=
  TokenClaims.mk (UserEntity.id stamped_alice) (UserEntity.email stamped_alice)
    (UserEntity.role stamped_alice) (UserEntity.timezone stamped_alice)
    (RefreshTokenPayload.sessionId remembered_payload).

Definition traded_access : JObj :=
  Jwt.with_dates (accessTokenPayload traded_claims)
    (floor_div 1700003660000 1000) 900000.

Definition traded_refresh : JObj :=
  Jwt.with_dates (refreshTokenPayload traded_claims)
    (floor_div 1700003660000 1000) 604800000.

Definition traded_tokens : AuthTokens.t :=
  AuthTokens.mk (jws_encode traded_access (hmac "access-secret" traded_access))
    (jws_encode traded_refresh (hmac "refresh-secret" traded_refresh))
    (floor_div 900000 1000) "Bearer".

Lemma traded_tokens_issued :
  generateTokens service traded_claims false 1700003660000 = inr traded_tokens.
Proof.
  apply (generateTokens_ok service traded_claims false 1700003660000
           900000 604800000); [discriminate|discriminate|exact ms_15m|exact ms_7d].
Qed.

Definition seen_at_refresh : Pg.Table :=
  map (touch 1700003660000 (UserEntity.id stamped_alice)) seen_at_login.

(** An hour later she trades the token in. *)
Lemma Alice_refreshes :
  refreshToken service (Pg.repository next_uuid 1700003660000)
    (Zod.RefreshTokenRequest_obj (RefreshTokenRequest.mk remembered))
    1700003660000 seen_at_login
  = (inr traded_tokens, seen_at_refresh).
Proof.
  apply (refreshToken_ok service (Pg.repository next_uuid 1700003660000) remembered
           remembered_payload 1700003660000 seen_at_login seen_at_login
           seen_at_refresh stamped_alice traded_tokens remembered_verifies
           stamped_alice_found eq_refl traded_tokens_issued).
  exact (updateLastSeen_touch 1700003660000 _ _ seen_at_login
           stored_alice_canonical).
Qed.

(** The refresh token of the login lasts 30 days, the one it is traded
    for 7 days. *)
Lemma rememberMe_until_refresh_witness :
  login service (Pg.repository next_uuid 1700000060000) login_remember
    1700000060000 next_uuid seeded
  = (inr (mapToAuthenticatedUser stored_alice, remember_tokens), seen_at_login)
  /\ lifetime (AuthTokens.refreshToken remember_tokens) = Some (30 * 24 * 60 * 60)
  /\ refreshToken service (Pg.repository next_uuid 1700003660000)
       (Zod.RefreshTokenRequest_obj (RefreshTokenRequest.mk remembered))
       1700003660000 seen_at_login
     = (inr traded_tokens, seen_at_refresh)
  /\ lifetime (AuthTokens.refreshToken traded_tokens) = Some (7 * 24 * 60 * 60).
Proof.
  split; [exact Alice_logs_in|]. split.
  - destruct (proj1 (rememberMe_until_refresh service
                       (Pg.repository next_uuid 1700000060000) 1700000060000 seeded)
                login_remember next_uuid _ _ _ login_remember_data Alice_logs_in
                login_remember_parses)
      as (da & dr & _ & Hdr & _ & Hlife).
    cbn [LoginRequest.rememberMe login_remember_data] in Hdr.
    rewrite ms_30d in Hdr. injection Hdr as <-. exact Hlife.
  - split; [exact Alice_refreshes|].
    destruct (proj2 (rememberMe_until_refresh service
                       (Pg.repository next_uuid 1700003660000) 1700003660000
                       seen_at_login)
                _ _ _ Alice_refreshes)
      as (da & dr & _ & Hdr & _ & Hlife).
    change (JWT_REFRESH_EXPIRES_IN service) with "7d" in Hdr.
    rewrite ms_7d in Hdr. injection Hdr as <-. exact Hlife.
Defined.

End RememberExamples.

(* --------------------------------------------------------------------- *)
(** ** More of the repository: [create], [emailExists], [deactivateUser],
       [reactivateUser]                                                   *)
(* --------------------------------------------------------------------- *)

Module RepositoryFacts.
Import AuthService Guards TableFacts UpdateFacts StoreFacts AccountFacts.
Import RegisterFacts.

Definition deactivate (now : Z) (id : string) (r : UserEntity.t) : UserEntity.t :=
  if String.eqb (UserEntity.id r) id && UserEntity.is_active r
  then PgUsers.with_is_active false now r else r.

Definition reactivate (now : Z) (id : string) (r : UserEntity.t) : UserEntity.t :=
  if String.eqb (UserEntity.id r) id && negb (UserEntity.is_active r)
  then PgUsers.with_is_active true now r else r.

Lemma deactivate_id now id r : UserEntity.id (deactivate now id r) = UserEntity.id r.
Proof. unfold deactivate. by destruct (_ && _). Qed.

Lemma deactivate_email now id r :
  UserEntity.email (deactivate now id r) = UserEntity.email r.
Proof. unfold deactivate. by destruct (_ && _). Qed.

Lemma deactivate_columns now id r :
  UserEntity.skills (deactivate now id r) = UserEntity.skills r
  /\ UserEntity.preferences (deactivate now id r) = UserEntity.preferences r.
Proof. unfold deactivate. by destruct (_ && _). Qed.




Lemma deactivateUser_map now id (db : Pg.Table) :
  (PgUsers.deactivateUser now id db).2 = map (deactivate now id) db.
Proof. reflexivity. Qed.

Lemma reactivateUser_map now id (db : Pg.Table) :
  (PgUsers.reactivateUser now id db).2 = map (reactivate now id) db.
Proof. reflexivity. Qed.

Lemma positive_length_filter {A} (p : A -> bool) (l : list A) :
  (0 <? length (List.filter p l))%nat = existsb p l.
Proof.
  induction l as [|a l IH]; [done|]. cbn. destruct (p a); [done|]. apply IH.
Qed.

(** A table that respects the primary key and [UNIQUE (email)]. *)
Definition keyed (db : Pg.Table) : Prop := unique_ids db /\ unique_emails db.

Definition stays_keyed (db db' : Pg.Table) : Prop := keyed db -> keyed db'.



Lemma keyed_map (g : UserEntity.t -> UserEntity.t) (db : Pg.Table) :
  (forall r, UserEntity.id (g r) = UserEntity.id r) ->
  (forall r, UserEntity.email (g r) = UserEntity.email r) ->
  stays_keyed db (map g db).
Proof.
  intros Hid Hem (Hu & Hue). split.
  - unfold unique_ids. by rewrite (map_keeps UserEntity.id).
  - unfold unique_emails. by rewrite (map_keeps UserEntity.email).
Qed.


Section WithLibraries.
Context `{Libraries}.





Lemma row_accepted_columns r r' :
  UserEntity.id r' = UserEntity.id r -> UserEntity.email r' = UserEntity.email r ->
  UserEntity.skills r' = UserEntity.skills r ->
  UserEntity.preferences r' = UserEntity.preferences r ->
  Pg.row_accepted r' = Pg.row_accepted r.
Proof. unfold Pg.row_accepted. by intros -> -> -> ->. Qed.



Lemma emailExists_reads e x (db : Pg.Table) : (PgUsers.emailExists e x db).2 = db.
Proof.
  unfold PgUsers.emailExists. destruct (negb (pg_text _)); [done|].
  destruct x as [id|]; [|done]. destruct (String.eqb id ""); [done|].
  by destruct (uuid_in id).
Qed.








Lemma deactivateUser_stays now id : keeps stays_keyed (PgUsers.deactivateUser now id).
Proof.
  intros db r db' [= _ <-].
  apply (keyed_map (deactivate now id)); [apply deactivate_id|apply deactivate_email].
Qed.







End WithLibraries.
End RepositoryFacts.

(* --------------------------------------------------------------------- *)
(** ** Looking up what was created; deactivating and reactivating        *)
(* --------------------------------------------------------------------- *)

Module LifecycleFacts.
Import AuthService Guards TableFacts UpdateFacts StoreFacts AccountFacts.
Import RegisterFacts RoundTripFacts RepositoryFacts GuardFacts.

Lemma existsb_same {A} (p q : A -> bool) (l : list A) :
  (forall a, p a = q a) -> existsb p l = existsb q l.
Proof. intros Hpq. induction l as [|a l IH]; [done|]. cbn. by rewrite Hpq, IH. Qed.

Section WithLibraries.
Context `{Libraries} `{!StoreOk}.

(** X15.  What [create] inserts cannot be read back.  Over the
    [users] table, when ids and e-mails are unique: a [create] whose
    input passes [CreateUserSchema] and whose [INSERT] raises nothing, for
    a drawn id that is the canonical text of a UUID, throws the error of
    the entity schema on the row it inserted, and the table is the old one
    with that row appended.  The row has the id that was drawn and the
    e-mail as it was given, is active, unverified, never seen, and
    created and updated at the server clock.  [findById] with its id
    throws the same error, and so does [findByEmail] with every spelling
    whose lower-case form is the stored address, while [emailExists]
    reports that address. *)
Theorem create_then_find (uuid : string) (dbnow : Z) (d : CreateUserInput.t)
    (db : Pg.Table) :
  unique_ids db -> unique_emails db ->
  Pg.validate_create d = inr d ->
  Pg.insert_error uuid d db = None ->
  uuid_in uuid = Some uuid ->
  let u := Pg.new_row uuid dbnow d in
  let db' := db ++ [u] in
  let refused :=
    Error ("Validation failed: " ++ String.concat ", " (Pg.row_issues u)) in
  Pg.create uuid dbnow d db = (inl refused, db')
  /\ UserEntity.id u = uuid /\ UserEntity.email u = CreateUserInput.email d
  /\ UserEntity.is_active u = true /\ UserEntity.email_verified u = false
  /\ UserEntity.last_seen u = None
  /\ UserEntity.created_at u = dbnow /\ UserEntity.updated_at u = dbnow
  /\ Pg.findById uuid db' = (inl refused, db')
  /\ (forall email, toLowerCase email = UserEntity.email u ->
        Pg.findByEmail email db' = (inl refused, db')
        /\ PgUsers.emailExists email None db' = (inr true, db')).
Proof.
  intros Hu Hue Hv Hi Hc u db' refused.
  destruct (insert_keeps_keys uuid dbnow d db Hu Hue Hi) as [Hu' Hue'].
  fold u db' in Hu', Hue'.
  assert (Hin : In u db') by (apply in_or_app; right; by left).
  pose proof (PgFacts.new_row_refused uuid dbnow d) as Hr. fold u in Hr.
  pose proof (insert_error_text uuid d db Hi) as Ht.
  split; [exact (create_inserts uuid dbnow d db Hv Hi)|].
  do 7 (split; [done|]). split.
  - exact (findById_refused db' u uuid Hu' Hin Hc Hr).
  - intros email Hl. split.
    + apply findByEmail_refused; try done. by rewrite Hl.
    + unfold PgUsers.emailExists. rewrite Hl. cbn [UserEntity.email u Pg.new_row].
      rewrite Ht. cbn [negb]. rewrite positive_length_filter.
      do 2 f_equal. apply existsb_exists. exists u. split; [done|].
      by apply String.eqb_eq.
Qed.

(** [emailExists] when PostgreSQL raises nothing. *)
Definition excluded (excludeUserId : option string) : option (option string) :=
  match excludeUserId with
  | None => Some None
  | Some id => if String.eqb id "" then Some None else Some <$> uuid_in id
  end.

Lemma emailExists_spec email excludeUserId (db : Pg.Table) x :
  pg_text (toLowerCase email) = true ->
  excluded excludeUserId = Some x ->
  PgUsers.emailExists email excludeUserId db
  = (inr (existsb
            (fun r => String.eqb (UserEntity.email r) (toLowerCase email)
                      && match x with
                         | Some c => negb (Pg.has_id c r)
                         | None => true
                         end) db), db).
Proof.
  intros Ht Hx. unfold PgUsers.emailExists, excluded in *. rewrite Ht. cbn [negb].
  destruct excludeUserId as [id|].
  - destruct (String.eqb id "").
    + injection Hx as <-. rewrite positive_length_filter.
      do 2 f_equal. apply existsb_same. intros r. by rewrite andb_true_r.
    + destruct (uuid_in id) as [c|]; [|discriminate]. injection Hx as <-.
      by rewrite positive_length_filter.
  - injection Hx as <-. rewrite positive_length_filter.
    do 2 f_equal. apply existsb_same. intros r. by rewrite andb_true_r.
Qed.

(** X16.  [emailExists] against its neighbours.  It writes nothing.  It
    throws in two cases, both raised by PostgreSQL: the lower-cased
    address is no legal text value, or an excluded id is given that is
    neither empty nor of UUID syntax.  Otherwise it returns, and its
    answer depends on the lower-case form of the address only.  Without
    an excluded id, or with the empty one, it answers [false] exactly when
    no row holds the lower-cased address, which is when an [INSERT] of it
    would pass [UNIQUE (email)]; whatever [findByEmail] finds it reports,
    and it also reports the address of a deactivated account, which
    [findByEmail] does not find, and of a row that fails the entity
    schema, on which [findByEmail] throws.  With the id of the account
    that holds the address excluded, on a table with unique e-mails, it
    answers [false]. *)
Theorem emailExists_sees_every_row (email : string) (db : Pg.Table) :
  (forall excludeUserId, (PgUsers.emailExists email excludeUserId db).2 = db)
  /\ (pg_text (toLowerCase email) = false ->
      forall excludeUserId,
        PgUsers.emailExists email excludeUserId db
        = (inl (Pg.database_error (invalid_text (toLowerCase email))), db))
  /\ (pg_text (toLowerCase email) = true ->
      (forall id, id <> "" -> uuid_in id = None ->
         PgUsers.emailExists email (Some id) db
         = (inl (Pg.database_error (invalid_uuid id)), db))
      /\ (forall excludeUserId x,
            excluded excludeUserId = Some x ->
            exists answer,
              PgUsers.emailExists email excludeUserId db = (inr answer, db))
      /\ (forall email' excludeUserId,
            toLowerCase email' = toLowerCase email ->
            PgUsers.emailExists email' excludeUserId db
            = PgUsers.emailExists email excludeUserId db)
      /\ PgUsers.emailExists email (Some "") db = PgUsers.emailExists email None db
      /\ (PgUsers.emailExists email None db = (inr false, db) <->
          forallb
            (fun r => negb (String.eqb (UserEntity.email r) (toLowerCase email)))
            db = true)
      /\ (forall found db',
            Pg.findByEmail email db = (inr (Some found), db') ->
            PgUsers.emailExists email None db = (inr true, db))
      /\ (forall r,
            In r db -> UserEntity.email r = toLowerCase email ->
            PgUsers.emailExists email None db = (inr true, db)
            /\ (unique_emails db -> UserEntity.is_active r = false ->
                Pg.findByEmail email db = (inr None, db))
            /\ (unique_emails db -> UserEntity.is_active r = true ->
                Pg.row_accepted r = false ->
                exists error, Pg.findByEmail email db = (inl error, db))
            /\ (unique_emails db -> UserEntity.id r <> "" ->
                uuid_in (UserEntity.id r) = Some (UserEntity.id r) ->
                PgUsers.emailExists email (Some (UserEntity.id r)) db
                = (inr false, db)))).
Proof.
  split; [intros x; apply emailExists_reads|]. split.
  { intros Ht x. unfold PgUsers.emailExists. by rewrite Ht. }
  intros Ht. split; [|split; [|split; [|split; [|split; [|split]]]]].
  - intros id Hne Hid. unfold PgUsers.emailExists. rewrite Ht. cbn [negb].
    destruct (String.eqb_spec id ""); [done|]. by rewrite Hid.
  - intros excludeUserId x Hx. rewrite (emailExists_spec _ _ _ x Ht Hx). eauto.
  - intros email' excludeUserId Hl. unfold PgUsers.emailExists. by rewrite Hl.
  - by rewrite (emailExists_spec email (Some "") db None Ht eq_refl),
      (emailExists_spec email None db None Ht eq_refl).
  - rewrite (emailExists_spec email None db None Ht eq_refl). split.
    + intros [= He]. apply forallb_forall. intros r Hr.
      destruct (String.eqb (UserEntity.email r) (toLowerCase email)) eqn:Heq; [|done].
      assert (Hex : existsb
                (fun r => String.eqb (UserEntity.email r) (toLowerCase email) && true)
                db = true); [|congruence].
      apply existsb_exists. exists r. by rewrite Heq.
    + intros Hall. do 2 f_equal.
      destruct (existsb _ db) eqn:Hex; [|done].
      apply existsb_exists in Hex as (r & Hr & Heq).
      rewrite forallb_forall in Hall. specialize (Hall r Hr).
      rewrite andb_true_r in Heq. by rewrite Heq in Hall.
  - intros found db' Hf.
    rewrite (emailExists_spec email None db None Ht eq_refl). do 2 f_equal.
    unfold Pg.findByEmail in Hf. rewrite Ht in Hf.
    destruct (List.filter _ db) as [|x rest] eqn:Hfilter; [discriminate|].
    assert (Hx : In x (x :: rest)) by (by left).
    rewrite <- Hfilter in Hx. apply List.filter_In in Hx as [Hin Hx].
    apply andb_prop in Hx as [Hx _].
    apply existsb_exists. exists x. by rewrite Hx.
  - intros r Hin He. split; [|split; [|split]].
    + rewrite (emailExists_spec email None db None Ht eq_refl). do 2 f_equal.
      apply existsb_exists. exists r. by rewrite He, String.eqb_refl.
    + intros Hue Ha. apply findByEmail_absent; [done|]. intros r' Hr' He'.
      by rewrite (unique_key_eq UserEntity.email db r' r Hue Hr' Hin) by congruence.
    + intros Hue Ha Hr. eexists.
      by apply (findByEmail_refused db r email).
    + intros Hue Hid Hc.
      assert (Hx : excluded (Some (UserEntity.id r)) = Some (Some (UserEntity.id r))).
      { unfold excluded. destruct (String.eqb_spec (UserEntity.id r) ""); [done|].
        by rewrite Hc. }
      rewrite (emailExists_spec email _ db _ Ht Hx). do 2 f_equal.
      destruct (existsb _ db) eqn:Hex; [|done].
      apply existsb_exists in Hex as (r' & Hr' & Heq).
      apply andb_prop in Heq as [He' Hne]. apply String.eqb_eq in He'.
      rewrite (unique_key_eq UserEntity.email db r' r Hue Hr' Hin) in Hne
        by congruence.
      unfold Pg.has_id in Hne. by rewrite String.eqb_refl in Hne.
Qed.

End WithLibraries.

Section Activation.
Context `{Libraries}.







End Activation.

Section LockedOut.
Context `{Libraries} `{!StoreOk}.

Lemma deactivate_accepted now id r :
  Pg.row_accepted (deactivate now id r) = Pg.row_accepted r.
Proof.
  destruct (deactivate_columns now id r).
  by apply row_accepted_columns; [apply deactivate_id|apply deactivate_email|..].
Qed.

(** X18.  Deactivation locks the account out at the next request that
    consults the table.  Over the [users] table, when ids and e-mails are
    unique, once [deactivateUser] has deactivated an account: [login]
    with its address, in any spelling and with any password, throws
    'Invalid email or password' (never 'Account is deactivated': the
    look-up no longer sees the row); [refreshToken] with any refresh token
    of the account, however valid, throws 'Invalid refresh token'; and
    [validateSession] refuses any request of that user: with 401
    [INVALID_SESSION] when the account's row passes the entity schema,
    and with 500 [SESSION_VALIDATION_ERROR] when it fails it, as a row
    written by [create] does.  None of them writes anything. *)
Theorem deactivation_locks_out (this : AuthService.t) (uuid : string)
    (dbnow now when : Z) (db : Pg.Table) (r : UserEntity.t) :
  unique_ids db -> unique_emails db -> In r db -> UserEntity.is_active r = true ->
  let db1 := (PgUsers.deactivateUser when (UserEntity.id r) db).2 in
  let repo := Pg.repository uuid dbnow in
  (forall loginData data sessionId,
     Zod.LoginRequestSchema_parse loginData = inr data ->
     toLowerCase (LoginRequest.email data) = UserEntity.email r ->
     login this repo loginData now sessionId db1
     = (inl (Error "Invalid email or password"), db1))
  /\ (forall token payload,
        verifyRefresh this token now = inr payload ->
        uuid_in (RefreshTokenPayload.userId payload) = Some (UserEntity.id r) ->
        refreshToken this repo
          (Zod.RefreshTokenRequest_obj (RefreshTokenRequest.mk token)) now db1
        = (inl (Error "Invalid refresh token"), db1))
  /\ (forall req u,
        user req = Some u -> uuid_in (ru_id u) = Some (UserEntity.id r) ->
        (Pg.row_accepted r = true ->
         validateSession repo req now db1
         = (Fail 401
              (error_body "INVALID_SESSION" "Session is no longer valid" now) [],
            db1))
        /\ (Pg.row_accepted r = false ->
            validateSession repo req now db1
            = (Fail 500
                 (error_body "SESSION_VALIDATION_ERROR"
                    "Failed to validate session" now) [], db1))).
Proof.
  intros Hu Hue Hin Ha db1 repo.
  assert (Hk1 : keyed db1).
  { by apply (deactivateUser_stays when (UserEntity.id r) db
                (PgUsers.deactivateUser when (UserEntity.id r) db).1 db1). }
  destruct Hk1 as [Hu1 Hue1].
  set (off := PgUsers.with_is_active false when r).
  assert (Hoff : In off db1).
  { unfold db1. rewrite deactivateUser_map.
    apply (in_map (deactivate when (UserEntity.id r))) in Hin.
    unfold deactivate in Hin at 1. by rewrite String.eqb_refl, Ha in Hin. }
  split; [|split].
  - intros loginData data sessionId Hp He.
    apply (LoginFacts.login_unknown this repo loginData data); [done|].
    cbn [UserRepository.findByEmail repo Pg.repository].
    apply findByEmail_absent.
    { apply is_email_text. by apply (LoginFacts.LoginRequest_email loginData). }
    intros x Hx Hex.
    rewrite (unique_key_eq UserEntity.email db1 x off Hue1 Hx Hoff); [done|].
    rewrite Hex, He. done.
  - intros token payload Hver Hid.
    unfold refreshToken, try_catchM, bindM, liftM, retM, throwM,
      Zod.RefreshTokenRequestSchema_parse, Zod.string_at.
    destruct token as [|c token]; [done|].
    cbn [Zod.RefreshTokenRequest_obj RefreshTokenRequest.refreshToken get
         String.eqb Ascii.eqb Bool.eqb Zod.nonempty negb ret].
    rewrite Hver. cbn [UserRepository.findById repo Pg.repository].
    destruct (Pg.row_accepted off) eqn:Hr.
    + by rewrite (findById_found db1 off _ Hu1 Hoff Hid Hr).
    + by rewrite (findById_refused db1 off _ Hu1 Hoff Hid Hr).
  - intros req u Hreq Hid. split; intros Hr.
    + by apply (validateSession_inactive uuid dbnow req now db1 u off).
    + by apply (validateSession_refused uuid dbnow req now db1 u off).
Qed.

End LockedOut.
End LifecycleFacts.

(** Bob is created next to Alice; Alice is deactivated and reactivated. *)
Module LifecycleExamples.
Import AuthService Guards ReferenceFacts TokenFacts TokenExamples ServiceExamples.
Import TableFacts UpdateFacts RepositoryFacts LifecycleFacts GuardExamples.

#[local] Existing Instance Reference.libraries.
#[local] Existing Instance libraries_ok.
#[local] Existing Instance store_ok.
#[local] Opaque Reference.libraries.


Definition bob_input : CreateUserInput.t :=
  CreateUserInput.mk "Bob" "bob@example.com" "$2b$salt$hunter22" designer "UTC".

Definition bob_row : UserEntity.t := Pg.new_row next_uuid 1700000000000 bob_input.

Lemma bob_input_valid : Pg.validate_create bob_input = inr bob_input.
Proof. vm_compute. reflexivity. Qed.

Lemma bob_insert_passes : Pg.insert_error next_uuid bob_input [alice_row] = None.
Proof. vm_compute. reflexivity. Qed.

Lemma next_uuid_canonical : uuid_in next_uuid = Some next_uuid.
Proof. vm_compute. reflexivity. Qed.


Lemma create_then_find_witness :
  let refused :=
    Error ("Validation failed: " ++ String.concat ", " (Pg.row_issues bob_row)) in
  Pg.create next_uuid 1700000000000 bob_input [alice_row]
  = (inl refused, [alice_row] ++ [bob_row])
  /\ UserEntity.id bob_row = next_uuid
  /\ UserEntity.email bob_row = CreateUserInput.email bob_input
  /\ UserEntity.is_active bob_row = true
  /\ UserEntity.email_verified bob_row = false
  /\ UserEntity.last_seen bob_row = None
  /\ UserEntity.created_at bob_row = 1700000000000
  /\ UserEntity.updated_at bob_row = 1700000000000
  /\ Pg.findById next_uuid ([alice_row] ++ [bob_row])
     = (inl refused, [alice_row] ++ [bob_row])
  /\ (forall email, toLowerCase email = UserEntity.email bob_row ->
        Pg.findByEmail email ([alice_row] ++ [bob_row])
        = (inl refused, [alice_row] ++ [bob_row])
        /\ PgUsers.emailExists email None ([alice_row] ++ [bob_row])
           = (inr true, [alice_row] ++ [bob_row])).
Proof.
  exact (create_then_find next_uuid 1700000000000 bob_input [alice_row]
           alice_unique alice_unique_email bob_input_valid bob_insert_passes
           next_uuid_canonical).
Defined.


Lemma R1_is_alices :
  uuid_in (RefreshTokenPayload.userId R1_payload) = Some (UserEntity.id alice_row).
Proof. vm_compute. reflexivity. Qed.

(** Alice's refresh token and her authenticated request, after she was
    deactivated. *)
Lemma deactivation_locks_out_witness :
  let db1 :=
    (PgUsers.deactivateUser 1700000030000 (UserEntity.id alice_row) [alice_row]).2 in
  let repo := Pg.repository next_uuid 1700000060000 in
  refreshToken service repo
    (Zod.RefreshTokenRequest_obj (RefreshTokenRequest.mk R1)) 1700000060000 db1
  = (inl (Error "Invalid refresh token"), db1)
  /\ validateSession repo alice_authenticated 1700000060000 db1
     = (Fail 401
          (error_body "INVALID_SESSION" "Session is no longer valid" 1700000060000)
          [], db1).
Proof.
  pose (deactivation_locks_out service next_uuid 1700000060000 1700000060000
          1700000030000 [alice_row] alice_row alice_unique alice_unique_email
          (or_introl eq_refl) eq_refl) as facts.
  split.
  - exact (proj1 (proj2 facts) R1 R1_payload (R1_verifies 1700000060000 a_minute_later)
             R1_is_alices).
  - exact (proj1 (proj2 (proj2 facts) alice_authenticated
                    (SessionFacts.user_of alice_payload) eq_refl alice_id_canonical)
             alice_row_accepted).
Defined.

End LifecycleExamples.

(* --------------------------------------------------------------------- *)
(** ** The query builders                                                 *)
(* --------------------------------------------------------------------- *)

Module QueryFacts.
Import BaseRepository.

(** The values a filter contributes to the parameter list. *)
Definition filter_values (f : Filter) : list JVal :=
  match f with
  | Undefined => []
  | Value JNull => []
  | Value v => [v]
  | Array items => items
  end.

(** What of a filter shows in the text of the query. *)
Inductive Shape : Type :=
| Skipped
| Exact
| Pattern
| Many (n : nat).

Definition shape (f : Filter) : Shape :=
  match f with
  | Undefined => Skipped
  | Value JNull => Skipped
  | Value v => if is_pattern v then Pattern else Exact
  | Array items => Many (length items)
  end.

Definition shapes (filters : list (string * Filter)) : list (string * Shape) :=
  map (fun entry => (entry.1, shape entry.2)) filters.

Lemma append_assoc (a b c : string) :
  ((a ++ b) ++ c)%string = (a ++ (b ++ c))%string.
Proof.
  induction a as [|x a IH]; [reflexivity|].
  change (String x ((a ++ b) ++ c) = String x (a ++ (b ++ c)))%string.
  by rewrite IH.
Qed.

Lemma tail_apart (query order rest : string) :
  (query ++ " " ++ order ++ rest)%string = ((query ++ " " ++ order) ++ rest)%string.
Proof. by rewrite !append_assoc. Qed.

Lemma placeholders_length items items' i :
  length items = length items' -> placeholders items i = placeholders items' i.
Proof.
  revert items' i. induction items as [|v items IH]; intros [|v' items'] i Hl;
    try done.
  cbn. f_equal. apply IH. by injection Hl.
Qed.

Lemma add_filter_params st entry :
  params (add_filter st entry) = params st ++ filter_values entry.2
  /\ paramIndex (add_filter st entry)
     = paramIndex st + Z.of_nat (length (filter_values entry.2)).
Proof.
  destruct entry as [key [|v|items]]; cbn.
  - rewrite app_nil_r. split; [done|lia].
  - destruct v; cbn; try (destruct (includes "%" s)); cbn;
      rewrite ?app_nil_r; split; try done; lia.
  - done.
Qed.

Lemma fold_params filters st :
  params (fold_left add_filter filters st)
  = params st ++ flat_map (fun entry => filter_values entry.2) filters
  /\ paramIndex (fold_left add_filter filters st)
     = paramIndex st
       + Z.of_nat (length (flat_map (fun entry => filter_values entry.2) filters)).
Proof.
  revert st. induction filters as [|entry filters IH]; intros st; cbn.
  - rewrite app_nil_r. split; [done|lia].
  - destruct (IH (add_filter st entry)) as [-> ->].
    destruct (add_filter_params st entry) as [-> ->].
    rewrite <- app_assoc, length_app. split; [done|lia].
Qed.

Lemma add_filter_conditions st entry :
  (shape entry.2 = Skipped /\ add_filter st entry = st)
  \/ (shape entry.2 <> Skipped
      /\ exists c, conditions (add_filter st entry) = conditions st ++ [c]).
Proof.
  destruct entry as [key [|v|items]]; cbn.
  - by left.
  - destruct v; cbn; try (destruct (includes "%" s)); cbn;
      try (by left); right; split; try done; eauto.
  - right. split; [done|eauto].
Qed.

Lemma fold_conditions filters st :
  exists added,
    conditions (fold_left add_filter filters st) = conditions st ++ added
    /\ (added = [] <-> Forall (fun entry => shape entry.2 = Skipped) filters).
Proof.
  revert st. induction filters as [|entry filters IH]; intros st; cbn.
  - exists []. rewrite app_nil_r. split; [done|]. split; [constructor|done].
  - destruct (IH (add_filter st entry)) as (added & -> & Hadded).
    destruct (add_filter_conditions st entry) as [[Hs ->]|[Hs [c ->]]].
    + exists added. split; [done|]. rewrite Hadded. split.
      * intros Hall. by constructor.
      * intros Hall. by apply Forall_cons in Hall as [_ Hall].
    + exists (c :: added). rewrite <- app_assoc. split; [done|]. split; [done|].
      intros Hall. by apply Forall_cons in Hall as [? _].
Qed.

Lemma add_filter_shape st st' entry entry' :
  conditions st = conditions st' -> paramIndex st = paramIndex st' ->
  entry.1 = entry'.1 -> shape entry.2 = shape entry'.2 ->
  conditions (add_filter st entry) = conditions (add_filter st' entry')
  /\ paramIndex (add_filter st entry) = paramIndex (add_filter st' entry').
Proof.
  destruct entry as [key f], entry' as [key' f']. cbn [fst snd].
  intros Hc Hi <- Hs.
  destruct f as [|v|items], f' as [|v'|items']; cbn in Hs |- *.
  all: try done.
  all: try (destruct v; cbn in Hs |- *; try (destruct (includes "%" s)); done).
  all: try (destruct v'; cbn in Hs |- *; try (destruct (includes "%" s)); done).
  - destruct v, v'; cbn in Hs |- *;
      repeat match goal with
             | |- context [includes "%" ?s] => destruct (includes "%" s)
             | H : context [includes "%" ?s] |- _ => destruct (includes "%" s)
             end; try done; cbn; by rewrite Hc, Hi.
  - injection Hs as Hl. cbn. rewrite Hc, Hi, Hl.
    by rewrite (placeholders_length items items').
Qed.

Lemma fold_shape filters filters' st st' :
  conditions st = conditions st' -> paramIndex st = paramIndex st' ->
  shapes filters = shapes filters' ->
  conditions (fold_left add_filter filters st)
  = conditions (fold_left add_filter filters' st')
  /\ paramIndex (fold_left add_filter filters st)
     = paramIndex (fold_left add_filter filters' st').
Proof.
  revert filters' st st'.
  induction filters as [|entry filters IH]; intros [|entry' filters'] st st' Hc Hi Hs;
    try done.
  cbn in Hs. injection Hs as Hk Hsh Hrest. cbn [fold_left].
  destruct (add_filter_shape st st' entry entry' Hc Hi Hk Hsh) as [Hc' Hi'].
  by apply IH.
Qed.

(** X19.  [buildWhereClause] numbers its placeholders as it collects its
    parameters.  The parameters are the values of the filters that are
    neither [undefined] nor [null], in the order of the filters, an array
    contributing its items; [nextParamIndex] is [startParamIndex] plus
    their number, which is what [findMany] relies on when it numbers
    [LIMIT] and [OFFSET] by [params.length + 1] and [+ 2].  The clause is
    empty exactly when every filter is [undefined] or [null].  The text
    of the clause is fixed by the keys, by which values are arrays (and
    of what length) and by which are strings with a [%]: no other part of
    a value reaches the text. *)
Theorem buildWhereClause_parameters (filters : list (string * Filter))
    (startParamIndex : Z) :
  let w := buildWhereClause filters startParamIndex in
  where_params w = flat_map (fun entry => filter_values entry.2) filters
  /\ nextParamIndex w = startParamIndex + Z.of_nat (length (where_params w))
  /\ (whereClause w = "" <->
      Forall (fun entry => entry.2 = Undefined \/ entry.2 = Value JNull) filters)
  /\ (forall filters',
        shapes filters' = shapes filters ->
        whereClause (buildWhereClause filters' startParamIndex) = whereClause w
        /\ nextParamIndex (buildWhereClause filters' startParamIndex)
           = nextParamIndex w)
  /\ (forall tableName p,
        let n := nextParamIndex (buildWhereClause filters 1) in
        exists text,
          findMany_query tableName filters (Some p)
          = ((text ++ " LIMIT " ++ placeholder n
              ++ " OFFSET " ++ placeholder (n + 1))%string,
             where_params (buildWhereClause filters 1)
             ++ [JNum (limit p); JNum ((page p - 1) * limit p)])).
Proof.
  intros w. subst w. unfold buildWhereClause.
  cbn [where_params nextParamIndex whereClause].
  pose proof (fold_params filters (mkClauses [] [] startParamIndex)) as [Hp Hi].
  cbn [params paramIndex app] in Hp, Hi.
  split; [done|]. split; [by rewrite Hi, Hp|]. split; [|split].
  - destruct (fold_conditions filters (mkClauses [] [] startParamIndex))
      as (added & Hc & Hadded).
    cbn [conditions app] in Hc. rewrite Hc.
    assert (Hskip : Forall (fun entry : string * Filter => shape entry.2 = Skipped)
                      filters
                    <-> Forall (fun entry : string * Filter =>
                                  entry.2 = Undefined \/ entry.2 = Value JNull)
                          filters).
    { apply Forall_iff. intros [key [|v|items]]; cbn.
      - split; auto.
      - destruct v; cbn; try (destruct (includes "%" s)); split; try done;
          try (by auto); by intros [|].
      - split; [done|by intros [|]]. }
    rewrite <- Hskip, <- Hadded. destruct added; [done|]. cbn. split; discriminate.
  - intros filters' Hs.
    destruct (fold_shape filters' filters (mkClauses [] [] startParamIndex)
                (mkClauses [] [] startParamIndex) eq_refl eq_refl Hs) as [-> ->].
    done.
  - intros tableName p. unfold findMany_query, buildWhereClause.
    cbn [where_params nextParamIndex whereClause].
    pose proof (fold_params filters (mkClauses [] [] 1)) as [Hp1 Hi1].
    cbn [params paramIndex app] in Hp1, Hi1. rewrite Hi1, Hp1.
    replace (1 + Z.of_nat (length (flat_map (fun entry => filter_values entry.2)
                                     filters)) + 1)
      with (Z.of_nat (length (flat_map (fun entry => filter_values entry.2)
                                filters)) + 2) by lia.
    replace (1 + Z.of_nat (length (flat_map (fun entry => filter_values entry.2)
                                     filters)))
      with (Z.of_nat (length (flat_map (fun entry => filter_values entry.2)
                                filters)) + 1) by lia.
    eexists. f_equal. apply tail_apart.
Qed.

Lemma includes_field_In fields field :
  includes_field fields field = true <-> In field fields.
Proof.
  unfold includes_field. rewrite existsb_exists. split.
  - intros (x & Hx & Heq). apply String.eqb_eq in Heq. by subst.
  - intros Hin. exists field. by rewrite String.eqb_refl.
Qed.

(** X20.  [buildOrderClause] never puts a column into the text that is
    not on the list of allowed sort fields: the clause is either the
    fallback [ORDER BY created_at DESC] or [ORDER BY field order] for an
    allowed, non-empty [field], with [DESC] for a missing order.
    [findMany] calls it with the default list, so that it sorts by
    [created_at] or [updated_at] only; a request to sort by another
    column, such as the [sortBy: 'name'] with which
    [UserService.searchUsers] lists the active users, falls back to
    [created_at DESC]. *)
Theorem buildOrderClause_whitelist (sortBy : option string)
    (sortOrder : option SortOrder) (allowedSortFields : list string) :
  let order := match sortOrder with Some o => o | None => DESC end in
  (buildOrderClause sortBy sortOrder allowedSortFields = "ORDER BY created_at DESC"
   \/ exists field,
        sortBy = Some field /\ field <> "" /\ In field allowedSortFields
        /\ buildOrderClause sortBy sortOrder allowedSortFields
           = ("ORDER BY " ++ field ++ " " ++ order_name order)%string)
  /\ (forall field,
        In field allowedSortFields -> field <> "" ->
        buildOrderClause (Some field) sortOrder allowedSortFields
        = ("ORDER BY " ++ field ++ " " ++ order_name order)%string)
  /\ (forall field,
        ~ In field allowedSortFields ->
        buildOrderClause (Some field) sortOrder allowedSortFields
        = "ORDER BY created_at DESC")
  /\ (forall page limit,
        findMany_query "users" [("is_active", Value (JBool true))]
          (Some (mkPaginationOptions page limit (Some "name") (Some ASC)))
        = ("SELECT * FROM users WHERE is_active = $1 ORDER BY created_at DESC LIMIT $2 OFFSET $3",
           [JBool true; JNum limit; JNum ((page - 1) * limit)])).
Proof.
  intros order. split; [|split; [|split]].
  - unfold buildOrderClause. destruct sortBy as [field|]; [|by left].
    destruct (String.eqb_spec field ""); [by left|].
    destruct (includes_field allowedSortFields field) eqn:Hin; [|by left].
    right. exists field. apply includes_field_In in Hin. done.
  - intros field Hin Hne. unfold buildOrderClause.
    destruct (String.eqb_spec field ""); [done|].
    apply includes_field_In in Hin. by rewrite Hin.
  - intros field Hnin. unfold buildOrderClause.
    destruct (String.eqb field ""); [done|].
    destruct (includes_field allowedSortFields field) eqn:Hin; [|done].
    by apply includes_field_In in Hin.
  - intros page limit. reflexivity.
Qed.

(** X21.  The pagination metadata of [findMany] is consistent.  For a
    positive [limit] and a row count that is not negative: [totalPages]
    is the least number of pages of [limit] rows that hold [total] rows;
    [hasNext] holds exactly when [page] is before the last page, and
    [hasPrev] exactly when it is after the first; [totalPages] is 0
    exactly when there are no rows.  Without pagination options the
    result is one page without neighbours, whose [limit] is the number of
    rows read. *)
Theorem pagination_metadata (p : PaginationOptions) (count data_length : Z) :
  0 < limit p -> 0 <= count ->
  let m := paginationMeta (Some p) count data_length in
  total m = count /\ meta_page m = page p /\ meta_limit m = limit p
  /\ limit p * (totalPages m - 1) < count <= limit p * totalPages m
  /\ (hasNext m = true <-> page p < totalPages m)
  /\ (hasPrev m = true <-> 1 < page p)
  /\ (totalPages m = 0 <-> count = 0)
  /\ paginationMeta None count data_length
     = mkPaginationMeta 1 data_length count 1 false false.
Proof.
  intros Hl Hc m. subst m. cbn.
  assert (Hceil : limit p * (ceil_div count (limit p) - 1) < count
                  <= limit p * ceil_div count (limit p)).
  { unfold ceil_div.
    pose proof (Z.div_mod (- count) (limit p) ltac:(lia)) as Hdm.
    pose proof (Z.mod_pos_bound (- count) (limit p) Hl) as Hm. nia. }
  split; [done|]. split; [done|]. split; [done|]. split; [done|].
  split; [|split; [|split]].
  - rewrite Z.ltb_lt. nia.
  - rewrite Z.gtb_ltb, Z.ltb_lt. done.
  - nia.
  - done.
Qed.

End QueryFacts.

Module QueryExamples.
Import BaseRepository.

(** The third page of twenty rows each, of 45 rows. *)
Definition third_page : PaginationOptions :=
  {| page := 3; limit := 20; sortBy := None; sortOrder := Some ASC |}.

Lemma pagination_metadata_witness :
  let m := paginationMeta (Some third_page) 45 5 in
  total m = 45 /\ meta_page m = page third_page
  /\ meta_limit m = limit third_page
  /\ limit third_page * (totalPages m - 1) < 45
     <= limit third_page * totalPages m
  /\ (hasNext m = true <-> page third_page < totalPages m)
  /\ (hasPrev m = true <-> 1 < page third_page)
  /\ (totalPages m = 0 <-> 45 = 0)
  /\ paginationMeta None 45 5 = mkPaginationMeta 1 5 45 1 false false.
Proof.
  exact (QueryFacts.pagination_metadata third_page 45 5
           ltac:(simpl; lia) ltac:(lia)).
Defined.

End QueryExamples.

(* --------------------------------------------------------------------- *)
(** ** The rate limiter: clients and bookkeeping                          *)
(* --------------------------------------------------------------------- *)

Module LimiterFacts.
Import RateLimit RateLimitFacts.

(** The clock readings [t0], those of [calls] in turn, and [now] never
    decrease. *)
Fixpoint ordered (t0 : Z) (calls : list (Request * Z)) (now : Z) : Prop :=
  match calls with
  | [] => t0 <= now
  | (_, t) :: calls' => t0 <= t /\ ordered t calls' now
  end.

(** The calls of client [id] among [calls]. *)
Definition own (id : string) (calls : list (Request * Z))
    : list (Request * Z) :=
  filter (fun call => clientId call.1 = id) calls.

Lemma ordered_le t0 calls now : ordered t0 calls now -> t0 <= now.
Proof.
  revert t0. induction calls as [|[req t] calls IH]; intros t0; simpl; [done|].
  intros [H1 H2]. specialize (IH _ H2). lia.
Qed.

(** A later sweep sees no more of two maps than an earlier one. *)
Lemma sweep_later t now (m1 m2 : gmap string Entry) id :
  t <= now ->
  sweep t m1 !! id = sweep t m2 !! id ->
  sweep now m1 !! id = sweep now m2 !! id.
Proof.
  intros Hle. rewrite !sweep_lookup.
  destruct (m1 !! id) as [e1|], (m2 !! id) as [e2|];
    repeat destruct (decide _); try done; try lia;
    intros [= <-]; try done; lia.
Qed.

Lemma sweep_by_entry now (m1 m2 : gmap string Entry) id :
  m1 !! id = m2 !! id -> sweep now m1 !! id = sweep now m2 !! id.
Proof. intros H. by rewrite !sweep_lookup, H. Qed.

Lemma sweep_twice now (m : gmap string Entry) id :
  sweep now (sweep now m) !! id = sweep now m !! id.
Proof.
  rewrite !sweep_lookup. destruct (m !! id) as [e|]; [|done].
  destruct (decide _) as [H|H]; [|done]. by destruct (decide _).
Qed.

(** The outcome for a client, and the entry it is left with, depend on
    the swept entry of that client only. *)
Lemma step_by_entry M W req now (m1 m2 : gmap string Entry) :
  sweep now m1 !! clientId req = sweep now m2 !! clientId req ->
  (authRateLimit M W req now m1).2 = (authRateLimit M W req now m2).2 /\
  (authRateLimit M W req now m1).1 !! clientId req
  = (authRateLimit M W req now m2).1 !! clientId req.
Proof.
  intros H. unfold authRateLimit. rewrite <- H.
  destruct (sweep now m1 !! clientId req) as [e|] eqn:E; simpl.
  - destruct (now >? resetTime e); simpl;
      [by rewrite !lookup_insert_eq|].
    destruct (count e >=? M); simpl;
      [by rewrite E, H|by rewrite !lookup_insert_eq].
  - by rewrite !lookup_insert_eq.
Qed.

Lemma run_own M W id calls now :
  forall t0 (m1 m2 : gmap string Entry),
    ordered t0 calls now ->
    sweep t0 m1 !! id = sweep t0 m2 !! id ->
    sweep now (run M W calls m1) !! id
    = sweep now (run M W (own id calls) m2) !! id.
Proof.
  induction calls as [|[req t] calls IH]; intros t0 m1 m2 Hord Hm.
  - simpl in *. by apply (sweep_later t0).
  - destruct Hord as [Ht Hord]. unfold own.
    pose proof (sweep_later _ _ _ _ _ Ht Hm) as Hm'.
    destruct (decide (clientId req = id)) as [Heq|Hne].
    + rewrite filter_cons_True by done. simpl run.
      apply (IH t); [done|]. apply sweep_by_entry. subst id.
      by apply step_by_entry.
    + rewrite filter_cons_False by done. simpl run.
      apply (IH t); [done|].
      rewrite <- Hm', <- (sweep_twice t m1 id). apply sweep_by_entry.
      by apply step_other.
Qed.

(** X22.  [authRateLimit] keeps clients apart.  As long as the clock
    never goes back, what a client gets from the limiter depends on its
    own earlier calls only: after any sequence of calls, a request is
    answered as it would be, and its client is left with the same entry,
    had the calls of all other clients never been made. *)
Theorem limiter_isolates_clients (M W t0 : Z) (m : gmap string Entry)
    (calls : list (Request * Z)) (req : Request) (now : Z) :
  ordered t0 calls now ->
  let all := authRateLimit M W req now (run M W calls m) in
  let alone := authRateLimit M W req now
                 (run M W (own (clientId req) calls) m) in
  all.2 = alone.2 /\ all.1 !! clientId req = alone.1 !! clientId req.
Proof.
  intros Hord all alone. apply step_by_entry.
  by apply (run_own M W (clientId req) calls now t0).
Qed.

(** The entries of a map count between 1 and [M] calls and end no later
    than [W] after [t]. *)
Definition bounded (M W t : Z) (m : gmap string Entry) : Prop :=
  forall id e, m !! id = Some e ->
    1 <= count e <= M /\ resetTime e <= t + W.

Lemma bounded_later M W t t' m : t <= t' -> bounded M W t m -> bounded M W t' m.
Proof. intros Hle H id e Hm. specialize (H id e Hm). lia. Qed.

Lemma sweep_Some now (m : gmap string Entry) id e :
  sweep now m !! id = Some e -> m !! id = Some e /\ now <= resetTime e.
Proof.
  rewrite sweep_lookup. destruct (m !! id) as [e'|]; [|done].
  by destruct (decide _); intros [= <-].
Qed.

(** After a call at [now] every entry is in its window. *)
Lemma step_bounded M W req now t (m : gmap string Entry) :
  1 <= M -> 0 <= W -> t <= now -> bounded M W t m ->
  forall id e, (authRateLimit M W req now m).1 !! id = Some e ->
    1 <= count e <= M /\ now <= resetTime e <= now + W.
Proof.
  intros HM HW Ht Hb id e.
  assert (Hswept : sweep now m !! id = Some e ->
                   1 <= count e <= M /\ now <= resetTime e <= now + W).
  { intros [Hm Hlive]%sweep_Some. specialize (Hb id e Hm). lia. }
  unfold authRateLimit.
  destruct (sweep now m !! clientId req) as [e0|] eqn:E; simpl.
  - apply sweep_Some in E as [Hm0 Hlive0]. specialize (Hb _ _ Hm0).
    destruct (now >? resetTime e0) eqn:Hgt; simpl; [lia|].
    destruct (count e0 >=? M) eqn:Hge; simpl; [done|].
    destruct (decide (clientId req = id)) as [->|Hne].
    + rewrite lookup_insert_eq. intros [= <-]. simpl. lia.
    + by rewrite lookup_insert_ne.
  - destruct (decide (clientId req = id)) as [->|Hne].
    + rewrite lookup_insert_eq. intros [= <-]. simpl. lia.
    + by rewrite lookup_insert_ne.
Qed.

Lemma run_bounded M W calls now :
  1 <= M -> 0 <= W ->
  forall t0 (m : gmap string Entry),
    ordered t0 calls now -> bounded M W t0 m ->
    bounded M W now (run M W calls m).
Proof.
  intros HM HW. induction calls as [|[req t] calls IH]; intros t0 m Hord Hb.
  - simpl in *. by apply (bounded_later M W t0).
  - destruct Hord as [Ht Hord]. simpl run. apply (IH t); [done|].
    intros id e He.
    destruct (step_bounded M W req t t0 m HM HW Ht Hb id e He). lia.
Qed.

(** X23.  The bookkeeping of [authRateLimit], started on an
    empty map with [maxAttempts >= 1], a window of [windowMs >= 0], and a
    clock that starts at or after 0, never goes back, and stays, with the
    window added, within the safe integers of JavaScript.  After every
    call the map holds only entries whose window is still open at that
    call and ends at most [windowMs] later, each with a count between 1
    and [maxAttempts]; and a call that is answered 429 leaves the entry
    of its client as it was, so that rejected calls do not prolong the
    block. *)
Theorem limiter_bookkeeping (M W t0 : Z) (calls : list (Request * Z))
    (req : Request) (now : Z) :
  1 <= M -> 0 <= W -> 0 <= t0 -> now + W <= MAX_SAFE_INTEGER ->
  ordered t0 calls now ->
  let before := run M W calls ∅ in
  let after := authRateLimit M W req now before in
  (forall id e, after.1 !! id = Some e ->
     1 <= count e <= M /\ now <= resetTime e <= now + W) /\
  (forall body, after.2 = Respond 429 body ->
     after.1 !! clientId req = before !! clientId req /\
     exists e, before !! clientId req = Some e /\ count e = M /\
               now <= resetTime e /\
               retryAfter body = Some (ceil_div (resetTime e - now) 1000)).
Proof.
  intros HM HW _ _ Hord before after.
  assert (Hb : bounded M W now before).
  { apply (run_bounded M W calls now HM HW t0); [done|].
    intros id e. by rewrite lookup_empty. }
  split.
  - apply (step_bounded M W req now now); (done || lia).
  - intros body. subst after. unfold authRateLimit.
    destruct (sweep now before !! clientId req) as [e|] eqn:E; simpl; [|done].
    destruct (now >? resetTime e); simpl; [done|].
    destruct (count e >=? M) eqn:Hge; simpl; [|done].
    intros [= <-]. apply sweep_Some in E as [Hm Hlive].
    split; [by rewrite sweep_lookup, Hm; destruct (decide _)|].
    exists e. destruct (Hb _ _ Hm). repeat split; (done || lia).
Qed.

End LimiterFacts.

Module LimiterExamples.
Import RateLimit RateLimitFacts LimiterFacts.

Definition another_client : Request :=
  {| authorization := None; ip := Some "198.51.100.4";
     remoteAddress := None; user := None |}.

(** Two clients take turns. *)
Definition turns : list (Request * Z) :=
  [(a_client, 0); (another_client, 10); (a_client, 20); (another_client, 30)].

Lemma limiter_isolates_clients_witness :
  let all := authRateLimit 5 900000 a_client 40 (run 5 900000 turns ∅) in
  let alone := authRateLimit 5 900000 a_client 40
                 (run 5 900000 (own (clientId a_client) turns) ∅) in
  all.2 = alone.2 /\ all.1 !! clientId a_client = alone.1 !! clientId a_client.
Proof.
  exact (limiter_isolates_clients 5 900000 0 ∅ turns a_client 40
           ltac:(simpl; lia)).
Defined.

(** One client calls five times within a second, and a sixth time a
    second after the first call. *)
Definition five_calls : list (Request * Z) :=
  [(a_client, 0); (a_client, 200); (a_client, 400); (a_client, 600);
   (a_client, 800)].

Lemma sixth_call_stopped :
  (authRateLimit 5 900000 a_client 1000 (run 5 900000 five_calls ∅)).2
  = Respond 429 (too_many 1000 {| count := 5; resetTime := 900000 |}).
Proof. vm_compute. reflexivity. Qed.

(** The sixth call is answered 429, and the client's entry stays as the
    fifth call left it. *)
Lemma limiter_bookkeeping_witness :
  let before := run 5 900000 five_calls ∅ in
  let after := authRateLimit 5 900000 a_client 1000 before in
  after.2 = Respond 429 (too_many 1000 {| count := 5; resetTime := 900000 |})
  /\ (forall id e, after.1 !! id = Some e ->
        1 <= count e <= 5 /\ 1000 <= resetTime e <= 1000 + 900000)
  /\ after.1 !! clientId a_client = before !! clientId a_client
  /\ exists e, before !! clientId a_client = Some e /\ count e = 5 /\
               1000 <= resetTime e /\
               retryAfter (too_many 1000 {| count := 5; resetTime := 900000 |})
               = Some (ceil_div (resetTime e - 1000) 1000).
Proof.
  destruct (limiter_bookkeeping 5 900000 0 five_calls a_client 1000
              ltac:(lia) ltac:(lia) ltac:(lia) ltac:(vm_compute; discriminate)
              ltac:(simpl; lia)) as [Hentries Hstopped].
  split; [exact sixth_call_stopped|]. split; [exact Hentries|].
  exact (Hstopped _ sixth_call_stopped).
Defined.

End LimiterExamples.

(* --------------------------------------------------------------------- *)
(** ** Availability: times are compared as text                           *)
(* --------------------------------------------------------------------- *)

Module AvailabilityFacts.
Import UserService.

Definition digit (c : ascii) : Z := Z.of_N (N_of_ascii c) - 48.

(** The minute of the day a text that starts with [HH:MM] stands for. *)
Definition minutes (s : string) : Z :=
  match s with
  | String h1 (String h2 (String _ (String m1 (String m2 _)))) =>
      60 * (10 * digit h1 + digit h2) + 10 * digit m1 + digit m2
  | _ => 0
  end.

(** The text starts with a two-digit hour, a colon and a two-digit
    minute. *)
Definition hhmm (s : string) : bool :=
  is_time (substring 0 5 s) && (5 <=? String.length s)%nat.

(** What [window.startTime <= currentTime] comes to: a start time of
    exactly five characters counts from its own minute on, a longer one
    from the minute after. *)
Definition started (startTime currentTime : string) : bool :=
  if (String.length startTime =? 5)%nat
  then minutes startTime <=? minutes currentTime
  else minutes startTime <? minutes currentTime.

Lemma is_digit_upto_spec hi c :
  is_digit_upto hi c = true -> 0 <= digit c <= Z.of_N hi - 48.
Proof.
  unfold is_digit_upto, digit. rewrite andb_true_iff, !N.leb_le. lia.
Qed.

Lemma hhmm_inv s :
  hhmm s = true ->
  exists h1 h2 m1 m2 rest,
    s = String h1 (String h2 (String ":" (String m1 (String m2 rest)))) /\
    0 <= digit h1 /\ 0 <= digit h2 <= 9 /\
    0 <= 10 * digit h1 + digit h2 <= 23 /\
    0 <= digit m1 <= 5 /\ 0 <= digit m2 <= 9.
Proof.
  unfold hhmm. rewrite andb_true_iff. intros [Ht Hlen].
  destruct s as [|h1 [|h2 [|c [|m1 [|m2 rest]]]]]; try discriminate Hlen.
  change (substring 0 5 _)
    with (String h1 (String h2 (String c (String m1 (String m2
            (substring 0 0 rest)))))) in Ht.
  assert (Hrest : substring 0 0 rest = "") by (by destruct rest).
  rewrite Hrest in Ht. cbn [is_time] in Ht.
  rewrite !andb_true_iff in Ht. destruct Ht as [[[Hh Hc] Hm1] Hm2].
  apply Ascii.eqb_eq in Hc as ->.
  apply is_digit_upto_spec in Hm1, Hm2.
  exists h1, h2, m1, m2, rest. split; [done|].
  apply orb_true_iff in Hh as [Hh|Hh]; apply andb_true_iff in Hh as [H1 H2].
  - apply is_digit_upto_spec in H1, H2.
    change (Z.of_N 49 - 48) with 1 in H1.
    change (Z.of_N 57 - 48) with 9 in H2, Hm2.
    change (Z.of_N 53 - 48) with 5 in Hm1. lia.
  - apply Ascii.eqb_eq in H1 as ->. apply is_digit_upto_spec in H2.
    change (digit "2") with 2.
    change (Z.of_N 51 - 48) with 3 in H2.
    change (Z.of_N 57 - 48) with 9 in Hm2.
    change (Z.of_N 53 - 48) with 5 in Hm1. lia.
Qed.

Lemma compare_digit a b :
  match Ascii.compare a b with
  | Eq => digit a = digit b
  | Lt => digit a < digit b
  | Gt => digit a > digit b
  end.
Proof.
  unfold Ascii.compare, digit.
  destruct (N.compare_spec (N_of_ascii a) (N_of_ascii b)); lia.
Qed.

(** Two texts that start with [HH:MM] compare by their minute of the
    day, and by what follows when the minutes are equal. *)
Lemma compare_hhmm s c :
  hhmm s = true -> hhmm c = true ->
  String.compare s c
  = match minutes s ?= minutes c with
    | Eq => String.compare (substring 5 (String.length s - 5) s)
                           (substring 5 (String.length c - 5) c)
    | r => r
    end.
Proof.
  intros (h1 & h2 & m1 & m2 & rest & -> & Hs)%hhmm_inv
         (k1 & k2 & n1 & n2 & rest' & -> & Hc)%hhmm_inv.
  assert (Hsub : forall x, substring 0 (String.length x) x = x).
  { induction x as [|a x IH]; [done|]. simpl. by rewrite IH. }
  cbn [String.length Nat.sub]. change (substring 5 ?n (String ?a (String ?b
    (String ?c (String ?d (String ?e ?x)))))) with (substring 0 n x).
  rewrite !Nat.sub_0_r, !Hsub.
  cbn [String.compare minutes].
  pose proof (compare_digit h1 k1) as H1.
  pose proof (compare_digit h2 k2) as H2.
  pose proof (compare_digit m1 n1) as H3.
  pose proof (compare_digit m2 n2) as H4.
  change (Ascii.compare ":" ":") with Eq.
  destruct (Ascii.compare h1 k1);
    [destruct (Ascii.compare h2 k2);
       [destruct (Ascii.compare m1 n1);
          [destruct (Ascii.compare m2 n2)|..]|..]|..];
    match goal with
    | |- _ = match ?a ?= ?b with _ => _ end =>
        destruct (Z.compare_spec a b); (done || lia)
    end.
Qed.

Lemma started_spec s c :
  hhmm s = true -> hhmm c = true -> String.length c = 5%nat ->
  String.leb s c = started s c.
Proof.
  intros Hs Hc Hlen. unfold String.leb, started.
  rewrite (compare_hhmm s c Hs Hc), Hlen.
  apply hhmm_inv in Hs as (h1 & h2 & m1 & m2 & rest & -> & _).
  apply hhmm_inv in Hc as (k1 & k2 & n1 & n2 & rest' & -> & _).
  destruct rest' as [|? ?]; [|discriminate Hlen].
  cbn [String.length Nat.sub Nat.eqb].
  change (substring 5 0 _) with "".
  change (substring 5 ?n (String ?a (String ?b
    (String ?c (String ?d (String ?e ?x)))))) with (substring 0 n x).
  destruct (Z.compare_spec (minutes (String h1 (String h2 (String ":"
              (String m1 (String m2 rest))))))
              (minutes (String k1 (String k2 (String ":"
              (String n1 (String n2 ""))))))) as [H|H|H].
  - destruct rest; cbn [String.length Nat.eqb]; symmetry;
      [apply Z.leb_le|apply Z.ltb_ge]; lia.
  - destruct rest; cbn [String.length Nat.eqb]; symmetry;
      [apply Z.leb_le|apply Z.ltb_lt]; lia.
  - destruct rest; cbn [String.length Nat.eqb]; symmetry;
      [apply Z.leb_gt|apply Z.ltb_ge]; lia.
Qed.

Lemma ended_spec c e :
  hhmm c = true -> hhmm e = true -> String.length c = 5%nat ->
  String.leb c e = (minutes c <=? minutes e).
Proof.
  intros Hc He Hlen. unfold String.leb.
  rewrite (compare_hhmm c e Hc He), Hlen.
  change (substring 5 (5 - 5) c) with (substring 5 0 c).
  assert (Hnil : substring 5 0 c = "").
  { apply hhmm_inv in Hc as (k1 & k2 & n1 & n2 & rest' & -> & _).
    by destruct rest'. }
  rewrite Hnil.
  destruct (Z.compare_spec (minutes c) (minutes e)) as [H|H|H].
  - destruct (substring _ _ e); symmetry; apply Z.leb_le; lia.
  - symmetry; apply Z.leb_le; lia.
  - symmetry; apply Z.leb_gt; lia.
Qed.

(** X24.  The availability test of [getAvailableNow] reads the clock
    right when the times are zero-padded.  For a current time [HH:MM] and
    windows whose times start with [HH:MM], a user is available exactly
    when some window of the day has started and has not ended, both by
    the minute of the day; the window includes its last minute, and its
    first minute when the start time is exactly [HH:MM], but not when
    the start time carries more text (seconds, say). *)
Theorem available_by_the_clock (availability : list AvailabilityWindow)
    (dayOfWeek : Z) (currentTime : string) :
  Forall (fun window => hhmm (startTime window) = true
                        /\ hhmm (endTime window) = true) availability ->
  hhmm currentTime = true -> String.length currentTime = 5%nat ->
  isAvailableNow availability dayOfWeek currentTime
  = existsb
      (fun window =>
         (UserService.dayOfWeek window =? dayOfWeek)
         && started (startTime window) currentTime
         && (minutes currentTime <=? minutes (endTime window)))
      availability.
Proof.
  intros Hall Hc Hlen. unfold isAvailableNow.
  induction Hall as [|w ws [Hs He] _ IH]; [done|].
  cbn [existsb]. rewrite IH. f_equal.
  by rewrite (started_spec _ _ Hs Hc Hlen), (ended_spec _ _ Hc He Hlen).
Qed.

(** Without the padding the order of the texts is not that of the clock:
    a window from ["9:00"], which the pattern of the times admits, has
    not started at ["10:30"]. *)
Lemma unpadded_start_is_late :
  is_time "9:00" = true /\
  isAvailableNow [mkAvailabilityWindow 1 "9:00" "17:00"] 1 "10:30" = false.
Proof. split; reflexivity. Qed.

End AvailabilityFacts.

Module AvailabilityExamples.
Import UserService AvailabilityFacts.

(** Monday from nine to five, once as [HH:MM] and once with seconds. *)
Definition office_hours : list AvailabilityWindow :=
  [ mkAvailabilityWindow 1 "09:00" "17:00";
    mkAvailabilityWindow 2 "09:00:00" "17:00:00" ].

Lemma available_by_the_clock_witness :
  isAvailableNow office_hours 2 "09:00"
  = existsb
      (fun window =>
         (UserService.dayOfWeek window =? 2)
         && started (startTime window) "09:00"
         && (minutes "09:00" <=? minutes (endTime window)))
      office_hours.
Proof.
  exact (available_by_the_clock office_hours 2 "09:00"
           ltac:(repeat constructor) ltac:(reflexivity) ltac:(reflexivity)).
Defined.

(** On Monday the first minute counts, on Tuesday it does not. *)
Lemma first_minute :
  isAvailableNow office_hours 1 "09:00" = true /\
  isAvailableNow office_hours 2 "09:00" = false /\
  isAvailableNow office_hours 2 "09:01" = true /\
  isAvailableNow office_hours 2 "17:00" = true.
Proof. repeat split; reflexivity. Qed.

End AvailabilityExamples.

(* --------------------------------------------------------------------- *)
(** ** The listing of users: where a page starts                          *)
(* --------------------------------------------------------------------- *)

Module SearchFacts.
Import BaseRepository UserService.

(** X25.  Where [searchUsers] starts to read when it lists all active
    users.  For a request of [limit >= 1] rows from [offset >= 0] on, the
    query asks for [limit + 1] rows, sorted by [created_at] (not by
    name), from row [floor(offset / limit) * (limit + 1)] on.  That is
    the requested offset exactly when the quotient and the remainder of
    [offset] by [limit] are equal; for an offset that is a multiple of
    [limit], the start of a page, it is the requested offset on the first
    page only, and on the page after [k] full pages [k] rows too far. *)
Theorem searchUsers_offset (offset limit : Z) :
  1 <= limit -> 0 <= offset ->
  let start := (offset / limit) * (limit + 1) in
  searchUsers_query offset limit
  = ("SELECT * FROM users WHERE is_active = $1 ORDER BY created_at DESC LIMIT $2 OFFSET $3",
     [JBool true; JNum (limit + 1); JNum start])
  /\ (start = offset <-> offset / limit = offset mod limit)
  /\ (forall k, 0 <= k -> offset = k * limit -> start = offset + k)
  /\ (offset mod limit = 0 -> (start = offset <-> offset = 0)).
Proof.
  intros Hl Ho start.
  pose proof (Z.div_mod offset limit ltac:(lia)) as Hdm.
  pose proof (Z.mod_pos_bound offset limit ltac:(lia)) as Hm.
  split; [|split; [|split]].
  - unfold searchUsers_query, searchUsers_pagination, findMany_query.
    cbn -[Z.mul Z.add Z.div].
    replace (offset / limit + 1 - 1) with (offset / limit) by lia.
    reflexivity.
  - unfold start. split; intros H; nia.
  - intros k Hk ->. unfold start. rewrite Z.div_mul by lia. lia.
  - intros H0. unfold start. split; intros H.
    + assert (offset / limit = 0) by nia. nia.
    + subst offset. by rewrite Z.div_0_l by lia.
Qed.

End SearchFacts.

Module SearchExamples.
Import BaseRepository UserService SearchFacts.

(** The third page of twenty users starts two rows late. *)
Lemma searchUsers_offset_witness :
  let start := (40 / 20) * (20 + 1) in
  searchUsers_query 40 20
  = ("SELECT * FROM users WHERE is_active = $1 ORDER BY created_at DESC LIMIT $2 OFFSET $3",
     [JBool true; JNum (20 + 1); JNum start])
  /\ (start = 40 <-> 40 / 20 = 40 mod 20)
  /\ (forall k, 0 <= k -> 40 = k * 20 -> start = 40 + k)
  /\ (40 mod 20 = 0 -> (start = 40 <-> 40 = 0)).
Proof.
  exact (searchUsers_offset 40 20 ltac:(lia) ltac:(lia)).
Defined.

Lemma third_page_starts_at_42 :
  snd (searchUsers_query 40 20) = [JBool true; JNum 21; JNum 42].
Proof. reflexivity. Qed.

End SearchExamples.

